(** * Legal Doc Studio: template engine and fallback encoders

    A shallow embedding of the document core of the repository:
    - [processTemplate] and [validateVariables] (template engine),
    - [crc32], [getCrc32Table] and [createMinimalDocxZip] (ZIP container),
    - [generateFallbackPdf] and [generateFallbackDocx] (fallback exports),
    - the two [markdownToHtml], [parseEnvInt], the counts of the preview,
      the handler of the format route and [handleNext] of the form wizard.

    JavaScript strings are sequences of UTF-16 code units; a [Buffer] is a
    sequence of bytes.  Regular expressions are written out as backtracking
    matchers in continuation-passing style, one combinator per regex
    construct, so that greedy and lazy quantifiers try their alternatives in
    the order the JavaScript engine does. *)

From Stdlib Require Import ZArith List Lia ZifyNat Bool Ascii String DecimalString.
From Stdlib Require DecimalPos.
From Stdlib.Strings Require Import Byte.
From stdpp Require Import gmap list.

Local Open Scope N_scope.

(** ** JavaScript strings *)

(** A UTF-16 code unit (a number below 65536) and a string of them. *)
Abbreviation jschar := N (only parsing).
Abbreviation jsstring := (list N) (only parsing).

(** The code units of an ASCII literal. *)
Definition js (s : String.string) : jsstring :=
  map N_of_ascii (list_ascii_of_string s).

(** [\s] of a JavaScript regex; also what [String.prototype.trim] strips
    (WhiteSpace and LineTerminator). *)
Definition isSpace (c : jschar) : bool :=
  ((9 <=? c) && (c <=? 13)) || (c =? 32) || (c =? 160) || (c =? 0x1680)
  || ((0x2000 <=? c) && (c <=? 0x200A)) || (c =? 0x2028) || (c =? 0x2029)
  || (c =? 0x202F) || (c =? 0x205F) || (c =? 0x3000) || (c =? 0xFEFF).

(** LineTerminator: what [.] refuses and what [^] and [$] look at under the
    [m] flag. *)
Definition isLineTerminator (c : jschar) : bool :=
  (c =? 10) || (c =? 13) || (c =? 0x2028) || (c =? 0x2029).

(** [\w] without the [i] and [u] flags: [A-Za-z0-9_]. *)
Definition isWord (c : jschar) : bool :=
  ((48 <=? c) && (c <=? 57)) || ((65 <=? c) && (c <=? 90))
  || (c =? 95) || ((97 <=? c) && (c <=? 122)).

(** SyntaxCharacter of the regex grammar: [^ $ \ . * + ? ( ) [ ] { } |]. *)
Definition isSyntaxChar (c : jschar) : bool :=
  existsb (N.eqb c) (js "^$\.*+?()[]{}|").

(** ** Regex constructs as backtracking matchers

    A matcher reads the text at the current position and hands what is left
    to its continuation; [None] makes the enclosing quantifier try its next
    alternative. *)
Section Matchers.
Context {R : Type}.

(** A literal run of characters. *)
Fixpoint lit (l : jsstring) (k : jsstring -> option R) (s : jsstring)
  : option R :=
  match l with
  | [] => k s
  | c :: l' =>
      match s with
      | d :: s' => if c =? d then lit l' k s' else None
      | [] => None
      end
  end.

(** [p*], greedy: the longest run first, then shorter ones.  The
    continuation receives the run. *)
Fixpoint star (p : jschar -> bool) (k : jsstring -> jsstring -> option R)
    (s : jsstring) : option R :=
  match s with
  | c :: s' =>
      if p c then
        match star p (fun cap => k (c :: cap)) s' with
        | Some r => Some r
        | None => k [] s
        end
      else k [] s
  | [] => k [] []
  end.

(** [p+], greedy. *)
Definition plus (p : jschar -> bool) (k : jsstring -> jsstring -> option R)
    (s : jsstring) : option R :=
  match s with
  | c :: s' => if p c then star p (fun cap => k (c :: cap)) s' else None
  | [] => None
  end.

(** [p*?], lazy: the shortest run first, then longer ones. *)
Fixpoint lazyStar (p : jschar -> bool)
    (k : jsstring -> jsstring -> option R) (s : jsstring) : option R :=
  match k [] s with
  | Some r => Some r
  | None =>
      match s with
      | c :: s' =>
          if p c then lazyStar p (fun cap => k (c :: cap)) s' else None
      | [] => None
      end
  end.
End Matchers.

(** [[\s\S]] accepts every code unit, [.] every one but a line terminator. *)
Definition anyChar (c : jschar) : bool := true.
Definition dotChar (c : jschar) : bool := negb (isLineTerminator c).

(** ** [String.prototype.replace] with a global regex

    The matcher [m] receives the text before the position (reversed, so that
    its head is the previous character) and the text at the position, and
    answers with the replacement and the text after the match.  Matches are
    looked for from left to right, each search starting where the previous
    match ended; an empty match copies one character before the next
    search. *)
Section Replace.
Variable m : jsstring -> jsstring -> option (jsstring * jsstring).

Fixpoint replaceFrom (pre : jsstring) (skip : nat) (s : jsstring)
  : jsstring :=
  match s with
  | [] =>
      match skip with
      | O => match m pre [] with Some (repl, _) => repl | None => [] end
      | S _ => []
      end
  | c :: s' =>
      match skip with
      | S k => replaceFrom (c :: pre) k s'
      | O =>
          match m pre (c :: s') with
          | Some (repl, rest) =>
              match (length (c :: s') - length rest)%nat with
              | O => repl ++ c :: replaceFrom (c :: pre) 0 s'
              | S k => repl ++ replaceFrom (c :: pre) k s'
              end
          | None => c :: replaceFrom (c :: pre) 0 s'
          end
      end
  end.

Definition replaceAll (s : jsstring) : jsstring := replaceFrom [] 0 s.
End Replace.

(** GetSubstitution for a regex without capture groups: in a replacement
    string [$$] is a dollar sign, [$&] the matched text, [$`] the text before
    the match and [$'] the text after it; every other [$] stands for itself. *)
Fixpoint getSubstitution (matched before after r : jsstring) : jsstring :=
  match r with
  | [] => []
  | c :: r' =>
      if c =? 36 then
        match r' with
        | d :: r'' =>
            if d =? 36 then 36 :: getSubstitution matched before after r''
            else if d =? 38 then
              matched ++ getSubstitution matched before after r''
            else if d =? 96 then
              before ++ getSubstitution matched before after r''
            else if d =? 39 then
              after ++ getSubstitution matched before after r''
            else c :: getSubstitution matched before after r'
        | [] => [c]
        end
      else c :: getSubstitution matched before after r'
  end.

(** A regex without groups, replaced by a replacement string. *)
Definition withString (re : jsstring -> option jsstring) (r : jsstring)
    (pre s : jsstring) : option (jsstring * jsstring) :=
  match re s with
  | Some rest =>
      let matched := firstn (length s - length rest) s in
      Some (getSubstitution matched (rev pre) rest r, rest)
  | None => None
  end.

(** ** Template processing *)

(** A value of the [values] record: [string | number | boolean].  The
    numbers of the model are the integers; [VNumber z] stands for the number
    [z] where a JavaScript number holds it exactly, which is so for every
    [z] with [|z| < 2^53] ([safeInteger]). *)
Inductive value :=
  | VString (s : jsstring)
  | VNumber (z : Z)
  | VBool (b : bool).

(** The own enumerable properties of [values], in the order
    [Object.entries] lists them. *)
Definition Values := list (jsstring * value).

(** The own property [name] of [values]; [None] when there is none. *)
Fixpoint getValue (values : Values) (name : jsstring) : option value :=
  match values with
  | [] => None
  | (k, v) :: values' =>
      if bool_decide (k = name) then Some v else getValue values' name
  end.

(** The names that a plain object inherits from [Object.prototype]. *)
Definition objectPrototypeNames : list jsstring :=
  [js "constructor"; js "__defineGetter__"; js "__defineSetter__";
   js "hasOwnProperty"; js "__lookupGetter__"; js "__lookupSetter__";
   js "isPrototypeOf"; js "propertyIsEnumerable"; js "toString";
   js "valueOf"; js "__proto__"; js "toLocaleString"].

Definition isInherited (name : jsstring) : bool :=
  existsb (fun inherited => bool_decide (inherited = name))
    objectPrototypeNames.

(** What [values[name]] reads: [undefined], an own property, or a function
    or object of [Object.prototype], which is none of the values of a form. *)
Inductive property :=
  | Undefined
  | Own (v : value)
  | Inherited.

(** [values[name]] on a plain object: the own property first, then the
    prototype. *)
Definition readProperty (values : Values) (name : jsstring) : property :=
  match getValue values name with
  | Some v => Own v
  | None => if isInherited name then Inherited else Undefined
  end.

(** The integers that a JavaScript number holds exactly and that [String]
    writes with all their decimal digits. *)
Definition safeInteger (z : Z) : bool := (Z.abs z <? 2 ^ 53)%Z.

(** [String(value)], for the numbers that are safe integers. *)
Definition numberToString (z : Z) : jsstring :=
  js (NilZero.string_of_int (Z.to_int z)).

Definition toString (v : value) : jsstring :=
  match v with
  | VString s => s
  | VNumber z => numberToString z
  | VBool true => js "true"
  | VBool false => js "false"
  end.

(** [\{\{\s*KEY\s*\}\}], for a key that is literal text in a regex. *)
Definition simpleVarRegex (key : jsstring) (s : jsstring) : option jsstring :=
  lit (js "{{") (star isSpace (fun _ =>
    lit key (star isSpace (fun _ => lit (js "}}") Some)))) s.

(** A key stands for itself in [new RegExp] when it has no syntax
    character.  Of the other keys, which are patterns of their own or no
    pattern at all, the model reads those whose only syntax character is
    [|] ([alternativeKey], below). *)
Definition literalKey (key : jsstring) : bool :=
  forallb (fun c => negb (isSyntaxChar c)) key.

(** The result of a call. *)
Inductive outcome :=
  | Returned (s : jsstring)
  | KeyIsPattern (key : jsstring)
  | NoFixpoint.

(** The alternatives of a key: the pieces between its [|]. *)
Fixpoint alternatives (key : jsstring) : list jsstring :=
  match key with
  | [] => [[]]
  | c :: key' =>
      if c =? 124 then [] :: alternatives key'
      else
        match alternatives key' with
        | k :: ks => (c :: k) :: ks
        | [] => [[c]]
        end
  end.

(** A key whose only syntax characters are [|]: literal alternatives. *)
Definition alternativeKey (key : jsstring) : bool :=
  forallb literalKey (alternatives key).

(** [K2|...|Kn\s*\}\}]: the alternatives after the first one, tried from
    left to right; the last one carries the end of the regex. *)
Fixpoint laterAlternatives (ks : list jsstring) (s : jsstring)
  : option jsstring :=
  match ks with
  | [] => None
  | [k] => lit k (star isSpace (fun _ => lit (js "}}") Some)) s
  | k :: ks' =>
      match lit k Some s with
      | Some rest => Some rest
      | None => laterAlternatives ks' s
      end
  end.

(** [\{\{\s*K1|K2|...|Kn\s*\}\}], the regex of a key with [|] in it: the
    first alternative carries the start of the regex. *)
Definition alternativeVarRegex (key : jsstring) (s : jsstring)
  : option jsstring :=
  match alternatives key with
  | k :: ks =>
      match lit (js "{{") (star isSpace (fun _ => lit k Some)) s with
      | Some rest => Some rest
      | None => laterAlternatives ks s
      end
  | [] => None
  end.

(** The first loop: every match of the regex of a key becomes
    [String(value)].  A key with other syntax characters than [|] is a
    pattern that the model does not read, or no pattern at all. *)
Fixpoint substituteVars (values : Values) (processed : jsstring)
  : jsstring + jsstring :=
  match values with
  | [] => inl processed
  | (key, v) :: values' =>
      if literalKey key then
        substituteVars values'
          (replaceAll (withString (simpleVarRegex key) (toString v)) processed)
      else if alternativeKey key then
        substituteVars values'
          (replaceAll (withString (alternativeVarRegex key) (toString v))
             processed)
      else inr key
  end.

(** The captures of the conditional regex. *)
Record conditional := {
  varName : jsstring;
  ifContent : jsstring;
  elseContent : option jsstring
}.

(** [\{\{#if\s+(\w+)\}\}([\s\S]*?)(?:\{\{else\}\}([\s\S]*?))?\{\{\/if\}\}] *)
Definition conditionalRegex (s : jsstring) : option (conditional * jsstring) :=
  lit (js "{{#if") (plus isSpace (fun _ =>
    plus isWord (fun name =>
      lit (js "}}") (lazyStar anyChar (fun ifc t =>
        match
          lit (js "{{else}}") (lazyStar anyChar (fun elc =>
            lit (js "{{/if}}") (fun rest =>
              Some (Build_conditional name ifc (Some elc), rest)))) t
        with
        | Some r => Some r
        | None =>
            lit (js "{{/if}}") (fun rest =>
              Some (Build_conditional name ifc None, rest)) t
        end))))) s.

(** [value !== undefined && value !== false && value !== '' && value !== 0] *)
Definition isTruthy (v : property) : bool :=
  match v with
  | Undefined => false
  | Own (VBool false) => false
  | Own (VString []) => false
  | Own (VNumber 0%Z) => false
  | _ => true
  end.

(** The replacer function of the conditional pass; the [elseContent]
    parameter defaults to the empty string. *)
Definition conditionalReplacer (values : Values) (c : conditional) : jsstring :=
  if isTruthy (readProperty values (varName c)) then ifContent c
  else match elseContent c with Some e => e | None => [] end.

Definition conditionalMatcher (values : Values) (pre s : jsstring)
  : option (jsstring * jsstring) :=
  match conditionalRegex s with
  | Some (c, rest) => Some (conditionalReplacer values c, rest)
  | None => None
  end.

(** One turn of the loop body. *)
Definition conditionalPass (values : Values) (processed : jsstring) : jsstring :=
  replaceAll (conditionalMatcher values) processed.

(** [while (prevProcessed !== processed) { ... }]; [fuel] bounds the number
    of turns, [None] says that the bound was reached. *)
Fixpoint conditionalLoop (values : Values) (fuel : nat)
    (prevProcessed processed : jsstring) : option jsstring :=
  if bool_decide (prevProcessed = processed) then Some processed
  else
    match fuel with
    | O => None
    | S fuel' =>
        conditionalLoop values fuel' processed (conditionalPass values processed)
    end.

(** The clean-up regexes. *)
Definition unmatchedVarRegex (s : jsstring) : option jsstring :=
  lit (js "{{") (star isSpace (fun _ => plus isWord (fun _ =>
    star isSpace (fun _ => lit (js "}}") Some)))) s.

Definition openTagRegex (tag : jsstring) (s : jsstring) : option jsstring :=
  lit tag (plus isSpace (fun _ => plus isWord (fun _ =>
    lit (js "}}") Some))) s.

Definition literalRegex (l : jsstring) (s : jsstring) : option jsstring :=
  lit l Some s.

Definition cleanUp (processed : jsstring) : jsstring :=
  let processed :=
    replaceAll (withString unmatchedVarRegex (js "[___]")) processed in
  let processed :=
    replaceAll (withString (openTagRegex (js "{{#if")) []) processed in
  let processed :=
    replaceAll (withString (literalRegex (js "{{else}}")) []) processed in
  let processed :=
    replaceAll (withString (literalRegex (js "{{/if}}")) []) processed in
  let processed :=
    replaceAll (withString (openTagRegex (js "{{#unless")) []) processed in
  replaceAll (withString (literalRegex (js "{{/unless}}")) []) processed.

Definition processTemplateWith (fuel : nat) (templateContent : jsstring)
    (values : Values) : outcome :=
  match substituteVars values templateContent with
  | inr key => KeyIsPattern key
  | inl processed =>
      match conditionalLoop values fuel [] processed with
      | None => NoFixpoint
      | Some processed => Returned (cleanUp processed)
      end
  end.

(** [processTemplate], with as many turns as the text entering the loop has
    characters, plus one; [conditionalLoop_terminates] shows that the loop
    needs no more, whatever the text. *)
Definition processTemplate (templateContent : jsstring) (values : Values)
  : outcome :=
  match substituteVars values templateContent with
  | inr key => KeyIsPattern key
  | inl processed =>
      processTemplateWith (S (length processed)) templateContent values
  end.

(** The templates of the two scenarios of the specification. *)
Definition nested : jsstring :=
  js "{{#if a}}{{#if b}}X{{else}}Y{{/if}}{{else}}Z{{/if}}".
Definition hello : jsstring := js "Hello {{#if vip}}VIP {{/if}}{{name}}!".

(** ** Delimiters in a text *)

(** [s.startsWith(p)] and [s.includes(p)]. *)
Fixpoint startsWith (p s : jsstring) : bool :=
  match p with
  | [] => true
  | c :: p' =>
      match s with
      | d :: s' => (c =? d) && startsWith p' s'
      | [] => false
      end
  end.

Fixpoint includes (p s : jsstring) : bool :=
  startsWith p s
  || match s with
     | [] => false
     | _ :: s' => includes p s'
     end.

(** A delimiter token: an opening [{{] with a closing [}}] somewhere after
    it. *)
Fixpoint hasToken (s : jsstring) : bool :=
  match s with
  | [] => false
  | _ :: s' =>
      (startsWith (js "{{") s && includes (js "}}") (skipn 2 s)) || hasToken s'
  end.

(** ** Conditional blocks *)



(** A variable name: word characters, at least one. *)
Definition isName (name : jsstring) : bool :=
  match name with
  | [] => false
  | _ => forallb isWord name
  end.

(** ** Validation *)

(** Modelled from the spec: the type [TemplateVariable] of [@/lib/types],
    which is not among the sources.  The specification lists
    [{name, label, type, required, options?, validation?}]; these are the
    fields [validateVariables] reads. *)
Module Validation.
Record t := {
  pattern : option jsstring;
  min : option Z;
  max : option Z;
  minLength : option Z;
  maxLength : option Z
}.
End Validation.

Record TemplateVariable := {
  name : jsstring;
  label : jsstring;
  required : bool;
  validation : option Validation.t
}.

(** [value === undefined || value === ''] *)
Definition isMissing (v : property) : bool :=
  match v with
  | Undefined => true
  | Own (VString []) => true
  | _ => false
  end.

(** [errors[key] = message] on the plain object [errors]: the key
    [__proto__] is the accessor of [Object.prototype], whose setter ignores a
    string and gives the object no own property; every other key becomes an
    own property, or is overwritten. *)
Definition setError (key message : jsstring)
    (errors : gmap jsstring jsstring) : gmap jsstring jsstring :=
  if bool_decide (key = js "__proto__") then errors
  else <[key := message]> errors.

Section Validate.
(** [new RegExp(pattern).test(value)], the regex engine of the host; [None]
    is a pattern that is no regex, for which [new RegExp] throws a
    [SyntaxError]. *)
Variable regexTest : jsstring -> jsstring -> option bool.

(** The body of the loop; [None] is the [SyntaxError] of a pattern, which
    nothing catches. *)
Definition validateVariable (values : Values)
    (errors : gmap jsstring jsstring) (variable : TemplateVariable)
  : option (gmap jsstring jsstring) :=
  let v := readProperty values (name variable) in
  if required variable && isMissing v then
    Some (setError (name variable) (label variable ++ js " is required") errors)
  else if negb (required variable) && isMissing v then Some errors
  else
    match validation variable with
    | None => Some errors
    | Some c =>
        let afterPattern :=
          match Validation.pattern c, v with
          | Some (p :: ps), Own (VString s) =>
              match regexTest (p :: ps) s with
              | None => None
              | Some true => Some errors
              | Some false =>
                  Some (setError (name variable)
                          (label variable ++ js " format is invalid") errors)
              end
          | _, _ => Some errors
          end in
        match afterPattern with
        | None => None
        | Some errors =>
            let errors :=
              match v with
              | Own (VNumber n) =>
                  let errors :=
                    match Validation.min c with
                    | Some m =>
                        if (n <? m)%Z then
                          setError (name variable)
                            (label variable ++ js " must be at least "
                             ++ numberToString m) errors
                        else errors
                    | None => errors
                    end in
                  match Validation.max c with
                  | Some m =>
                      if (m <? n)%Z then
                        setError (name variable)
                          (label variable ++ js " must be at most "
                           ++ numberToString m) errors
                      else errors
                  | None => errors
                  end
              | _ => errors
              end in
            match v with
            | Own (VString s) =>
                let errors :=
                  match Validation.minLength c with
                  | Some m =>
                      if (Z.of_nat (length s) <? m)%Z then
                        setError (name variable)
                          (label variable ++ js " must be at least "
                           ++ numberToString m ++ js " characters") errors
                      else errors
                  | None => errors
                  end in
                Some
                  match Validation.maxLength c with
                  | Some m =>
                      if (m <? Z.of_nat (length s))%Z then
                        setError (name variable)
                          (label variable ++ js " must be at most "
                           ++ numberToString m ++ js " characters") errors
                      else errors
                  | None => errors
                  end
            | _ => Some errors
            end
        end
    end.

Record validationResult := {
  isValid : bool;
  errors : gmap jsstring jsstring
}.

(** The loop over the variables, which ends at the first throw. *)
Fixpoint validateAll (values : Values) (variables : list TemplateVariable)
    (errors : gmap jsstring jsstring) : option (gmap jsstring jsstring) :=
  match variables with
  | [] => Some errors
  | variable :: variables' =>
      match validateVariable values errors variable with
      | Some errors' => validateAll values variables' errors'
      | None => None
      end
  end.

(** [validateVariables]; [None] when it throws. *)
Definition validateVariables (variables : list TemplateVariable)
    (values : Values) : option validationResult :=
  match validateAll values variables ∅ with
  | Some errors =>
      Some {| isValid := bool_decide (size errors = 0%nat); errors := errors |}
  | None => None
  end.

End Validate.

(** Two variables of a lease form: a required ZIP code of five characters
    at least, and a note that may be left out. *)
Definition zipVariable : TemplateVariable :=
  {| name := js "zip"; label := js "ZIP"; required := true;
     validation :=
       Some {| Validation.pattern := None; Validation.min := None;
               Validation.max := None; Validation.minLength := Some 5%Z;
               Validation.maxLength := None |} |}.

Definition noteVariable : TemplateVariable :=
  {| name := js "note"; label := js "Note"; required := false;
     validation :=
       Some {| Validation.pattern := Some (js "^[a-z]+$"); Validation.min := None;
               Validation.max := None; Validation.minLength := Some 3%Z;
               Validation.maxLength := None |} |}.

(** ** CRC-32 *)

(** A [Buffer]: a sequence of bytes.  [buffer[i]] is a number from 0 to
    255. *)
Abbreviation Buffer := (list byte) (only parsing).

Definition byteValue (b : byte) : Z := Z.of_N (Byte.to_N b).

(** The 32-bit operators of JavaScript on numbers that are integers:
    [ToUint32], [ToInt32], [^], [&] and [>>>].  [^] and [&] answer with a signed
    32-bit integer, [>>>] with an unsigned one. *)
Definition toUint32 (z : Z) : Z := (z mod 2 ^ 32)%Z.
Definition toInt32 (z : Z) : Z := ((z + 2 ^ 31) mod 2 ^ 32 - 2 ^ 31)%Z.
Definition jsXor (a b : Z) : Z := toInt32 (Z.lxor (toInt32 a) (toInt32 b)).
Definition jsAnd (a b : Z) : Z := toInt32 (Z.land (toInt32 a) (toInt32 b)).
Definition jsShiftRightUnsigned (a n : Z) : Z :=
  Z.shiftr (toUint32 a) (toUint32 n mod 32).

(** [c = (c & 1) ? (0xEDB88320 ^ (c >>> 1)) : (c >>> 1)] *)
Definition crc32TableStep (c : Z) : Z :=
  if (jsAnd c 1 =? 0)%Z then jsShiftRightUnsigned c 1
  else jsXor 0xEDB88320 (jsShiftRightUnsigned c 1).

(** The table; the cache in [crc32Table] holds this value from the first call
    on. *)
Definition getCrc32Table : list Z :=
  map (fun i => Nat.iter 8 crc32TableStep (Z.of_nat i)) (seq 0 256).

(** [crc = (crc >>> 8) ^ table[(crc ^ buffer[i]) & 0xFF]]; an index outside
    the table would give [undefined], which [^] reads as 0. *)
Definition crc32Step (table : list Z) (crc : Z) (b : byte) : Z :=
  jsXor (jsShiftRightUnsigned crc 8)
        (nth (Z.to_nat (jsAnd (jsXor crc (byteValue b)) 0xFF)) table 0%Z).

Definition crc32 (buffer : Buffer) : Z :=
  let table := getCrc32Table in
  let crc := fold_left (crc32Step table) buffer 0xFFFFFFFF%Z in
  jsShiftRightUnsigned (jsXor crc 0xFFFFFFFF) 0.

(** The CRC-32 of IEEE 802.3 and zlib, after the words of the specification:
    reflected polynomial [0xEDB88320], a register of 32 bits that starts with
    all ones, each byte added to the low end of the register and followed by
    eight shifts to the right, each of which adds the polynomial when the bit
    shifted out is set; the result is the complement of the register. *)
Definition crc32ReferenceBit (r : Z) : Z :=
  if Z.testbit r 0 then Z.lxor (Z.shiftr r 1) 0xEDB88320
  else Z.shiftr r 1.

Definition crc32ReferenceByte (r : Z) (b : byte) : Z :=
  Nat.iter 8 crc32ReferenceBit (Z.lxor r (byteValue b)).

Definition crc32Reference (buffer : Buffer) : Z :=
  Z.lxor (fold_left crc32ReferenceByte buffer 0xFFFFFFFF%Z) 0xFFFFFFFF.

(** The bytes of an ASCII literal. *)
Definition bytesOf (s : String.string) : Buffer := list_byte_of_string s.

(** ** Buffers *)

Definition byteOfN (n : N) : byte :=
  match Byte.of_N n with
  | Some b => b
  | None => x00
  end.

Definition byteOfZ (z : Z) : byte := byteOfN (Z.to_N z).

(** [Buffer.from(s, 'utf-8')]: a surrogate pair is one code point of four
    bytes, a surrogate on its own is written as U+FFFD. *)
Definition isHighSurrogate (c : jschar) : bool := (0xD800 <=? c) && (c <=? 0xDBFF).
Definition isLowSurrogate (c : jschar) : bool := (0xDC00 <=? c) && (c <=? 0xDFFF).

Definition utf8Three (c : N) : Buffer :=
  [byteOfN (0xE0 + c / 4096); byteOfN (0x80 + (c / 64) mod 64);
   byteOfN (0x80 + c mod 64)].

Definition utf8Four (c : N) : Buffer :=
  [byteOfN (0xF0 + c / 262144); byteOfN (0x80 + (c / 4096) mod 64);
   byteOfN (0x80 + (c / 64) mod 64); byteOfN (0x80 + c mod 64)].

Fixpoint bufferFromUtf8 (s : jsstring) : Buffer :=
  match s with
  | [] => []
  | c :: s' =>
      if c <? 0x80 then byteOfN c :: bufferFromUtf8 s'
      else if c <? 0x800 then
        byteOfN (0xC0 + c / 64) :: byteOfN (0x80 + c mod 64) :: bufferFromUtf8 s'
      else if isHighSurrogate c then
        match s' with
        | d :: s'' =>
            if isLowSurrogate d then
              utf8Four (0x10000 + (c - 0xD800) * 1024 + (d - 0xDC00))
              ++ bufferFromUtf8 s''
            else utf8Three 0xFFFD ++ bufferFromUtf8 s'
        | [] => utf8Three 0xFFFD
        end
      else if isLowSurrogate c then utf8Three 0xFFFD ++ bufferFromUtf8 s'
      else utf8Three c ++ bufferFromUtf8 s'
  end.

(** [Buffer.alloc(n)]: [n] zero bytes. *)
Definition alloc (n : nat) : Buffer := repeat x00 n.

(** Bytes written over a buffer from [offset] on; what does not fit is
    dropped, as [source.copy(target, targetStart)] does. *)
Fixpoint overwrite (bs buf : Buffer) : Buffer :=
  match bs, buf with
  | b :: bs', _ :: buf' => b :: overwrite bs' buf'
  | _, _ => buf
  end.

Fixpoint blit (buf : Buffer) (offset : nat) (bs : Buffer) : Buffer :=
  match offset, buf with
  | O, _ => overwrite bs buf
  | S o, x :: buf' => x :: blit buf' o bs
  | S _, [] => []
  end.

Definition copy (source target : Buffer) (targetStart : nat) : Buffer :=
  blit target targetStart source.

(** [writeUInt16LE] and [writeUInt32LE]; [None] is the [RangeError] of a
    value or an offset out of range. *)
Definition fitsUInt16 (v : Z) : bool := ((0 <=? v) && (v <=? 0xFFFF))%Z.
Definition fitsUInt32 (v : Z) : bool := ((0 <=? v) && (v <=? 0xFFFFFFFF))%Z.

Definition littleEndian16 (v : Z) : Buffer :=
  [byteOfZ (v mod 256); byteOfZ (v / 256 mod 256)].
Definition littleEndian32 (v : Z) : Buffer :=
  [byteOfZ (v mod 256); byteOfZ (v / 256 mod 256);
   byteOfZ (v / 65536 mod 256); byteOfZ (v / 16777216 mod 256)].

Definition writeUInt16LE (buf : Buffer) (value : Z) (offset : nat)
  : option Buffer :=
  if fitsUInt16 value && (offset + 2 <=? length buf)%nat
  then Some (blit buf offset (littleEndian16 value))
  else None.

Definition writeUInt32LE (buf : Buffer) (value : Z) (offset : nat)
  : option Buffer :=
  if fitsUInt32 value && (offset + 4 <=? length buf)%nat
  then Some (blit buf offset (littleEndian32 value))
  else None.

(** [readUInt16LE] and [readUInt32LE], for reading an archive back. *)
Definition readUInt16LE (buf : Buffer) (offset : nat) : option Z :=
  match skipn offset buf with
  | b0 :: b1 :: _ => Some (byteValue b0 + 256 * byteValue b1)%Z
  | _ => None
  end.

Definition readUInt32LE (buf : Buffer) (offset : nat) : option Z :=
  match skipn offset buf with
  | b0 :: b1 :: b2 :: b3 :: _ =>
      Some (byteValue b0 + 256 * byteValue b1 + 65536 * byteValue b2
            + 16777216 * byteValue b3)%Z
  | _ => None
  end.

(** [buf.subarray(start, start + size)] *)
Definition subarray (buf : Buffer) (start size : nat) : Buffer :=
  firstn size (skipn start buf).

(** ** The ZIP container of a DOCX package *)

Module File.
Record t := { name : jsstring; content : jsstring }.
End File.

(** The body of the loop over the files: one local header with the
    content after it, one central directory header, and the offset of the
    next local header. *)
Definition localHeaderOf (file : File.t) : option Buffer :=
  let content := bufferFromUtf8 (File.content file) in
  let nameBuffer := bufferFromUtf8 (File.name file) in
  let localHeader := alloc (30 + length nameBuffer + length content) in
  localHeader ← writeUInt32LE localHeader 0x04034b50 0;
  localHeader ← writeUInt16LE localHeader 20 4;
  localHeader ← writeUInt16LE localHeader 0 6;
  localHeader ← writeUInt16LE localHeader 0 8;
  localHeader ← writeUInt16LE localHeader 0 10;
  localHeader ← writeUInt16LE localHeader 0 12;
  localHeader ← writeUInt32LE localHeader (crc32 content) 14;
  localHeader ← writeUInt32LE localHeader (Z.of_nat (length content)) 18;
  localHeader ← writeUInt32LE localHeader (Z.of_nat (length content)) 22;
  localHeader ← writeUInt16LE localHeader (Z.of_nat (length nameBuffer)) 26;
  localHeader ← writeUInt16LE localHeader 0 28;
  let localHeader := copy nameBuffer localHeader 30 in
  Some (copy content localHeader (30 + length nameBuffer)).

Definition centralHeaderOf (file : File.t) (offset : nat) : option Buffer :=
  let content := bufferFromUtf8 (File.content file) in
  let nameBuffer := bufferFromUtf8 (File.name file) in
  let centralHeader := alloc (46 + length nameBuffer) in
  centralHeader ← writeUInt32LE centralHeader 0x02014b50 0;
  centralHeader ← writeUInt16LE centralHeader 20 4;
  centralHeader ← writeUInt16LE centralHeader 20 6;
  centralHeader ← writeUInt16LE centralHeader 0 8;
  centralHeader ← writeUInt16LE centralHeader 0 10;
  centralHeader ← writeUInt16LE centralHeader 0 12;
  centralHeader ← writeUInt16LE centralHeader 0 14;
  centralHeader ← writeUInt32LE centralHeader (crc32 content) 16;
  centralHeader ← writeUInt32LE centralHeader (Z.of_nat (length content)) 20;
  centralHeader ← writeUInt32LE centralHeader (Z.of_nat (length content)) 24;
  centralHeader ← writeUInt16LE centralHeader (Z.of_nat (length nameBuffer)) 28;
  centralHeader ← writeUInt16LE centralHeader 0 30;
  centralHeader ← writeUInt16LE centralHeader 0 32;
  centralHeader ← writeUInt16LE centralHeader 0 34;
  centralHeader ← writeUInt16LE centralHeader 0 36;
  centralHeader ← writeUInt32LE centralHeader 0 38;
  centralHeader ← writeUInt32LE centralHeader (Z.of_nat offset) 42;
  Some (copy nameBuffer centralHeader 46).

(** The state of the loop: [localHeaders], [centralHeaders], [offset]. *)
Definition zipState : Type := list Buffer * list Buffer * nat.

Definition zipFile (st : zipState) (file : File.t) : option zipState :=
  let '(localHeaders, centralHeaders, offset) := st in
  localHeader ← localHeaderOf file;
  centralHeader ← centralHeaderOf file offset;
  Some (localHeaders ++ [localHeader], centralHeaders ++ [centralHeader],
        (offset + length localHeader)%nat).

Fixpoint zipFiles (st : zipState) (files : list File.t) : option zipState :=
  match files with
  | [] => Some st
  | file :: files' => st' ← zipFile st file; zipFiles st' files'
  end.

Definition endOfCentralDirOf (count centralDirSize centralDirOffset : nat)
  : option Buffer :=
  let endOfCentralDir := alloc 22 in
  endOfCentralDir ← writeUInt32LE endOfCentralDir 0x06054b50 0;
  endOfCentralDir ← writeUInt16LE endOfCentralDir 0 4;
  endOfCentralDir ← writeUInt16LE endOfCentralDir 0 6;
  endOfCentralDir ← writeUInt16LE endOfCentralDir (Z.of_nat count) 8;
  endOfCentralDir ← writeUInt16LE endOfCentralDir (Z.of_nat count) 10;
  endOfCentralDir ← writeUInt32LE endOfCentralDir (Z.of_nat centralDirSize) 12;
  endOfCentralDir ← writeUInt32LE endOfCentralDir (Z.of_nat centralDirOffset) 16;
  writeUInt16LE endOfCentralDir 0 20.

Definition docxFiles (contentTypes rels documentRels documentContent : jsstring)
  : list File.t :=
  [ {| File.name := js "[Content_Types].xml"; File.content := contentTypes |};
    {| File.name := js "_rels/.rels"; File.content := rels |};
    {| File.name := js "word/_rels/document.xml.rels";
       File.content := documentRels |};
    {| File.name := js "word/document.xml"; File.content := documentContent |} ].

Definition zipOf (files : list File.t) : option Buffer :=
  '(localHeaders, centralHeaders, offset) ← zipFiles ([], [], 0%nat) files;
  let centralDirOffset := offset in
  let centralDirSize :=
    fold_left (fun sum h => (sum + length h)%nat) centralHeaders 0%nat in
  endOfCentralDir ←
    endOfCentralDirOf (length files) centralDirSize centralDirOffset;
  Some (concat (localHeaders ++ centralHeaders ++ [endOfCentralDir])).

Definition createMinimalDocxZip
    (contentTypes rels documentRels documentContent : jsstring)
  : option Buffer :=
  zipOf (docxFiles contentTypes rels documentRels documentContent).

(** Where the records of an archive lie. *)
Definition localSize (file : File.t) : nat :=
  30 + length (bufferFromUtf8 (File.name file))
  + length (bufferFromUtf8 (File.content file)).

Definition centralSize (file : File.t) : nat :=
  46 + length (bufferFromUtf8 (File.name file)).

Definition totalSize (size : File.t -> nat) (files : list File.t) : nat :=
  fold_right (fun file sum => (size file + sum)%nat) 0%nat files.

(** The offset of the local header of the [i]th file, and of its central
    directory header within the central directory. *)
Definition localOffset (files : list File.t) (i : nat) : nat :=
  totalSize localSize (firstn i files).

Definition centralOffset (files : list File.t) (i : nat) : nat :=
  totalSize centralSize (firstn i files).

(** The records of an archive, field after field. *)
Definition localRecord (file : File.t) : Buffer :=
  let content := bufferFromUtf8 (File.content file) in
  let nameBuffer := bufferFromUtf8 (File.name file) in
  littleEndian32 0x04034b50 ++ littleEndian16 20 ++ littleEndian16 0
  ++ littleEndian16 0 ++ littleEndian16 0 ++ littleEndian16 0
  ++ littleEndian32 (crc32 content)
  ++ littleEndian32 (Z.of_nat (length content))
  ++ littleEndian32 (Z.of_nat (length content))
  ++ littleEndian16 (Z.of_nat (length nameBuffer)) ++ littleEndian16 0
  ++ nameBuffer ++ content.

Definition centralRecord (file : File.t) (offset : nat) : Buffer :=
  let content := bufferFromUtf8 (File.content file) in
  let nameBuffer := bufferFromUtf8 (File.name file) in
  littleEndian32 0x02014b50 ++ littleEndian16 20 ++ littleEndian16 20
  ++ littleEndian16 0 ++ littleEndian16 0 ++ littleEndian16 0
  ++ littleEndian16 0
  ++ littleEndian32 (crc32 content)
  ++ littleEndian32 (Z.of_nat (length content))
  ++ littleEndian32 (Z.of_nat (length content))
  ++ littleEndian16 (Z.of_nat (length nameBuffer)) ++ littleEndian16 0
  ++ littleEndian16 0 ++ littleEndian16 0 ++ littleEndian16 0
  ++ littleEndian32 0 ++ littleEndian32 (Z.of_nat offset)
  ++ nameBuffer.

Definition endRecord (count centralDirSize centralDirOffset : nat) : Buffer :=
  littleEndian32 0x06054b50 ++ littleEndian16 0 ++ littleEndian16 0
  ++ littleEndian16 (Z.of_nat count) ++ littleEndian16 (Z.of_nat count)
  ++ littleEndian32 (Z.of_nat centralDirSize)
  ++ littleEndian32 (Z.of_nat centralDirOffset) ++ littleEndian16 0.

Fixpoint centralRecords (files : list File.t) (offset : nat) : list Buffer :=
  match files with
  | [] => []
  | file :: files' =>
      centralRecord file offset
      :: centralRecords files' (offset + localSize file)
  end.

(** The files that the writes accept: sizes and offsets of 32 bits, name
    lengths of 16 bits. *)
Definition fileFits (file : File.t) (offset : nat) : bool :=
  fitsUInt32 (Z.of_nat (length (bufferFromUtf8 (File.content file))))
  && fitsUInt16 (Z.of_nat (length (bufferFromUtf8 (File.name file))))
  && fitsUInt32 (Z.of_nat offset).

Fixpoint filesFit (files : list File.t) (offset : nat) : bool :=
  match files with
  | [] => true
  | file :: files' =>
      fileFits file offset && filesFit files' (offset + localSize file)
  end.

(** ** More string methods *)

(** [s.trim()] *)
Fixpoint trimStart (s : jsstring) : jsstring :=
  match s with
  | c :: s' => if isSpace c then trimStart s' else s
  | [] => []
  end.

Definition trimEnd (s : jsstring) : jsstring := rev (trimStart (rev s)).
Definition trim (s : jsstring) : jsstring := trimEnd (trimStart s).

(** [s.split(sep)] for a separator of one character: one piece at least. *)
Fixpoint split (sep : jschar) (s : jsstring) : list jsstring :=
  match s with
  | [] => [[]]
  | c :: s' =>
      if c =? sep then [] :: split sep s'
      else
        match split sep s' with
        | piece :: pieces => (c :: piece) :: pieces
        | [] => [[c]]
        end
  end.

(** [pieces.join(sep)] *)
Fixpoint join (sep : jsstring) (pieces : list jsstring) : jsstring :=
  match pieces with
  | [] => []
  | [piece] => piece
  | piece :: pieces' => piece ++ sep ++ join sep pieces'
  end.

(** [n.toString()] of a count, and [s.padStart(width, '0')]. *)
Definition natToString (n : nat) : jsstring := numberToString (Z.of_nat n).

Definition padStart (width : nat) (s : jsstring) : jsstring :=
  repeat 48 (width - length s) ++ s.

(** [^] and [$] under the [m] flag. *)
Definition atLineStart (pre : jsstring) : bool :=
  match pre with
  | [] => true
  | c :: _ => isLineTerminator c
  end.

Definition atLineEnd (s : jsstring) : bool :=
  match s with
  | [] => true
  | c :: _ => isLineTerminator c
  end.

(** [p{0,n}], greedy. *)
Fixpoint upTo {R} (p : jschar -> bool) (n : nat) (k : jsstring -> option R)
    (s : jsstring) : option R :=
  match n with
  | O => k s
  | S n' =>
      match s with
      | c :: s' =>
          if p c then
            match upTo p n' k s' with
            | Some r => Some r
            | None => k s
            end
          else k s
      | [] => k s
      end
  end.

(** A regex that looks at the text before the position, replaced by a
    replacement string. *)
Definition withStringAt (re : jsstring -> jsstring -> option jsstring)
    (r : jsstring) (pre s : jsstring) : option (jsstring * jsstring) :=
  withString (re pre) r pre s.

(** ** The fallback PDF *)

(** [/^#{1,6}\s+/gm] *)
Definition headerMarkRegex (pre s : jsstring) : option jsstring :=
  if atLineStart pre then
    lit [35] (upTo (N.eqb 35) 5 (plus isSpace (fun _ => Some))) s
  else None.

(** [/\*\*(.*?)\*\*/g] and [/\*(.*?)\*/g], replaced by ['$1']. *)
Definition emphasisMatcher (mark : jsstring) (pre s : jsstring)
  : option (jsstring * jsstring) :=
  lit mark (lazyStar dotChar (fun cap =>
    lit mark (fun rest => Some (cap, rest)))) s.

(** [/^\- /gm] *)
Definition listMarkRegex (pre s : jsstring) : option jsstring :=
  if atLineStart pre then lit (js "- ") Some s else None.

(** [/^---$/gm] *)
Definition ruleRegex (pre s : jsstring) : option jsstring :=
  if atLineStart pre then
    lit (js "---") (fun rest => if atLineEnd rest then Some rest else None) s
  else None.

Definition bullet : jschar := 0x2022.
Definition boxLine : jschar := 0x2500.

Definition plainTextOf (markdownContent : jsstring) : jsstring :=
  let s := replaceAll (withStringAt headerMarkRegex []) markdownContent in
  let s := replaceAll (emphasisMatcher (js "**")) s in
  let s := replaceAll (emphasisMatcher (js "*")) s in
  let s := replaceAll (withStringAt listMarkRegex [bullet; 32]) s in
  let s := replaceAll (withStringAt ruleRegex (repeat boxLine 40)) s in
  trim s.

Definition maxLineLength : nat := 80.

(** The loop over the words of a long line; the state is [wrappedLines]
    and [currentLine]. *)
Definition wrapWord (st : list jsstring * jsstring) (word : jsstring)
  : list jsstring * jsstring :=
  let '(wrappedLines, currentLine) := st in
  let candidate := trim (currentLine ++ [32] ++ word) in
  if (length candidate <=? maxLineLength)%nat then (wrappedLines, candidate)
  else
    (match currentLine with
     | [] => wrappedLines
     | _ => wrappedLines ++ [currentLine]
     end, word).

Definition wrapLine (wrappedLines : list jsstring) (line : jsstring)
  : list jsstring :=
  if (length line <=? maxLineLength)%nat then wrappedLines ++ [line]
  else
    let '(wrappedLines, currentLine) :=
      fold_left wrapWord (split 32 line) (wrappedLines, []) in
    match currentLine with
    | [] => wrappedLines
    | _ => wrappedLines ++ [currentLine]
    end.

Definition wrappedLinesOf (plainText : jsstring) : list jsstring :=
  fold_left wrapLine (split 10 plainText) [].

Definition pageHeight : Z := 792.
Definition pageWidth : Z := 612.
Definition margin : Z := 72.
Definition lineHeight : Z := 14.
Definition fontSize : Z := 11.

(** [Math.floor((pageHeight - 2 * margin) / lineHeight)] *)
Definition linesPerPage : nat :=
  Z.to_nat ((pageHeight - 2 * margin) / lineHeight).

(** [for (let i = 0; i < wrappedLines.length; i += linesPerPage)]; the
    loop makes no more turns than there are lines. *)
Fixpoint paginateFrom (fuel i : nat) (wrappedLines : list jsstring)
  : list (list jsstring) :=
  match fuel with
  | O => []
  | S fuel' =>
      if (i <? length wrappedLines)%nat then
        firstn linesPerPage (skipn i wrappedLines)
        :: paginateFrom fuel' (i + linesPerPage) wrappedLines
      else []
  end.

Definition placeholderLine : jsstring := js "[Document content]".

Definition pagesOf (wrappedLines : list jsstring) : list (list jsstring) :=
  let pages := paginateFrom (length wrappedLines) 0 wrappedLines in
  match pages with
  | [] => [[placeholderLine]]
  | _ => pages
  end.

(** A line of a content stream: backslashes and parentheses escaped. *)
Definition escapePdf (line : jsstring) : jsstring :=
  let s := replaceAll (withString (literalRegex [92]) [92; 92]) line in
  let s := replaceAll (withString (literalRegex [40]) [92; 40]) s in
  replaceAll (withString (literalRegex [41]) [92; 41]) s.

Definition zToString (z : Z) : jsstring := numberToString z.

(** The loop over the lines of a page; the state is [textContent] and
    [yPos]. *)
Definition textLine (st : jsstring * Z) (line : jsstring) : jsstring * Z :=
  let '(textContent, yPos) := st in
  (textContent ++ js "1 0 0 1 " ++ zToString margin ++ js " " ++ zToString yPos
   ++ js " Tm" ++ [10] ++ js "(" ++ escapePdf line ++ js ") Tj" ++ [10],
   (yPos - lineHeight)%Z).

Definition textContentOf (pageLines : list jsstring) : jsstring :=
  let '(textContent, _) :=
    fold_left textLine pageLines
      (js "BT" ++ [10] ++ js "/F1 " ++ zToString fontSize ++ js " Tf" ++ [10],
       (pageHeight - margin)%Z) in
  textContent ++ js "ET".

Definition catalogObject (objectCount : nat) : jsstring :=
  natToString objectCount ++ js " 0 obj" ++ [10]
  ++ js "<< /Type /Catalog /Pages 2 0 R >>" ++ [10] ++ js "endobj".

Definition pagesObject (objectCount : nat) (pages : list (list jsstring))
  : jsstring :=
  let pageRefs :=
    join (js " ")
      (map (fun i => natToString (i + 4) ++ js " 0 R") (seq 0 (length pages))) in
  natToString objectCount ++ js " 0 obj" ++ [10]
  ++ js "<< /Type /Pages /Kids [" ++ pageRefs ++ js "] /Count "
  ++ natToString (length pages) ++ js " >>" ++ [10] ++ js "endobj".

Definition fontObject (objectCount : nat) : jsstring :=
  natToString objectCount ++ js " 0 obj" ++ [10]
  ++ js "<< /Type /Font /Subtype /Type1 /BaseFont /Times-Roman >>" ++ [10]
  ++ js "endobj".

Definition pageObject (objectCount contentObjNum : nat) : jsstring :=
  natToString objectCount ++ js " 0 obj" ++ [10]
  ++ js "<< /Type /Page /Parent 2 0 R /MediaBox [0 0 " ++ zToString pageWidth
  ++ js " " ++ zToString pageHeight ++ js "] /Contents "
  ++ natToString contentObjNum
  ++ js " 0 R /Resources << /Font << /F1 3 0 R >> >> >>" ++ [10]
  ++ js "endobj".

Definition contentObject (objectCount : nat) (pageLines : list jsstring)
  : jsstring :=
  let textContent := textContentOf pageLines in
  let streamLength := length textContent in
  natToString objectCount ++ js " 0 obj" ++ [10]
  ++ js "<< /Length " ++ natToString streamLength ++ js " >>" ++ [10]
  ++ js "stream" ++ [10] ++ textContent ++ [10] ++ js "endstream" ++ [10]
  ++ js "endobj".

(** The objects, in the order of their numbers. *)
Definition objectsOf (pages : list (list jsstring)) : list jsstring :=
  let objectCount := 3%nat in
  let contentStartIndex := (objectCount + length pages + 1)%nat in
  [catalogObject 1; pagesObject 2 pages; fontObject 3]
  ++ map (fun pageIndex =>
            pageObject (objectCount + 1 + pageIndex)
              (contentStartIndex + pageIndex))
       (seq 0 (length pages))
  ++ imap (fun pageIndex pageLines =>
             contentObject (objectCount + length pages + 1 + pageIndex)
               pageLines)
       pages.

(** [for (const obj of objects) { offsets.push(pdf.length); pdf += obj +
    '\n' }]; the state is [pdf] and [offsets]. *)
Definition appendObject (st : jsstring * list nat) (obj : jsstring)
  : jsstring * list nat :=
  let '(pdf, offsets) := st in
  (pdf ++ obj ++ [10], offsets ++ [length pdf]).

Definition xrefEntry (offset : nat) : jsstring :=
  padStart 10 (natToString offset) ++ js " 00000 n " ++ [10].

(** The text of the file and the offsets written into its table. *)
Definition pdfOf (objects : list jsstring) : jsstring * list nat :=
  let objectCount := length objects in
  let '(pdf, offsets) :=
    fold_left appendObject objects (js "%PDF-1.4" ++ [10], []) in
  let xrefOffset := length pdf in
  let pdf := pdf ++ js "xref" ++ [10] in
  let pdf := pdf ++ js "0 " ++ natToString (objectCount + 1) ++ [10] in
  let pdf := pdf ++ js "0000000000 65535 f " ++ [10] in
  let pdf := fold_left (fun pdf offset => pdf ++ xrefEntry offset) offsets pdf in
  let pdf := pdf ++ js "trailer" ++ [10] in
  let pdf :=
    pdf ++ js "<< /Size " ++ natToString (objectCount + 1)
    ++ js " /Root 1 0 R >>" ++ [10] in
  let pdf := pdf ++ js "startxref" ++ [10] in
  let pdf := pdf ++ natToString xrefOffset ++ [10] in
  (pdf ++ js "%%EOF", offsets).

Definition pdfPages (markdownContent : jsstring) : list (list jsstring) :=
  pagesOf (wrappedLinesOf (plainTextOf markdownContent)).

Definition generateFallbackPdf (markdownContent : jsstring) : Buffer :=
  bufferFromUtf8 (fst (pdfOf (objectsOf (pdfPages markdownContent)))).

(** The offsets written into the table of the file, one for each object. *)
Definition pdfOffsets (markdownContent : jsstring) : list nat :=
  snd (pdfOf (objectsOf (pdfPages markdownContent))).

(** Where the text of the [k]th object (counted from 0) begins in the bytes
    of the file: behind the header and the objects before it. *)
Definition objectStart (objects : list jsstring) (k : nat) : nat :=
  length (bufferFromUtf8
            (fold_left (fun pdf obj => pdf ++ obj ++ [10]) (firstn k objects)
               (js "%PDF-1.4" ++ [10]))).

(** A list item on the first of two pages: 47 lines. *)
Definition twoPages : jsstring :=
  js "- a" ++ concat (repeat ([10] ++ js "b") 46).

(** ** The fallback DOCX *)

(** [escapeXml] *)
Definition escapeXml (text : jsstring) : jsstring :=
  let s := replaceAll (withString (literalRegex (js "&")) (js "&amp;")) text in
  let s := replaceAll (withString (literalRegex (js "<")) (js "&lt;")) s in
  let s := replaceAll (withString (literalRegex (js ">")) (js "&gt;")) s in
  let s := replaceAll (withString (literalRegex [34]) (js "&quot;")) s in
  replaceAll (withString (literalRegex (js "'")) (js "&apos;")) s.

(** [line.match(/^# (.+)$/)] and its like for two and three marks: the
    text after the marks, when it is not empty and holds no line
    terminator. *)
Definition headingMatch (marks : jsstring) (line : jsstring) : option jsstring :=
  lit marks (plus dotChar (fun cap rest =>
    match rest with
    | [] => Some cap
    | _ => None
    end)) line.

Definition headingParagraph (style text : jsstring) : jsstring :=
  js "<w:p><w:pPr><w:pStyle w:val=" ++ [34] ++ style ++ [34]
  ++ js "/></w:pPr><w:r><w:t>" ++ escapeXml text ++ js "</w:t></w:r></w:p>".

(** The body of the loop over the lines: the paragraph of one line. *)
Definition paragraphOf (line : jsstring) : jsstring :=
  match trim line with
  | [] => js "<w:p><w:r><w:t></w:t></w:r></w:p>"
  | _ =>
      match headingMatch (js "# ") line with
      | Some h1 => headingParagraph (js "Heading1") h1
      | None =>
          match headingMatch (js "## ") line with
          | Some h2 => headingParagraph (js "Heading2") h2
          | None =>
              match headingMatch (js "### ") line with
              | Some h3 => headingParagraph (js "Heading3") h3
              | None =>
                  let text :=
                    if startsWith (js "- ") line
                    then [bullet; 32] ++ skipn 2 line
                    else line in
                  js "<w:p><w:r><w:t>" ++ escapeXml text
                  ++ js "</w:t></w:r></w:p>"
              end
          end
      end
  end.

Definition documentXmlOf (markdownContent : jsstring) : jsstring :=
  fold_left (fun documentXml line => documentXml ++ paragraphOf line)
    (split 10 markdownContent) [].

Definition xmlDeclaration : jsstring :=
  js "<?xml version=" ++ [34] ++ js "1.0" ++ [34] ++ js " encoding=" ++ [34]
  ++ js "UTF-8" ++ [34] ++ js " standalone=" ++ [34] ++ js "yes" ++ [34]
  ++ js "?>" ++ [10].

(** A text of the source with its double quotes written as ['']. *)
Definition quoted (s : String.string) : jsstring :=
  flat_map (fun c => if c =? 39 then [34] else [c]) (js s).

Definition documentContentOf (documentXml : jsstring) : jsstring :=
  xmlDeclaration
  ++ quoted "<w:document xmlns:w='http://schemas.openxmlformats.org/wordprocessingml/2006/main'>"
  ++ [10] ++ js "<w:body>" ++ [10] ++ documentXml ++ [10]
  ++ js "<w:sectPr>" ++ [10]
  ++ quoted "<w:pgSz w:w='12240' w:h='15840'/>" ++ [10]
  ++ quoted "<w:pgMar w:top='1440' w:right='1440' w:bottom='1440' w:left='1440'/>"
  ++ [10] ++ js "</w:sectPr>" ++ [10] ++ js "</w:body>" ++ [10]
  ++ js "</w:document>".

Definition contentTypesXml : jsstring :=
  xmlDeclaration
  ++ quoted "<Types xmlns='http://schemas.openxmlformats.org/package/2006/content-types'>"
  ++ [10]
  ++ quoted "<Default Extension='rels' ContentType='application/vnd.openxmlformats-package.relationships+xml'/>"
  ++ [10]
  ++ quoted "<Default Extension='xml' ContentType='application/xml'/>" ++ [10]
  ++ quoted "<Override PartName='/word/document.xml' ContentType='application/vnd.openxmlformats-officedocument.wordprocessingml.document.main+xml'/>"
  ++ [10] ++ js "</Types>".

Definition relsXml : jsstring :=
  xmlDeclaration
  ++ quoted "<Relationships xmlns='http://schemas.openxmlformats.org/package/2006/relationships'>"
  ++ [10]
  ++ quoted "<Relationship Id='rId1' Type='http://schemas.openxmlformats.org/officeDocument/2006/relationships/officeDocument' Target='word/document.xml'/>"
  ++ [10] ++ js "</Relationships>".

Definition documentRelsXml : jsstring :=
  xmlDeclaration
  ++ quoted "<Relationships xmlns='http://schemas.openxmlformats.org/package/2006/relationships'>"
  ++ [10] ++ js "</Relationships>".

(** [generateFallbackDocx]; [None] when a write of the archive throws.  The
    strings that the function builds are taken to fit the engine, whose
    strings have at most [2^29 - 24] code units: so they do for a content of
    less than [2^22] characters, which is shown below together with the
    archive that is returned. *)
Definition generateFallbackDocx (markdownContent : jsstring) : option Buffer :=
  createMinimalDocxZip contentTypesXml relsXml documentRelsXml
    (documentContentOf (documentXmlOf markdownContent)).

(** ** Predicates of the proofs *)

(** The keys the model covers: literal text in a regex. *)
Definition literalKeys (values : Values) : Prop :=
  Forall (fun kv => literalKey kv.1 = true) values.


(** A continuation that only accepts a text with a closing [}}] in it. *)
Definition closes {R : Type} (k : jsstring -> option R) : Prop :=
  forall s r, k s = Some r -> includes (js "}}") s = true.

(** A regex that nowhere matches in a text. *)
Definition nowhere {X} (re : jsstring -> option X) (s : jsstring) : Prop :=
  forall a b, s = a ++ b -> re b = None.

(** A regex all of whose matches open with [{{] and a character other than
    a third brace. *)
Definition opensTag {X} (re : jsstring -> option X) : Prop :=
  forall t r,
    re t = Some r -> exists c u, t = 123 :: 123 :: c :: u /\ c <> 123.

(** The polynomial, or nothing: what one shift of the register adds. *)
Definition polynomialIf (b : bool) : Z := (if b then 0xEDB88320 else 0)%Z.

(** A text of ASCII characters. *)
Definition isAscii (s : jsstring) : bool := forallb (fun c => c <? 128) s.

(** A text with a character that is no space. *)
Definition hasInk (s : jsstring) : bool := existsb (fun c => negb (isSpace c)) s.

(** A text that is empty or begins with a character that is no space. *)
Definition trimmedStart (s : jsstring) : Prop :=
  s = [] \/ exists c t, s = c :: t /\ isSpace c = false.

(** The words of a long line leave a line behind, once one of them has a
    character that is no space. *)
Definition wrapInvariant (st : list jsstring * jsstring) : Prop :=
  fst st <> [] \/ hasInk (snd st) = true.

(** What [escapeXml] writes for one character, and what the escaping of a
    line of a content stream writes. *)
Definition escapeXmlChar (c : jschar) : jsstring :=
  if c =? 38 then js "&amp;"
  else if c =? 60 then js "&lt;"
  else if c =? 62 then js "&gt;"
  else if c =? 34 then js "&quot;"
  else if c =? 39 then js "&apos;"
  else [c].

Definition escapePdfChar (c : jschar) : jsstring :=
  if (c =? 92) || (c =? 40) || (c =? 41) then [92; c] else [c].

(** A replacement string without a dollar sign stands for itself. *)
Definition noDollar (r : jsstring) : bool := forallb (fun c => negb (c =? 36)) r.

(** The five characters [escapeXml] rewrites, and the three the escaping of
    a content stream rewrites. *)
Definition isXmlSpecial (c : jschar) : bool :=
  (c =? 38) || (c =? 60) || (c =? 62) || (c =? 34) || (c =? 39).

Definition isPdfSpecial (c : jschar) : bool :=
  (c =? 92) || (c =? 40) || (c =? 41).

(** Character data of an XML document that holds no markup: no angle
    bracket and no quote, and [&] only as the first character of one of the five
    entities that [escapeXml] writes. *)
Fixpoint isCharData (s : jsstring) : bool :=
  match s with
  | [] => true
  | c :: t =>
      (if c =? 38 then
         startsWith (js "amp;") t || startsWith (js "lt;") t
         || startsWith (js "gt;") t || startsWith (js "quot;") t
         || startsWith (js "apos;") t
       else negb (isXmlSpecial c))
      && isCharData t
  end.

(** The body of a literal string of a content stream: a backslash is
    followed by a backslash or a parenthesis, and no parenthesis stands
    without a backslash before it. *)
Fixpoint isPdfLiteral (s : jsstring) : bool :=
  match s with
  | [] => true
  | c :: t =>
      if c =? 92 then
        match t with
        | d :: u => isPdfSpecial d && isPdfLiteral u
        | [] => false
        end
      else negb (isPdfSpecial c) && isPdfLiteral t
  end.

(** A line that fits the width of the page, or is one word. *)
Definition fitsOrOneWord (line : jsstring) : bool :=
  (length line <=? maxLineLength)%nat || negb (existsb (N.eqb 32) line).

(** The text of the file from the table on: the table, the trailer and the
    position of the table. *)
Definition pdfTail (objectCount : nat) (offsets : list nat) (xrefOffset : nat)
  : jsstring :=
  js "xref" ++ [10] ++ js "0 " ++ natToString (objectCount + 1) ++ [10]
  ++ js "0000000000 65535 f " ++ [10]
  ++ concat (map xrefEntry offsets)
  ++ js "trailer" ++ [10]
  ++ js "<< /Size " ++ natToString (objectCount + 1) ++ js " /Root 1 0 R >>"
  ++ [10] ++ js "startxref" ++ [10] ++ natToString xrefOffset ++ [10]
  ++ js "%%EOF".

(** The paragraph of a line that is no heading. *)
Definition textParagraph (text : jsstring) : jsstring :=
  js "<w:p><w:r><w:t>" ++ escapeXml text ++ js "</w:t></w:r></w:p>".

(** A reference to a variable, with the spaces the regexes allow around the
    name: [{{ name }}]. *)
Definition reference (ws1 name ws2 : jsstring) : jsstring :=
  js "{{" ++ ws1 ++ name ++ ws2 ++ js "}}".

(** Values whose keys are made of word characters. *)
Definition nameKeys (values : Values) : Prop :=
  Forall (fun kv => forallb isWord kv.1 = true) values.

(** The last five replacements of [processTemplate], which strip the tags
    that are left. *)
Definition stripTags (processed : jsstring) : jsstring :=
  let processed :=
    replaceAll (withString (openTagRegex (js "{{#if")) []) processed in
  let processed :=
    replaceAll (withString (literalRegex (js "{{else}}")) []) processed in
  let processed :=
    replaceAll (withString (literalRegex (js "{{/if}}")) []) processed in
  let processed :=
    replaceAll (withString (openTagRegex (js "{{#unless")) []) processed in
  replaceAll (withString (literalRegex (js "{{/unless}}")) []) processed.

(** What follows a run of characters of a class: nothing, or a character
    that is not of the class. *)
Definition endsRun (p : jschar -> bool) (s : jsstring) : bool :=
  match s with
  | [] => true
  | c :: _ => negb (p c)
  end.

(** [{{#unless name}}a{{/unless}}] *)
Definition unlessBlock (name a : jsstring) : jsstring :=
  js "{{#unless " ++ name ++ js "}}" ++ a ++ js "{{/unless}}".

(** The first of two messages that is there. *)
Definition orElse (e1 e2 : option jsstring) : option jsstring :=
  match e1 with
  | Some e => Some e
  | None => e2
  end.

(** The message that [validateVariables] leaves for a variable that it has
    read without a throw, written as a choice: of the checks that fail, the
    last one of the code wins. *)
Definition messageOf (regexTest : jsstring -> jsstring -> option bool)
    (variable : TemplateVariable) (v : property) : option jsstring :=
  if isMissing v then
    if required variable then Some (label variable ++ js " is required")
    else None
  else
    match validation variable, v with
    | Some c, Own (VNumber n) =>
        orElse
          match Validation.max c with
          | Some m =>
              if (m <? n)%Z
              then Some (label variable ++ js " must be at most "
                         ++ numberToString m)
              else None
          | None => None
          end
          match Validation.min c with
          | Some m =>
              if (n <? m)%Z
              then Some (label variable ++ js " must be at least "
                         ++ numberToString m)
              else None
          | None => None
          end
    | Some c, Own (VString s) =>
        orElse
          match Validation.maxLength c with
          | Some m =>
              if (m <? Z.of_nat (length s))%Z
              then Some (label variable ++ js " must be at most "
                         ++ numberToString m ++ js " characters")
              else None
          | None => None
          end
          (orElse
             match Validation.minLength c with
             | Some m =>
                 if (Z.of_nat (length s) <? m)%Z
                 then Some (label variable ++ js " must be at least "
                            ++ numberToString m ++ js " characters")
                 else None
             | None => None
             end
             match Validation.pattern c with
             | Some (p :: ps) =>
                 match regexTest (p :: ps) s with
                 | Some false => Some (label variable ++ js " format is invalid")
                 | _ => None
                 end
             | _ => None
             end)
    | _, _ => None
    end.

(** The one throw of the loop: the pattern of a variable is no regex, and
    the variable has a string that is not empty, against which the pattern
    would be tested. *)
Definition patternThrows (regexTest : jsstring -> jsstring -> option bool)
    (variable : TemplateVariable) (v : property) : bool :=
  match validation variable, v with
  | Some c, Own (VString (ch :: s)) =>
      match Validation.pattern c with
      | Some (p :: ps) =>
          match regexTest (p :: ps) (ch :: s) with
          | None => true
          | Some _ => false
          end
      | _ => false
      end
  | _, _ => false
  end.

(** What the body of the loop does to the errors when it does not throw. *)
Definition recordError (regexTest : jsstring -> jsstring -> option bool)
    (values : Values) (errors : gmap jsstring jsstring)
    (variable : TemplateVariable) : gmap jsstring jsstring :=
  match messageOf regexTest variable (readProperty values (name variable)) with
  | Some message => setError (name variable) message errors
  | None => errors
  end.

(** Constraints that are safe integers, which the messages write with all
    their digits. *)
Definition safeBound (bound : option Z) : bool :=
  match bound with
  | Some z => safeInteger z
  | None => true
  end.

Definition safeConstraints (variable : TemplateVariable) : bool :=
  match validation variable with
  | Some c =>
      safeBound (Validation.min c) && safeBound (Validation.max c)
      && safeBound (Validation.minLength c)
      && safeBound (Validation.maxLength c)
  | None => true
  end.

(** Modelled from the spec: a section of a template, of [@/lib/types], which
    is not among the sources.  The specification gives each section an
    ordered list of variables and an optional visibility predicate
    [showIf: {variableId, value}]; [variables] is the field that the preview
    reads, and the form wizard reads both. *)
Record TemplateSection := {
  variables : list TemplateVariable;
  showIf : option (jsstring * value)
}.

(** [variableStats] of the document preview.  [requiredCount] is its field
    [required], a name that [TemplateVariable] has taken. *)
Record VariableStats := {
  total : nat;
  requiredCount : nat;
  filledRequired : nat;
  filledOptional : nat;
  isComplete : bool
}.

(** [value !== undefined && value !== ''] *)
Definition isFilled (values : Values) (v : TemplateVariable) : bool :=
  negb (isMissing (readProperty values (name v))).

Definition variableStats (sections : list TemplateSection) (values : Values)
  : VariableStats :=
  let allVariables := flat_map variables sections in
  let requiredVariables := List.filter (fun v => required v) allVariables in
  let filledRequired := List.filter (isFilled values) requiredVariables in
  let filledOptional :=
    List.filter (fun v => if required v then false else isFilled values v)
      allVariables in
  {| total := length allVariables;
     requiredCount := length requiredVariables;
     filledRequired := length filledRequired;
     filledOptional := length filledOptional;
     isComplete :=
       (length filledRequired =? length requiredVariables)%nat |}.

(** ** Markdown to HTML *)

(** [/^MARKS (.*$)/gim] replaced by ['<TAG>$1</TAG>']: the marks at the
    start of a line, and the rest of the line between the tags.  The flag
    [i] changes nothing for a pattern without letters. *)
Definition lineMatcher (marks open close : jsstring) (pre s : jsstring)
  : option (jsstring * jsstring) :=
  if atLineStart pre then
    lit marks (star dotChar (fun cap rest =>
      if atLineEnd rest then Some (open ++ cap ++ close, rest) else None)) s
  else None.

(** [/MARK(.*?)MARK/g] replaced by ['<TAG>$1</TAG>']. *)
Definition spanMatcher (mark open close : jsstring) (pre s : jsstring)
  : option (jsstring * jsstring) :=
  lit mark (lazyStar dotChar (fun cap =>
    lit mark (fun rest => Some (open ++ cap ++ close, rest)))) s.

(** [String.prototype.replace] with a regex without the flag [g]: the first
    match only. *)
Fixpoint replaceFirst (m : jsstring -> jsstring -> option (jsstring * jsstring))
    (pre s : jsstring) : jsstring :=
  match m pre s with
  | Some (repl, rest) => repl ++ rest
  | None =>
      match s with
      | [] => []
      | c :: s' => c :: replaceFirst m (c :: pre) s'
      end
  end.

(** [markdownToHtml] of the library, which the preview shows. *)
Module CaseApi.
Definition markdownToHtml (markdown : jsstring) : jsstring :=
  let html :=
    replaceAll (lineMatcher (js "### ") (js "<h3>") (js "</h3>")) markdown in
  let html :=
    replaceAll (lineMatcher (js "## ") (js "<h2>") (js "</h2>")) html in
  let html :=
    replaceAll (lineMatcher (js "# ") (js "<h1>") (js "</h1>")) html in
  let html :=
    replaceAll (spanMatcher (js "**") (js "<strong>") (js "</strong>")) html in
  let html := replaceAll (spanMatcher (js "*") (js "<em>") (js "</em>")) html in
  let html :=
    replaceAll (withString (literalRegex [10; 10]) (js "</p><p>")) html in
  let html := replaceAll (withString (literalRegex [10]) (js "<br/>")) html in
  quoted "<div class='document-content'><p>" ++ html ++ js "</p></div>".
End CaseApi.

(** The page around the converted text: the template literal of the route,
    before [${html}] and after it. *)
Definition pageHead : jsstring :=
  [10] ++ js "    <!DOCTYPE html>" ++ [10] ++ js "    <html>" ++ [10] ++
  js "    <head>" ++ [10] ++ js "      <style>" ++ [10] ++
  js "        body {" ++ [10] ++
  js "          font-family: 'Times New Roman', Times, serif;" ++ [10] ++
  js "          font-size: 12pt;" ++ [10] ++
  js "          line-height: 1.6;" ++ [10] ++
  js "          max-width: 8.5in;" ++ [10] ++
  js "          margin: 0 auto;" ++ [10] ++ js "          padding: 1in;" ++
  [10] ++ js "          background: white;" ++ [10] ++
  js "          color: black;" ++ [10] ++ js "        }" ++ [10] ++
  js "        h1 { font-size: 18pt; font-weight: bold; text-align: center; margin-bottom: 24pt; }" ++
  [10] ++
  js "        h2 { font-size: 14pt; font-weight: bold; margin-top: 18pt; margin-bottom: 12pt; }" ++
  [10] ++
  js "        h3 { font-size: 12pt; font-weight: bold; margin-top: 12pt; margin-bottom: 6pt; }" ++
  [10] ++ js "        p { margin-bottom: 12pt; text-align: justify; }" ++
  [10] ++ js "        ul { margin-left: 24pt; margin-bottom: 12pt; }" ++
  [10] ++ js "        li { margin-bottom: 6pt; }" ++ [10] ++
  js "        hr { border: none; border-top: 1px solid #ccc; margin: 24pt 0; }" ++
  [10] ++ js "      </style>" ++ [10] ++ js "    </head>" ++ [10] ++
  js "    <body>" ++ [10] ++ js "      <p>".

Definition pageFoot : jsstring :=
  js "</p>" ++ [10] ++ js "    </body>" ++ [10] ++ js "    </html>" ++
  [10] ++ js "  ".

(** [markdownToHtml] of the format route, the fallback of the HTML
    export. *)
Module FormatRoute.
(** [/(<li>[\s\S]*<\/li>)/] replaced by ['<ul>$1</ul>']. *)
Definition listMatcher (pre s : jsstring) : option (jsstring * jsstring) :=
  lit (js "<li>") (star anyChar (fun cap =>
    lit (js "</li>") (fun rest =>
      Some (js "<ul>" ++ js "<li>" ++ cap ++ js "</li>" ++ js "</ul>", rest)))) s.

Definition markdownToHtml (markdown : jsstring) : jsstring :=
  let html := markdown in
  let html :=
    replaceAll (lineMatcher (js "### ") (js "<h3>") (js "</h3>")) html in
  let html :=
    replaceAll (lineMatcher (js "## ") (js "<h2>") (js "</h2>")) html in
  let html :=
    replaceAll (lineMatcher (js "# ") (js "<h1>") (js "</h1>")) html in
  let html :=
    replaceAll (spanMatcher (js "**") (js "<strong>") (js "</strong>")) html in
  let html := replaceAll (spanMatcher (js "*") (js "<em>") (js "</em>")) html in
  let html :=
    replaceAll (lineMatcher (js "- ") (js "<li>") (js "</li>")) html in
  let html := replaceFirst listMatcher [] html in
  let html := replaceAll (withStringAt ruleRegex (js "<hr>")) html in
  let html :=
    replaceAll (withString (literalRegex [10; 10]) (js "</p><p>")) html in
  let html := replaceAll (withString (literalRegex [10]) (js "<br>")) html in
  pageHead ++ html ++ pageFoot.
End FormatRoute.

(** A text in which a character does not occur. *)
Definition lacks (c : jschar) (s : jsstring) : bool :=
  forallb (fun d => negb (d =? c)) s.

(** ** The limits of the demo, read from the environment *)

(** A decimal digit. *)
Definition isDigit (c : jschar) : bool := (48 <=? c) && (c <=? 57).

(** The digits at the head of a text, and their value. *)
Fixpoint digitsPrefix (s : jsstring) : jsstring :=
  match s with
  | c :: s' => if isDigit c then c :: digitsPrefix s' else []
  | [] => []
  end.

Definition digitsValue (digits : jsstring) : Z :=
  fold_left (fun acc c => (10 * acc + Z.of_N (c - 48))%Z) digits 0%Z.

(** [parseInt(value, 10)]: white space is skipped, a sign is read, and the
    digits that follow are the number; what comes after them is ignored.
    [None] is [NaN]: no digit where the number should begin.  Numbers are the
    integers, which a JavaScript number holds exactly below [2^53]. *)
Definition parseInt10 (value : jsstring) : option Z :=
  let s := trimStart value in
  let '(sign, s) :=
    match s with
    | c :: s' =>
        if c =? 45 then ((-1)%Z, s')
        else if c =? 43 then (1%Z, s')
        else (1%Z, s)
    | [] => (1%Z, [])
    end in
  match digitsPrefix s with
  | [] => None
  | digits => Some (sign * digitsValue digits)%Z
  end.

(** [process.env]: the variables that are set, with their values. *)
Definition Env := gmap jsstring jsstring.

Definition parseEnvInt (env : Env) (key : jsstring) (defaultValue : Z) : Z :=
  match env !! key with
  | None => defaultValue
  | Some [] => defaultValue
  | Some value =>
      match parseInt10 value with
      | None => defaultValue
      | Some parsed => parsed
      end
  end.

Record DemoLimits := {
  sessionHours : Z;
  maxDocumentsPerSession : Z
}.

Definition DEMO_LIMITS (env : Env) : DemoLimits :=
  {| sessionHours := parseEnvInt env (js "DEMO_SESSION_HOURS") 24;
     maxDocumentsPerSession :=
       parseEnvInt env (js "DEMO_MAX_DOCUMENTS_PER_SESSION") 5 |}.

(** ** The preview and the format route *)

(** [htmlContent] of the document preview, which is also the HTML of
    [generateDocument]: the processed template, converted. *)
Definition htmlContent (templateContent : jsstring) (values : Values)
  : outcome :=
  match processTemplate templateContent values with
  | Returned processedContent =>
      Returned (CaseApi.markdownToHtml processedContent)
  | thrown => thrown
  end.

Module FormatApi.

(** What [request.json()] gives: a JSON value.  The numbers of the model
    are the integers; an object is the list of its members, in the order of
    the text. *)
#[local] Unset Elimination Schemes.
Inductive Json :=
  | JNull
  | JBool (b : bool)
  | JNumber (z : Z)
  | JString (s : jsstring)
  | JArray (items : list Json)
  | JObject (members : list (jsstring * Json)).
#[local] Set Elimination Schemes.

(** A property of an object that is read from JSON: of the members of a
    name that is given twice, the last one is kept. *)
Fixpoint lookup (key : jsstring) (members : list (jsstring * Json))
  : option Json :=
  match members with
  | [] => None
  | (k, v) :: members' =>
      match lookup key members' with
      | Some later => Some later
      | None => if bool_decide (k = key) then Some v else None
      end
  end.

(** [body.content] and [body.format]: a [TypeError] on [null], which is
    [None]; a property of an object; and [undefined] on every other value,
    none of which has or inherits a property of these names. *)
Definition member (key : jsstring) (body : Json) : option (option Json) :=
  match body with
  | JNull => None
  | JObject members => Some (lookup key members)
  | _ => Some None
  end.

(** [!value] is false. *)
Definition truthy (v : option Json) : bool :=
  match v with
  | None => false
  | Some JNull => false
  | Some (JBool b) => b
  | Some (JNumber z) => negb (z =? 0)%Z
  | Some (JString s) => match s with [] => false | _ => true end
  | Some (JArray _) => true
  | Some (JObject _) => true
  end.

(** The response of the Case.dev API as the handler reads it: [ok], and the
    body as [blob()] and as [text()], where [None] is a read that throws. *)
Record ApiResponse := {
  ok : bool;
  blob : option Buffer;
  text : option jsstring
}.

(** [fetch] of the format API, with the key, the body of the request and
    the [output_format] sent; [None] is a call that throws. *)
Definition Fetch := jsstring -> Json -> jsstring -> option ApiResponse.

(** What the handler answers: [{ error }] as JSON, where [None] is the
    message of an error that was thrown, or bytes, or a text; with the status
    and the headers that the handler names. *)
Inductive ResponseBody :=
  | JsonError (error : option jsstring)
  | Binary (data : Buffer)
  | Html (html : jsstring).

Record Response := {
  status : nat;
  headers : list (jsstring * jsstring);
  body : ResponseBody
}.

Definition jsonResponse (error : option jsstring) (status : nat) : Response :=
  {| status := status; headers := []; body := JsonError error |}.

Definition htmlResponse (html : jsstring) : Response :=
  {| status := 200;
     headers := [(js "Content-Type", js "text/html")];
     body := Html html |}.

Definition fileResponse (contentType extension : jsstring) (data : Buffer)
  : Response :=
  {| status := 200;
     headers :=
       [(js "Content-Type", contentType);
        (js "Content-Disposition",
         js "attachment; filename=" ++ [34] ++ js "document." ++ extension
         ++ [34])];
     body := Binary data |}.

Definition pdfType : jsstring := js "application/pdf".
Definition docxType : jsstring :=
  js "application/vnd.openxmlformats-officedocument.wordprocessingml.document".

(** [['pdf', 'docx', 'html'].includes(format)], for a format that is a
    string; no other value is in the list. *)
Definition isOutputFormat (format : jsstring) : bool :=
  existsb (fun f => bool_decide (f = format)) [js "pdf"; js "docx"; js "html"].

(** The first try: the answer of the API, when there is a key and the call
    succeeds.  [None] is the way to the fallback: no key, a call or a read
    that throws, or a response that is not [ok]. *)
Definition fromApi (env : Env) (fetch : Fetch) (request : Json)
    (format : jsstring) : option Response :=
  match env !! js "CASE_API_KEY" with
  | Some (c :: key) =>
      match
        fetch (c :: key) request
          (if bool_decide (format = js "html") then js "html_preview"
           else format)
      with
      | Some response =>
          if ok response then
            if bool_decide (format = js "pdf")
               || bool_decide (format = js "docx")
            then
              match blob response with
              | Some arrayBuffer =>
                  let contentType :=
                    if bool_decide (format = js "pdf") then pdfType
                    else docxType in
                  Some (fileResponse contentType format arrayBuffer)
              | None => None
              end
            else
              match text response with
              | Some html => Some (htmlResponse html)
              | None => None
              end
          else None
      | None => None
      end
  | _ => None
  end.

(** The fallback generation for a content that is a string.  An encoder
    that throws is caught by the handler, which answers 500: [from_option]
    gives the response for the buffer that is returned, and this answer when
    there is none.  The strings that the three generators build are taken to
    fit the engine, which holds for a content of less than [2^22]
    characters. *)
Definition fallback (content format : jsstring) : Response :=
  if bool_decide (format = js "html") then
    htmlResponse (FormatRoute.markdownToHtml content)
  else if bool_decide (format = js "pdf") then
    fileResponse pdfType (js "pdf") (generateFallbackPdf content)
  else if bool_decide (format = js "docx") then
    from_option (fileResponse docxType (js "docx")) (jsonResponse None 500)
      (generateFallbackDocx content)
  else jsonResponse (Some (js "Unsupported format")) 400.

(** [POST]; the request is its body, where [None] is a body that
    [request.json()] cannot read.  A content that is no string has no
    [replace] and no [split]: the [TypeError] of the fallback is caught by
    the handler, which answers 500. *)
Definition POST (env : Env) (fetch : Fetch) (request : option Json)
  : Response :=
  match request with
  | None => jsonResponse None 500
  | Some body =>
      match member (js "content") body, member (js "format") body with
      | Some content, Some format =>
          if negb (truthy content) then
            jsonResponse (Some (js "Content is required")) 400
          else
            match format with
            | Some (JString format) =>
                if isOutputFormat format then
                  match fromApi env fetch body format with
                  | Some response => response
                  | None =>
                      match content with
                      | Some (JString markdown) => fallback markdown format
                      | _ => jsonResponse None 500
                      end
                  end
                else
                  jsonResponse
                    (Some (js "Valid format (pdf, docx, html) is required"))
                    400
            | _ =>
                jsonResponse
                  (Some (js "Valid format (pdf, docx, html) is required")) 400
            end
      | _, _ => jsonResponse None 500
      end
  end.

End FormatApi.

(** ** The form wizard *)

Module FormWizard.

(** [a === b] for two values of a form. *)
Definition strictEquals (a b : value) : bool :=
  match a, b with
  | VString s, VString t => bool_decide (s = t)
  | VNumber m, VNumber n => (m =? n)%Z
  | VBool p, VBool q => Bool.eqb p q
  | _, _ => false
  end.

(** The sections that are shown: those without a condition, and those whose
    condition the values meet.  What a plain object inherits is no value of
    a condition. *)
Definition visibleSections (sections : list TemplateSection) (values : Values)
  : list TemplateSection :=
  List.filter
    (fun section =>
       match showIf section with
       | None => true
       | Some (variableId, value) =>
           match readProperty values variableId with
           | Own v => strictEquals v value
           | _ => false
           end
       end)
    sections.

Definition allVisibleVariables (sections : list TemplateSection)
    (values : Values) : list TemplateVariable :=
  flat_map variables (visibleSections sections values).

(** What a handler does to the state of the wizard and to its parent, in the
    order of the calls: [setErrors], [setCurrentSectionIndex] with the
    function that adds one, and [onComplete]; [Thrown] is the end of a
    handler that [validateVariables] leaves with a [SyntaxError]. *)
Inductive Effect :=
  | SetErrors (errors : gmap jsstring jsstring)
  | NextSection
  | OnComplete (values : Values)
  | Thrown.

Section Handlers.
Variable regexTest : jsstring -> jsstring -> option bool.
Variable sections : list TemplateSection.
Variable currentSectionIndex : nat.
Variable values : Values.

(** [validateCurrentSection]: what it returns, and what it does; [None]
    when it throws, before anything is set. *)
Definition validateCurrentSection : option (bool * list Effect) :=
  match visibleSections sections values !! currentSectionIndex with
  | None => Some (true, [])
  | Some currentSection =>
      match validateVariables regexTest (variables currentSection) values with
      | Some result => Some (isValid result, [SetErrors (errors result)])
      | None => None
      end
  end.

(** [currentSectionIndex === visibleSections.length - 1] *)
Definition isLastSection : bool :=
  (Z.of_nat currentSectionIndex
   =? Z.of_nat (length (visibleSections sections values)) - 1)%Z.

Definition handleNext : list Effect :=
  match validateCurrentSection with
  | None => [Thrown]
  | Some (valid, effects) =>
      if valid then
        if isLastSection then
          match
            validateVariables regexTest (allVisibleVariables sections values)
              values
          with
          | Some result =>
              if isValid result then effects ++ [OnComplete values]
              else effects ++ [SetErrors (errors result)]
          | None => effects ++ [Thrown]
          end
        else effects ++ [NextSection]
      else effects
  end.

End Handlers.

End FormWizard.

(** * Properties *)

(** ** Matchers: what a successful match looks like *)

Section MatcherFacts.
Context {R : Type}.
Implicit Types (k : jsstring -> option R) (s l : jsstring).

Lemma lit_app l k s : lit l k (l ++ s) = k s.
Proof.
  induction l as [|c l IH]; simpl; [reflexivity|].
  rewrite N.eqb_refl. exact IH.
Qed.

Lemma lit_inv l k s r :
  lit l k s = Some r -> exists s', s = l ++ s' /\ k s' = Some r.
Proof.
  revert s. induction l as [|c l IH]; simpl; intros s H.
  - exists s. split; [reflexivity | exact H].
  - destruct s as [|d s]; [discriminate|].
    destruct (N.eqb_spec c d) as [->|]; [|discriminate].
    destruct (IH _ H) as (s' & -> & Hk). exists s'. split; [reflexivity | exact Hk].
Qed.

Lemma star_inv p (k : jsstring -> jsstring -> option R) s r :
  star p k s = Some r ->
  exists cap s', s = cap ++ s' /\ forallb p cap = true /\ k cap s' = Some r.
Proof.
  revert k. induction s as [|c s IH]; simpl; intros k H.
  - exists [], []. repeat split; assumption.
  - destruct (p c) eqn:Hp.
    + destruct (star p (fun cap => k (c :: cap)) s) as [r'|] eqn:Hs.
      * injection H as ->. destruct (IH _ Hs) as (cap & s' & -> & Hcap & Hk).
        exists (c :: cap), s'. simpl. rewrite Hp, Hcap. repeat split; assumption.
      * exists [], (c :: s). repeat split; assumption.
    + exists [], (c :: s). repeat split; assumption.
Qed.

Lemma plus_inv p (k : jsstring -> jsstring -> option R) s r :
  plus p k s = Some r ->
  exists cap s',
    s = cap ++ s' /\ cap <> [] /\ forallb p cap = true /\ k cap s' = Some r.
Proof.
  unfold plus. destruct s as [|c s]; [discriminate|].
  destruct (p c) eqn:Hp; [|discriminate]. intros H.
  destruct (star_inv _ _ _ _ H) as (cap & s' & -> & Hcap & Hk).
  exists (c :: cap), s'. simpl. rewrite Hp, Hcap. repeat split; [discriminate | assumption].
Qed.

Lemma lazyStar_inv p (k : jsstring -> jsstring -> option R) s r :
  lazyStar p k s = Some r ->
  exists cap s', s = cap ++ s' /\ k cap s' = Some r.
Proof.
  revert k. induction s as [|c s IH]; simpl; intros k H.
  - destruct (k [] []) eqn:Hk; [|discriminate]. injection H as ->.
    exists [], []. split; [reflexivity | assumption].
  - destruct (k [] (c :: s)) eqn:Hk.
    + injection H as ->. exists [], (c :: s). split; [reflexivity | assumption].
    + destruct (p c); [|discriminate].
      destruct (IH _ H) as (cap & s' & -> & Hk').
      exists (c :: cap), s'. split; [reflexivity | assumption].
Qed.
End MatcherFacts.

(** The shape of every match of the conditional regex. *)
Lemma conditionalRegex_inv s c rest :
  conditionalRegex s = Some (c, rest) ->
  exists ws,
    s = js "{{#if" ++ ws ++ varName c ++ js "}}" ++ ifContent c
        ++ match elseContent c with
           | Some e => js "{{else}}" ++ e
           | None => []
           end ++ js "{{/if}}" ++ rest
    /\ ws <> [] /\ forallb isSpace ws = true
    /\ varName c <> [] /\ forallb isWord (varName c) = true.
Proof.
  unfold conditionalRegex. intros H.
  apply lit_inv in H as (s1 & -> & H).
  apply plus_inv in H as (ws & s2 & -> & Hws & Hsp & H).
  apply plus_inv in H as (name & s3 & -> & Hname & Hword & H).
  apply lit_inv in H as (s4 & -> & H).
  apply lazyStar_inv in H as (ifc & s5 & -> & H).
  exists ws.
  destruct (lit (js "{{else}}") _ s5) as [r|] eqn:Helse.
  - injection H as ->.
    apply lit_inv in Helse as (s6 & -> & Helse).
    apply lazyStar_inv in Helse as (elc & s7 & -> & Helse).
    apply lit_inv in Helse as (s8 & -> & Helse).
    injection Helse as <- <-. simpl varName. simpl ifContent. simpl elseContent.
    repeat split; assumption.
  - apply lit_inv in H as (s6 & -> & H).
    injection H as <- <-. simpl varName. simpl ifContent. simpl elseContent.
    repeat split; assumption.
Qed.

(** ** Global replacement *)

Section ReplaceFacts.
Variable m : jsstring -> jsstring -> option (jsstring * jsstring).

(** Where the regex matches nowhere, the string is returned as it is. *)
Lemma replaceFrom_no_match s :
  (forall pre a b, s = a ++ b -> m pre b = None) ->
  forall pre, replaceFrom m pre 0 s = s.
Proof.
  induction s as [|c s IH]; intros Hm pre; simpl.
  - rewrite (Hm pre [] []); reflexivity.
  - rewrite (Hm pre [] (c :: s)) by reflexivity.
    f_equal. apply IH. intros pre' a b ->. apply (Hm pre' (c :: a)). reflexivity.
Qed.

Lemma replaceFrom_cons pre c s :
  replaceFrom m pre 0 (c :: s) =
  match m pre (c :: s) with
  | Some (repl, rest) =>
      match (length (c :: s) - length rest)%nat with
      | O => repl ++ c :: replaceFrom m (c :: pre) 0 s
      | S k => repl ++ replaceFrom m (c :: pre) k s
      end
  | None => c :: replaceFrom m (c :: pre) 0 s
  end.
Proof. reflexivity. Qed.

(** A regex whose replacement is always shorter than its match. *)
Hypothesis shorter :
  forall pre s repl rest,
    m pre s = Some (repl, rest) ->
    (length repl + length rest < length s)%nat.

Lemma replaceFrom_length s :
  forall pre skip,
    (skip <= length s)%nat ->
    (length (replaceFrom m pre skip s) + skip <= length s)%nat.
Proof.
  induction s as [|c s IH]; intros pre skip Hskip.
  - simpl in *. destruct skip; [|lia].
    destruct (m pre []) as [[repl rest]|] eqn:Hm; [|simpl; lia].
    apply shorter in Hm. simpl in Hm. lia.
  - destruct skip as [|k].
    + rewrite replaceFrom_cons.
      destruct (m pre (c :: s)) as [[repl rest]|] eqn:Hm.
      * apply shorter in Hm.
        destruct (length (c :: s) - length rest)%nat as [|k] eqn:Hk; [lia|].
        rewrite length_app. specialize (IH (c :: pre) k).
        cbn [length] in *. lia.
      * specialize (IH (c :: pre) 0%nat). cbn [length] in *. lia.
    + specialize (IH (c :: pre) k). cbn [length replaceFrom] in *. lia.
Qed.

Lemma replaceFrom_same_or_shorter s :
  forall pre,
    replaceFrom m pre 0 s = s
    \/ (length (replaceFrom m pre 0 s) < length s)%nat.
Proof.
  induction s as [|c s IH]; intros pre.
  - left. simpl. destruct (m pre []) as [[repl rest]|] eqn:Hm; [|reflexivity].
    apply shorter in Hm. simpl in Hm. lia.
  - rewrite replaceFrom_cons.
    destruct (m pre (c :: s)) as [[repl rest]|] eqn:Hm.
    + right. apply shorter in Hm.
      destruct (length (c :: s) - length rest)%nat as [|k] eqn:Hk; [lia|].
      rewrite length_app.
      pose proof (replaceFrom_length s (c :: pre) k).
      cbn [length] in *. lia.
    + destruct (IH (c :: pre)) as [->|Hlt];
        [left; reflexivity | right; cbn [length]; lia].
Qed.
End ReplaceFacts.

(** ** The conditional loop *)

Lemma substituteVars_literalKeys values :
  literalKeys values ->
  forall processed, exists r, substituteVars values processed = inl r.
Proof.
  induction 1 as [|[key v] values Hkey _ IH]; intros processed; simpl in *.
  - exists processed. reflexivity.
  - rewrite Hkey. apply IH.
Qed.

(** What replaces a conditional block is a piece of the block that leaves
    out its opening delimiter at least. *)
Lemma conditionalMatcher_substring values pre s repl rest :
  conditionalMatcher values pre s = Some (repl, rest) ->
  exists a b, a <> [] /\ s = a ++ repl ++ b ++ rest.
Proof.
  unfold conditionalMatcher, conditionalReplacer. intros H.
  destruct (conditionalRegex s) as [[c rest']|] eqn:Hre; [|discriminate].
  injection H as <- <-.
  apply conditionalRegex_inv in Hre as (ws & -> & _).
  destruct (isTruthy _).
  - exists (js "{{#if" ++ ws ++ varName c ++ js "}}"),
      (match elseContent c with
       | Some e => js "{{else}}" ++ e
       | None => []
       end ++ js "{{/if}}").
    split; [discriminate|]. rewrite <- !app_assoc. reflexivity.
  - destruct (elseContent c) as [e|].
    + exists (js "{{#if" ++ ws ++ varName c ++ js "}}" ++ ifContent c
              ++ js "{{else}}"), (js "{{/if}}").
      split; [discriminate|]. rewrite <- !app_assoc. reflexivity.
    + eexists (js "{{#if" ++ ws ++ varName c ++ js "}}" ++ ifContent c
               ++ js "{{/if}}"), [].
      split; [discriminate|]. rewrite <- !app_assoc. reflexivity.
Qed.

Lemma conditionalMatcher_shorter values pre s repl rest :
  conditionalMatcher values pre s = Some (repl, rest) ->
  (length repl + length rest < length s)%nat.
Proof.
  intros H. apply conditionalMatcher_substring in H as (a & b & Ha & ->).
  rewrite !length_app. destruct a; [congruence | simpl; lia].
Qed.

Lemma conditionalPass_same_or_shorter values s :
  conditionalPass values s = s
  \/ (length (conditionalPass values s) < length s)%nat.
Proof.
  apply replaceFrom_same_or_shorter. apply conditionalMatcher_shorter.
Qed.

Lemma conditionalLoop_enough values fuel :
  forall prev s,
    (length s < fuel)%nat ->
    exists r, conditionalLoop values fuel prev s = Some r.
Proof.
  induction fuel as [|fuel IH]; intros prev s Hlen; [lia|].
  simpl. case_bool_decide; [eexists; reflexivity|].
  destruct (conditionalPass_same_or_shorter values s) as [Heq|Hlt].
  - rewrite Heq. exists s. destruct fuel; simpl; rewrite bool_decide_eq_true_2; reflexivity.
  - apply IH. lia.
Qed.

Lemma conditionalLoop_more_fuel values fuel :
  forall fuel' prev s r,
    conditionalLoop values fuel prev s = Some r ->
    (fuel <= fuel')%nat ->
    conditionalLoop values fuel' prev s = Some r.
Proof.
  induction fuel as [|fuel IH]; intros fuel' prev s r H Hle.
  - simpl in H. case_bool_decide; [|discriminate].
    destruct fuel'; simpl; rewrite bool_decide_eq_true_2; assumption.
  - destruct fuel' as [|fuel']; [lia|]. simpl in *.
    case_bool_decide; [assumption|]. apply IH; [assumption | lia].
Qed.

Lemma conditionalLoop_result values prev s :
  exists r,
    forall fuel, (length s < fuel)%nat ->
      conditionalLoop values fuel prev s = Some r.
Proof.
  destruct (conditionalLoop_enough values (S (length s)) prev s) as [r Hr]; [lia|].
  exists r. intros fuel Hfuel.
  apply (conditionalLoop_more_fuel values (S (length s))); [assumption | lia].
Qed.

Lemma processTemplate_reaches_fixpoint templateContent values :
  processTemplate templateContent values <> NoFixpoint.
Proof.
  unfold processTemplate, processTemplateWith.
  destruct (substituteVars values templateContent) as [p|key]; [|discriminate].
  destruct (conditionalLoop_result values [] p) as [r Hr].
  rewrite Hr by lia. discriminate.
Qed.

(** C10: the loop of [processTemplate] ends.  A turn leaves the text as it is
    or makes it shorter, because what replaces a conditional block is a proper
    piece of it; so the loop reaches its exit within as many turns as the text
    is long, whatever the text before it and the values, [processTemplate]
    never stops short of the fixed point, and it returns for every template
    and all values whose keys are literal. *)
Theorem conditionalLoop_terminates values templateContent :
  (forall s,
     conditionalPass values s = s
     \/ (length (conditionalPass values s) < length s)%nat)
  /\ (forall pre s repl rest,
        conditionalMatcher values pre s = Some (repl, rest) ->
        exists a b, a <> [] /\ s = a ++ repl ++ b ++ rest)
  /\ (forall prev s,
        exists r,
          forall fuel, (length s < fuel)%nat ->
            conditionalLoop values fuel prev s = Some r)
  /\ processTemplate templateContent values <> NoFixpoint
  /\ (literalKeys values ->
      exists n r,
        processTemplate templateContent values = Returned r
        /\ forall fuel, (n <= fuel)%nat ->
             processTemplateWith fuel templateContent values = Returned r).
Proof.
  split; [apply conditionalPass_same_or_shorter|].
  split; [apply conditionalMatcher_substring|].
  split; [apply conditionalLoop_result|].
  split; [apply processTemplate_reaches_fixpoint|].
  intros Hkeys.
  destruct (substituteVars_literalKeys values Hkeys templateContent) as [p Hp].
  destruct (conditionalLoop_result values [] p) as [r Hr].
  exists (S (length p)), (cleanUp r).
  unfold processTemplate, processTemplateWith. rewrite Hp.
  split.
  - rewrite Hr by lia. reflexivity.
  - intros fuel Hfuel. rewrite Hr by lia. reflexivity.
Qed.

Lemma conditionalLoop_terminates_witness :
  literalKeys [(js "vip", VBool true)]
  /\ exists n r,
       processTemplate hello [(js "vip", VBool true)] = Returned r
       /\ forall fuel, (n <= fuel)%nat ->
            processTemplateWith fuel hello [(js "vip", VBool true)] = Returned r.
Proof.
  assert (H : literalKeys [(js "vip", VBool true)]).
  { repeat constructor. }
  split; [exact H|].
  exact (proj2 (proj2 (proj2 (proj2
    (conditionalLoop_terminates [(js "vip", VBool true)] hello)))) H).
Defined.

(** ** The scenarios of the specification *)

(** C1: on the nested template, with [a] true and [b] false the call returns
    ["Z"], not ["Y"]: the first turn pairs the outer [{{#if a}}] with the
    inner [{{else}}] and the inner [{{/if}}], so that the outer [{{else}}]
    becomes the else branch of [{{#if b}}].  With [a] false the call returns
    ["Y[___]Z"], not ["Z"]. *)
Theorem nested_conditionals :
  processTemplate nested [(js "a", VBool true); (js "b", VBool false)]
    = Returned (js "Z")
  /\ processTemplate nested [(js "a", VBool false)]
    = Returned (js "Y[___]Z")
  /\ processTemplate nested [(js "a", VBool false); (js "b", VBool true)]
    = Returned (js "Y[___]Z")
  /\ processTemplate nested [(js "a", VBool false); (js "b", VBool false)]
    = Returned (js "Y[___]Z")
  /\ conditionalPass [(js "a", VBool true); (js "b", VBool false)] nested
    = js "{{#if b}}X{{else}}Z{{/if}}"
  /\ conditionalPass [(js "a", VBool false)] nested
    = js "Y{{else}}Z{{/if}}".
Proof. repeat split; vm_compute; reflexivity. Qed.

(** C6: the greeting template with a name and [vip] true, with a name and
    [vip] false, and with [vip] true and no name. *)
Theorem hello_scenario :
  processTemplate hello [(js "name", VString (js "Ann")); (js "vip", VBool true)]
    = Returned (js "Hello VIP Ann!")
  /\ processTemplate hello
       [(js "name", VString (js "Ann")); (js "vip", VBool false)]
    = Returned (js "Hello Ann!")
  /\ processTemplate hello [(js "vip", VBool true)]
    = Returned (js "Hello VIP [___]!").
Proof. repeat split; vm_compute; reflexivity. Qed.

(** ** Texts without delimiter tokens *)

Lemma startsWith_app p s : startsWith p (p ++ s) = true.
Proof. induction p as [|c p IH]; simpl; [reflexivity|]. rewrite N.eqb_refl. exact IH. Qed.

Lemma startsWith_inv p s :
  startsWith p s = true -> exists s', s = p ++ s'.
Proof.
  revert s. induction p as [|c p IH]; intros s H; simpl in *.
  - exists s. reflexivity.
  - destruct s as [|d s]; [discriminate|].
    apply andb_true_iff in H as [Hc H]. apply N.eqb_eq in Hc as ->.
    destruct (IH _ H) as [s' ->]. exists s'. reflexivity.
Qed.

Lemma startsWith_app_l p a b :
  startsWith p a = true -> startsWith p (a ++ b) = true.
Proof.
  intros H. apply startsWith_inv in H as [a' ->].
  rewrite <- app_assoc. apply startsWith_app.
Qed.

Lemma includes_app_r p a b : includes p b = true -> includes p (a ++ b) = true.
Proof.
  intros H. induction a as [|c a IH]; [exact H|].
  simpl. rewrite IH. apply orb_true_r.
Qed.

Lemma includes_app_l p a b : includes p a = true -> includes p (a ++ b) = true.
Proof.
  induction a as [|c a IH]; simpl; intros H.
  - destruct p; [destruct b; reflexivity | discriminate].
  - apply orb_true_iff in H as [H|H].
    + change (startsWith p ((c :: a) ++ b) || includes p (a ++ b) = true).
      rewrite (startsWith_app_l _ _ _ H). reflexivity.
    + rewrite (IH H). apply orb_true_r.
Qed.

Lemma hasToken_app_r a b : hasToken (a ++ b) = false -> hasToken b = false.
Proof.
  induction a as [|c a IH]; [trivial|].
  simpl. intros H. apply orb_false_iff in H as [_ H]. apply IH, H.
Qed.

Lemma hasToken_open u : includes (js "}}") u = true -> hasToken (js "{{" ++ u) = true.
Proof.
  intros H. change (js "{{" ++ u) with (123 :: 123 :: u).
  cbn [hasToken]. change (skipn 2 (123 :: 123 :: u)) with u.
  rewrite H. reflexivity.
Qed.

(** Continuations that only accept a text with a closing [}}] in it. *)
Section Closing.
Context {R : Type}.
Implicit Types (k : list N -> option R) (kc : list N -> list N -> option R).

Lemma closes_lit l k : closes k -> closes (lit l k).
Proof.
  intros Hk s r H. apply lit_inv in H as (s' & -> & H).
  apply includes_app_r. exact (Hk _ _ H).
Qed.

Lemma closes_lit_end l k : includes (js "}}") l = true -> closes (lit l k).
Proof.
  intros Hl s r H. apply lit_inv in H as (s' & -> & H).
  apply includes_app_l. exact Hl.
Qed.

Lemma closes_star p kc :
  (forall cap, closes (kc cap)) -> closes (star p kc).
Proof.
  intros Hk s r H. apply star_inv in H as (cap & s' & -> & _ & H).
  apply includes_app_r. exact (Hk _ _ _ H).
Qed.

Lemma closes_plus p kc :
  (forall cap, closes (kc cap)) -> closes (plus p kc).
Proof.
  intros Hk s r H. apply plus_inv in H as (cap & s' & -> & _ & _ & H).
  apply includes_app_r. exact (Hk _ _ _ H).
Qed.

Lemma closes_lazyStar p kc :
  (forall cap, closes (kc cap)) -> closes (lazyStar p kc).
Proof.
  intros Hk s r H. apply lazyStar_inv in H as (cap & s' & -> & H).
  apply includes_app_r. exact (Hk _ _ _ H).
Qed.

(** A regex that opens with [{{] followed by [l] and goes on with a closing
    continuation only matches at a token. *)
Lemma token_lit l k s r :
  closes k -> lit (js "{{" ++ l) k s = Some r -> hasToken s = true.
Proof.
  intros Hk H. apply lit_inv in H as (s' & -> & H).
  rewrite <- app_assoc. apply hasToken_open, includes_app_r. exact (Hk _ _ H).
Qed.
End Closing.

Lemma simpleVarRegex_token key s r : simpleVarRegex key s = Some r -> hasToken s = true.
Proof.
  apply (token_lit []). apply closes_star. intros _. apply closes_lit.
  apply closes_star. intros _. apply closes_lit_end. reflexivity.
Qed.

Lemma conditionalRegex_token s r : conditionalRegex s = Some r -> hasToken s = true.
Proof.
  apply (token_lit (js "#if")). apply closes_plus. intros _.
  apply closes_plus. intros name. apply closes_lit_end. reflexivity.
Qed.

Lemma unmatchedVarRegex_token s r : unmatchedVarRegex s = Some r -> hasToken s = true.
Proof.
  apply (token_lit []). apply closes_star. intros _. apply closes_plus. intros _.
  apply closes_star. intros _. apply closes_lit_end. reflexivity.
Qed.

Lemma openTagRegex_token tag s r :
  openTagRegex (js "{{" ++ tag) s = Some r -> hasToken s = true.
Proof.
  apply (token_lit tag). apply closes_plus. intros _. apply closes_plus. intros _.
  apply closes_lit_end. reflexivity.
Qed.

Lemma literalRegex_token l s r :
  includes (js "}}") l = true ->
  literalRegex (js "{{" ++ l) s = Some r -> hasToken s = true.
Proof.
  intros Hl H. apply lit_inv in H as (s' & -> & _).
  rewrite <- app_assoc. apply hasToken_open, includes_app_l. exact Hl.
Qed.

(** Replacing a regex that only matches at tokens, in a text without one. *)
Lemma replaceAll_no_token m s :
  (forall pre t r, m pre t = Some r -> hasToken t = true) ->
  hasToken s = false ->
  replaceAll m s = s.
Proof.
  intros Hm Hs. apply replaceFrom_no_match. intros pre a b ->.
  destruct (m pre b) as [r|] eqn:Hb; [|reflexivity].
  apply Hm in Hb. rewrite (hasToken_app_r _ _ Hs) in Hb. discriminate.
Qed.

Lemma withString_token re r :
  (forall t rest, re t = Some rest -> hasToken t = true) ->
  forall pre t x, withString re r pre t = Some x -> hasToken t = true.
Proof.
  intros Hre pre t x. unfold withString.
  destruct (re t) as [rest|] eqn:Ht; [|discriminate]. intros _. exact (Hre _ _ Ht).
Qed.

Lemma substituteVars_no_token values s :
  literalKeys values -> hasToken s = false -> substituteVars values s = inl s.
Proof.
  intros Hkeys Hs. induction Hkeys as [|[key v] values Hkey _ IH]; simpl in *.
  - reflexivity.
  - rewrite Hkey. rewrite replaceAll_no_token; [exact IH | | exact Hs].
    apply withString_token. apply simpleVarRegex_token.
Qed.

Lemma conditionalPass_no_token values s :
  hasToken s = false -> conditionalPass values s = s.
Proof.
  intros Hs. apply replaceAll_no_token; [|exact Hs].
  intros pre t r. unfold conditionalMatcher.
  destruct (conditionalRegex t) as [[c rest]|] eqn:Ht; [|discriminate].
  intros _. exact (conditionalRegex_token _ _ Ht).
Qed.

Lemma conditionalLoop_no_token values fuel s :
  hasToken s = false -> conditionalLoop values (S fuel) [] s = Some s.
Proof.
  intros Hs. simpl. case_bool_decide; [reflexivity|].
  rewrite (conditionalPass_no_token _ _ Hs).
  destruct fuel; simpl; rewrite bool_decide_eq_true_2; reflexivity.
Qed.

Lemma cleanUp_no_token s : hasToken s = false -> cleanUp s = s.
Proof.
  intros Hs. unfold cleanUp.
  rewrite (replaceAll_no_token _ s); [|apply withString_token, unmatchedVarRegex_token|exact Hs].
  rewrite (replaceAll_no_token _ s);
    [|apply withString_token, (openTagRegex_token (js "#if"))|exact Hs].
  rewrite (replaceAll_no_token _ s);
    [|apply withString_token; intros t rest;
      apply (literalRegex_token (js "else}}")); reflexivity|exact Hs].
  rewrite (replaceAll_no_token _ s);
    [|apply withString_token; intros t rest;
      apply (literalRegex_token (js "/if}}")); reflexivity|exact Hs].
  rewrite (replaceAll_no_token _ s);
    [|apply withString_token, (openTagRegex_token (js "#unless"))|exact Hs].
  apply replaceAll_no_token; [|exact Hs].
  apply withString_token; intros t rest.
  apply (literalRegex_token (js "/unless}}")); reflexivity.
Qed.




(** ** A single conditional block *)

Ltac char_facts :=
  unfold isWord, isSpace, isLineTerminator in *;
  repeat rewrite ?orb_true_iff, ?andb_true_iff, ?orb_false_iff, ?andb_false_iff,
    ?N.eqb_eq, ?N.leb_le, ?N.eqb_neq, ?N.leb_gt in *;
  lia.

Lemma isWord_not_space c : isWord c = true -> isSpace c = false.
Proof. intros H. char_facts. Qed.

Lemma isWord_not_syntax c : isWord c = true -> isSyntaxChar c = false.
Proof.
  intros H. unfold isSyntaxChar. cbn [js list_ascii_of_string map existsb].
  change (N_of_ascii "^") with 94. change (N_of_ascii "$") with 36.
  change (N_of_ascii "\") with 92. change (N_of_ascii ".") with 46.
  change (N_of_ascii "*") with 42. change (N_of_ascii "+") with 43.
  change (N_of_ascii "?") with 63. change (N_of_ascii "(") with 40.
  change (N_of_ascii ")") with 41. change (N_of_ascii "[") with 91.
  change (N_of_ascii "]") with 93. change (N_of_ascii "{") with 123.
  change (N_of_ascii "}") with 125. change (N_of_ascii "|") with 124.
  char_facts.
Qed.

Lemma words_literalKey key : forallb isWord key = true -> literalKey key = true.
Proof.
  unfold literalKey. induction key as [|c key IH]; simpl; [reflexivity|].
  intros H. apply andb_true_iff in H as [Hc H].
  rewrite (isWord_not_syntax _ Hc). exact (IH H).
Qed.

(** Greedy and lazy quantifiers on a text that is known. *)
Section Forward.
Context {R : Type}.

Lemma star_app p (k : jsstring -> jsstring -> option R) x y r :
  forallb p x = true ->
  match y with [] => true | c :: _ => negb (p c) end = true ->
  k x y = Some r ->
  star p k (x ++ y) = Some r.
Proof.
  revert k. induction x as [|c x IH]; intros k Hx Hy Hk; simpl in *.
  - destruct y as [|d y]; [exact Hk|]. simpl.
    apply negb_true_iff in Hy. rewrite Hy. exact Hk.
  - apply andb_true_iff in Hx as [Hc Hx]. rewrite Hc.
    rewrite (IH (fun cap => k (c :: cap)) Hx Hy Hk). reflexivity.
Qed.

Lemma plus_app p (k : jsstring -> jsstring -> option R) x y r :
  x <> [] ->
  forallb p x = true ->
  match y with [] => true | c :: _ => negb (p c) end = true ->
  k x y = Some r ->
  plus p k (x ++ y) = Some r.
Proof.
  intros Hne Hx Hy Hk. destruct x as [|c x]; [congruence|].
  simpl in *. apply andb_true_iff in Hx as [Hc Hx]. rewrite Hc.
  apply star_app; assumption.
Qed.

End Forward.

(** Inside a text without [{{] no tag opens, when what follows the text is
    nothing, or opens with [{{], or opens with no brace. *)
Lemma plain_position {X} (re : jsstring -> option X) c x y :
  opensTag re ->
  includes (js "{{") (c :: x) = false ->
  y = [] \/ (exists d y', y = d :: y' /\ d <> 123)
  \/ (exists y', y = 123 :: 123 :: y') ->
  re (c :: x ++ y) = None.
Proof.
  intros Hre Hx Hy.
  destruct (re (c :: x ++ y)) as [r|] eqn:Hr; [|reflexivity]. exfalso.
  apply Hre in Hr as (c3 & u & Heq & Hc3).
  injection Heq as -> Heq.
  destruct x as [|d x]; simpl in Heq.
  - destruct Hy as [->|[(c & y' & -> & Hc')|(y' & ->)]]; congruence.
  - injection Heq as -> _. discriminate.
Qed.

Section Nowhere.
Context {X : Type} (re : jsstring -> option X).

Lemma nowhere_nil : re [] = None -> nowhere re [].
Proof. intros H a b Hab. symmetry in Hab. apply app_eq_nil in Hab as [_ ->]. exact H. Qed.

Lemma nowhere_cons c s : re (c :: s) = None -> nowhere re s -> nowhere re (c :: s).
Proof.
  intros Hc Hs a b Hab. destruct a as [|d a]; simpl in Hab.
  - subst b. exact Hc.
  - injection Hab as _ Hab. exact (Hs _ _ Hab).
Qed.

Lemma nowhere_plain x y :
  opensTag re ->
  includes (js "{{") x = false ->
  y = [] \/ (exists d y', y = d :: y' /\ d <> 123)
  \/ (exists y', y = 123 :: 123 :: y') ->
  nowhere re y ->
  nowhere re (x ++ y).
Proof.
  intros Hre Hx Hy Hnw. induction x as [|c x IH]; [exact Hnw|].
  cbn [app]. apply nowhere_cons.
  - apply plain_position; assumption.
  - apply IH. cbn [includes] in Hx. apply orb_false_iff in Hx as [_ Hx]. exact Hx.
Qed.
End Nowhere.

Lemma replaceAll_nowhere (re : jsstring -> option jsstring) r s :
  nowhere re s -> replaceAll (withString re r) s = s.
Proof.
  intros Hnw. apply replaceFrom_no_match. intros pre a b Hab.
  unfold withString. rewrite (Hnw a b Hab). reflexivity.
Qed.


Lemma plain_no_token x : includes (js "{{") x = false -> hasToken x = false.
Proof.
  change (js "{{") with [123; 123].
  induction x as [|c x IH]; [reflexivity|].
  cbn [includes hasToken]. change (js "{{") with [123; 123].
  intros H. apply orb_false_iff in H as [Hc H].
  rewrite Hc, (IH H). reflexivity.
Qed.

(** The shape of a match of the regex of a key. *)
Lemma simpleVarRegex_inv key t rest :
  simpleVarRegex key t = Some rest ->
  exists ws1 ws2,
    t = js "{{" ++ ws1 ++ key ++ ws2 ++ js "}}" ++ rest
    /\ forallb isSpace ws1 = true /\ forallb isSpace ws2 = true.
Proof.
  unfold simpleVarRegex. intros H.
  apply lit_inv in H as (s1 & -> & H).
  apply star_inv in H as (ws1 & s2 & -> & Hws1 & H).
  apply lit_inv in H as (s3 & -> & H).
  apply star_inv in H as (ws2 & s4 & -> & Hws2 & H).
  apply lit_inv in H as (s5 & -> & H). injection H as ->.
  exists ws1, ws2. repeat split; assumption.
Qed.

Lemma simpleVarRegex_opensTag key :
  literalKey key = true -> opensTag (simpleVarRegex key).
Proof.
  intros Hkey t rest H.
  apply simpleVarRegex_inv in H as (ws1 & ws2 & -> & Hws1 & Hws2).
  change (js "{{") with [123; 123]. change (js "}}") with [125; 125].
  destruct ws1 as [|w ws1]; simpl in *.
  - destruct key as [|k key]; simpl in *.
    + destruct ws2 as [|w ws2]; simpl in *.
      * eexists _, _. split; [reflexivity | discriminate].
      * eexists _, _. split; [reflexivity|]. intros ->. discriminate.
    + eexists _, _. split; [reflexivity|]. intros ->. discriminate.
  - eexists _, _. split; [reflexivity|]. intros ->. discriminate.
Qed.

(** After [{{], the regex of a name wants a space, a word character or
    the closing brace. *)
Lemma simpleVarRegex_third key c t :
  forallb isWord key = true ->
  isSpace c = false -> isWord c = false -> c <> 125 ->
  simpleVarRegex key (123 :: 123 :: c :: t) = None.
Proof.
  intros Hkey Hsp Hw Hc.
  destruct (simpleVarRegex key _) as [rest|] eqn:H; [|reflexivity]. exfalso.
  apply simpleVarRegex_inv in H as (ws1 & ws2 & Heq & Hws1 & Hws2).
  change (js "{{") with [123; 123] in Heq. change (js "}}") with [125; 125] in Heq.
  injection Heq as Heq.
  destruct ws1 as [|w ws1]; simpl in *.
  - destruct key as [|k key]; simpl in *.
    + destruct ws2 as [|w ws2]; simpl in *.
      * congruence.
      * injection Heq as -> _. rewrite Hsp in Hws2. discriminate.
    + injection Heq as -> _. rewrite Hw in Hkey. discriminate.
  - injection Heq as -> _. rewrite Hsp in Hws1. discriminate.
Qed.


Lemma opensTag_lit {X} l (k : jsstring -> option X) c l' :
  l = 123 :: 123 :: c :: l' -> c <> 123 -> opensTag (lit l k).
Proof.
  intros -> Hc t r H. apply lit_inv in H as (s' & -> & _).
  exists c, (l' ++ s'). split; [reflexivity | exact Hc].
Qed.

Lemma includes_suffix_false p a b : includes p (a ++ b) = false -> includes p b = false.
Proof.
  intros H. destruct (includes p b) eqn:Hb; [|reflexivity].
  rewrite (includes_app_r _ a _ Hb) in H. discriminate.
Qed.

Section ReplaceSteps.
Variable m : jsstring -> jsstring -> option (jsstring * jsstring).

(** A stretch of the text in which the regex matches nowhere is copied. *)
Lemma replaceFrom_prefix a :
  forall pre rest,
    (forall a1 c a2, a = a1 ++ c :: a2 -> m (rev a1 ++ pre) (c :: a2 ++ rest) = None) ->
    replaceFrom m pre 0 (a ++ rest) = a ++ replaceFrom m (rev a ++ pre) 0 rest.
Proof.
  induction a as [|c a IH]; intros pre rest Hm; [reflexivity|].
  cbn [app]. rewrite replaceFrom_cons.
  pose proof (Hm [] c a eq_refl) as H0. cbn [rev app] in H0. rewrite H0.
  f_equal. rewrite IH.
  - cbn [rev]. rewrite <- app_assoc. reflexivity.
  - intros a1 d a2 ->. specialize (Hm (c :: a1) d a2 eq_refl).
    cbn [rev] in Hm. rewrite <- app_assoc in Hm. exact Hm.
Qed.

Lemma replaceFrom_skip x :
  forall pre rest,
    replaceFrom m pre (length x) (x ++ rest) = replaceFrom m (rev x ++ pre) 0 rest.
Proof.
  induction x as [|c x IH]; intros pre rest; [reflexivity|].
  cbn [length app replaceFrom rev]. rewrite IH, <- app_assoc. reflexivity.
Qed.

(** A match is replaced, and the search goes on behind it. *)
Lemma replaceFrom_match pre matched rest repl :
  matched <> [] ->
  m pre (matched ++ rest) = Some (repl, rest) ->
  replaceFrom m pre 0 (matched ++ rest)
  = repl ++ replaceFrom m (rev matched ++ pre) 0 rest.
Proof.
  intros Hne Hm. destruct matched as [|c x]; [congruence|].
  cbn [app] in *. rewrite replaceFrom_cons, Hm.
  replace (length (c :: x ++ rest) - length rest)%nat with (S (length x))
    by (cbn [length]; rewrite length_app; lia).
  rewrite replaceFrom_skip. cbn [rev]. rewrite <- app_assoc. reflexivity.
Qed.
End ReplaceSteps.

Lemma conditionalRegex_opensTag : opensTag conditionalRegex.
Proof.
  intros t r H. unfold conditionalRegex in H.
  apply lit_inv in H as (s' & -> & _).
  eexists _, _. split; [reflexivity | discriminate].
Qed.

Lemma includes_prefix_false p a b :
  includes p (a ++ b) = false -> includes p a = false.
Proof.
  intros H. destruct (includes p a) eqn:Ha; [|reflexivity].
  rewrite (includes_app_l p a b Ha) in H. discriminate H.
Qed.

Lemma substituteVars_nowhere values s :
  Forall (fun kv => literalKey kv.1 = true /\ nowhere (simpleVarRegex kv.1) s) values ->
  substituteVars values s = inl s.
Proof.
  induction 1 as [|[key v] values [Hkey Hnw] _ IH]; simpl in *; [reflexivity|].
  rewrite Hkey, replaceAll_nowhere; assumption.
Qed.

(** A regex that matches the whole text at once. *)
Lemma replaceFrom_skip_all m s :
  forall pre,
    (forall pre', m pre' [] = None) ->
    replaceFrom m pre (length s) s = [].
Proof.
  induction s as [|c s IH]; intros pre Hm; simpl.
  - rewrite Hm. reflexivity.
  - apply IH, Hm.
Qed.

Lemma replaceAll_whole m s repl :
  s <> [] ->
  (forall pre, m pre [] = None) ->
  m [] s = Some (repl, []) ->
  replaceAll m s = repl.
Proof.
  intros Hs Hnil Hm. destruct s as [|c s]; [congruence|].
  unfold replaceAll. rewrite replaceFrom_cons, Hm.
  cbn [length Nat.sub]. rewrite replaceFrom_skip_all by exact Hnil.
  apply app_nil_r.
Qed.




(** A block between two texts, where none of the texts holds a [{{]. *)
Section Block.
Variables (pre name a b post : jsstring).
Hypothesis name_word : isName name = true.
Hypothesis pre_plain : includes (js "{{") pre = false.
Hypothesis a_plain : includes (js "{{") a = false.
Hypothesis b_plain : includes (js "{{") b = false.
Hypothesis post_plain : includes (js "{{") post = false.
















End Block.







(** ** Validation *)

Lemma setError_other key message errs k :
  k <> key -> setError key message errs !! k = errs !! k.
Proof.
  intros Hk. unfold setError. case_bool_decide; [reflexivity|].
  apply lookup_insert_ne. congruence.
Qed.

Lemma setError_own key message errs :
  key <> js "__proto__" -> setError key message errs !! key = Some message.
Proof.
  intros Hk. unfold setError. rewrite bool_decide_eq_false_2 by exact Hk.
  apply lookup_insert_eq.
Qed.

Lemma setError_proto message errs k :
  setError (js "__proto__") message errs !! k = errs !! k.
Proof. reflexivity. Qed.

Lemma setError_twice key m1 m2 errs :
  setError key m2 (setError key m1 errs) = setError key m2 errs.
Proof.
  unfold setError. case_bool_decide; [reflexivity | apply insert_insert_eq].
Qed.

Section ValidateFacts.
Variable regexTest : jsstring -> jsstring -> option bool.
Implicit Types (values : Values) (variable : TemplateVariable).
Implicit Types (errs : gmap jsstring jsstring).

(** The body of the loop throws for a pattern that is no regex, and
    otherwise leaves one message at most: that of the last check that
    fails. *)
Lemma validateVariable_recordError values errs variable :
  validateVariable regexTest values errs variable
  = if patternThrows regexTest variable (readProperty values (name variable))
    then None
    else Some (recordError regexTest values errs variable).
Proof.
  unfold validateVariable, recordError, messageOf, patternThrows, orElse.
  cbv zeta.
  destruct (readProperty values (name variable)) as [|[[|ch s]|n|b]|];
    destruct (required variable); cbn [isMissing andb negb];
    try reflexivity;
    destruct (validation variable) as [c|]; try reflexivity;
    destruct (Validation.pattern c) as [[|p ps]|];
    try destruct (regexTest (p :: ps) (ch :: s)) as [[|]|];
    destruct (Validation.min c), (Validation.max c),
      (Validation.minLength c), (Validation.maxLength c);
    repeat match goal with
           | |- context [if ?b then _ else _] => destruct b
           end;
    rewrite ?setError_twice; reflexivity.
Qed.

Lemma validateAll_recordError values variables :
  forall errs,
    validateAll regexTest values variables errs
    = if existsb
           (fun variable =>
              patternThrows regexTest variable
                (readProperty values (name variable)))
           variables
      then None
      else Some (fold_left (recordError regexTest values) variables errs).
Proof.
  induction variables as [|v variables IH]; intros errs; [reflexivity|].
  cbn [validateAll existsb fold_left]. rewrite validateVariable_recordError.
  destruct (patternThrows regexTest v _); [reflexivity|]. apply IH.
Qed.

Lemma patternThrows_iff variable v :
  patternThrows regexTest variable v = true
  <-> exists c p ps ch s,
        validation variable = Some c
        /\ Validation.pattern c = Some (p :: ps)
        /\ v = Own (VString (ch :: s))
        /\ regexTest (p :: ps) (ch :: s) = None.
Proof.
  unfold patternThrows. split.
  - destruct (validation variable) as [c|]; [|discriminate].
    destruct v as [|[[|ch s]|n|b]|]; try discriminate.
    destruct (Validation.pattern c) as [[|p ps]|] eqn:Hp; try discriminate.
    destruct (regexTest (p :: ps) (ch :: s)) eqn:Hre; [discriminate|].
    intros _. exists c, p, ps, ch, s. repeat split; assumption.
  - intros (c & p & ps & ch & s & -> & -> & -> & ->). reflexivity.
Qed.

(** The body of the loop writes under the name of its variable only, never
    under [__proto__], and what it leaves does not depend on the errors
    found before. *)
Lemma recordError_other values errs variable k :
  k <> name variable ->
  recordError regexTest values errs variable !! k = errs !! k.
Proof.
  intros Hk. unfold recordError.
  destruct (messageOf _ _ _); [apply setError_other, Hk | reflexivity].
Qed.

Lemma recordError_own values errs variable :
  name variable <> js "__proto__" ->
  recordError regexTest values errs variable !! name variable
  = match
      messageOf regexTest variable (readProperty values (name variable))
    with
    | Some e => Some e
    | None => errs !! name variable
    end.
Proof.
  intros Hk. unfold recordError.
  destruct (messageOf _ _ _); [apply setError_own, Hk | reflexivity].
Qed.

Lemma recordError_proto values errs variable :
  recordError regexTest values errs variable !! js "__proto__"
  = errs !! js "__proto__".
Proof.
  destruct (decide (js "__proto__" = name variable)) as [Heq|Hne].
  - unfold recordError. rewrite <- Heq.
    destruct (messageOf _ _ _); reflexivity.
  - apply recordError_other, Hne.
Qed.

Lemma fold_recordError_other values variables :
  forall errs k,
    k ∉ map name variables ->
    fold_left (recordError regexTest values) variables errs !! k = errs !! k.
Proof.
  induction variables as [|v variables IH]; intros errs k Hk; [reflexivity|].
  simpl in *. apply not_elem_of_cons in Hk as [Hk1 Hk2].
  rewrite IH by assumption. apply recordError_other. exact Hk1.
Qed.

Lemma fold_recordError_proto values variables :
  forall errs,
    fold_left (recordError regexTest values) variables errs !! js "__proto__"
    = errs !! js "__proto__".
Proof.
  induction variables as [|v variables IH]; intros errs; [reflexivity|].
  cbn [fold_left]. rewrite IH. apply recordError_proto.
Qed.

Lemma fold_recordError_own values variables :
  forall errs variable,
    NoDup (map name variables) ->
    variable ∈ variables ->
    name variable <> js "__proto__" ->
    errs !! name variable = None ->
    fold_left (recordError regexTest values) variables errs !! name variable
    = messageOf regexTest variable (readProperty values (name variable)).
Proof.
  induction variables as [|v variables IH];
    intros errs variable Hnd Hin Hproto Herrs.
  - apply elem_of_nil in Hin as [].
  - simpl in *. apply NoDup_cons in Hnd as [Hv Hnd].
    apply elem_of_cons in Hin as [->|Hin].
    + rewrite fold_recordError_other by exact Hv.
      rewrite recordError_own, Herrs by exact Hproto.
      destruct (messageOf _ _ _); reflexivity.
    + apply IH; [assumption..|].
      rewrite recordError_other; [exact Herrs|].
      intros Heq. apply Hv. rewrite <- Heq. apply list_elem_of_fmap_2. exact Hin.
Qed.

Lemma fold_recordError_keys values variables :
  forall errs k,
    is_Some (fold_left (recordError regexTest values) variables errs !! k) ->
    is_Some (errs !! k) \/ k ∈ map name variables.
Proof.
  induction variables as [|v variables IH]; intros errs k Hk; [left; exact Hk|].
  simpl in *. destruct (decide (k = name v)) as [->|Hne].
  - right. apply elem_of_cons. left. reflexivity.
  - apply IH in Hk as [Hk|Hk].
    + left. rewrite recordError_other in Hk; assumption.
    + right. apply elem_of_cons. right. exact Hk.
Qed.

(** An error stays, and more errors before give more errors after. *)
Lemma fold_recordError_more values variables :
  forall errs1 errs2,
    (forall k, is_Some (errs1 !! k) -> is_Some (errs2 !! k)) ->
    forall k,
      is_Some (fold_left (recordError regexTest values) variables errs1 !! k) ->
      is_Some (fold_left (recordError regexTest values) variables errs2 !! k).
Proof.
  induction variables as [|v variables IH]; intros errs1 errs2 Hsub k;
    [apply Hsub|].
  cbn [fold_left]. apply IH. clear k. intros k. unfold recordError.
  destruct (messageOf _ _ _) as [e|]; [|apply Hsub].
  unfold setError. case_bool_decide; [apply Hsub|].
  destruct (decide (k = name v)) as [->|Hne].
  - rewrite !lookup_insert_eq. intros _. eexists; reflexivity.
  - rewrite !lookup_insert_ne by congruence. apply Hsub.
Qed.

Lemma fold_recordError_keeps values variables errs k :
  is_Some (errs !! k) ->
  is_Some (fold_left (recordError regexTest values) variables errs !! k).
Proof.
  revert errs. induction variables as [|v variables IH]; intros errs Hk;
    [exact Hk|].
  cbn [fold_left]. apply IH. unfold recordError.
  destruct (messageOf _ _ _) as [e|]; [|exact Hk].
  unfold setError. case_bool_decide; [exact Hk|].
  destruct (decide (k = name v)) as [->|Hne].
  - rewrite lookup_insert_eq. eexists; reflexivity.
  - rewrite lookup_insert_ne by congruence. exact Hk.
Qed.

(** [value === undefined || value === ''], condition by condition. *)
Lemma isMissing_conditions (v : property) :
  isMissing v = true <-> v = Undefined \/ v = Own (VString []).
Proof.
  split.
  - destruct v as [|[[|c s]|n|b]|]; intros H; try discriminate H; auto.
  - intros [->| ->]; reflexivity.
Qed.

Lemma isMissing_false (v : property) :
  isMissing v = false <-> v <> Undefined /\ v <> Own (VString []).
Proof.
  split.
  - intros H. split; intros ->; discriminate H.
  - intros [H1 H2]. destruct v as [|[[|c s]|n|b]|]; try reflexivity; congruence.
Qed.

Lemma messageOf_required variable v :
  required variable = true ->
  isMissing v = true ->
  messageOf regexTest variable v = Some (label variable ++ js " is required").
Proof. intros Hr Hm. unfold messageOf. rewrite Hm, Hr. reflexivity. Qed.

Lemma messageOf_optional variable v :
  required variable = false ->
  isMissing v = true ->
  messageOf regexTest variable v = None.
Proof. intros Hr Hm. unfold messageOf. rewrite Hm, Hr. reflexivity. Qed.

Lemma messageOf_unconstrained variable v :
  isMissing v = false ->
  validation variable = None ->
  messageOf regexTest variable v = None.
Proof. intros Hm Hv. unfold messageOf. rewrite Hm, Hv. reflexivity. Qed.

Lemma messageOf_present variable v :
  isMissing v = false ->
  messageOf regexTest variable v
  <> Some (label variable ++ js " is required").
Proof.
  intros Hm. unfold messageOf, orElse. rewrite Hm.
  destruct (validation variable) as [c|]; [|discriminate].
  destruct v as [|[s|n|b]|]; try discriminate;
    destruct (Validation.min c), (Validation.max c),
      (Validation.minLength c), (Validation.maxLength c),
      (Validation.pattern c) as [[|p ps]|];
    try destruct (regexTest (p :: ps) s) as [[|]|];
    repeat match goal with
           | |- context [if ?b then _ else _] => destruct b
           end;
    try discriminate;
    intros Heq; injection Heq as Heq; apply app_inv_head in Heq;
    discriminate.
Qed.

(** The checks of a string that is not empty, the last one first. *)
Lemma messageOf_string variable c s :
  validation variable = Some c ->
  s <> [] ->
  (forall m,
     Validation.maxLength c = Some m ->
     (m < Z.of_nat (length s))%Z ->
     messageOf regexTest variable (Own (VString s))
     = Some (label variable ++ js " must be at most " ++ numberToString m
             ++ js " characters"))
  /\ ((forall m, Validation.maxLength c = Some m ->
                 (Z.of_nat (length s) <= m)%Z) ->
      (forall m,
         Validation.minLength c = Some m ->
         (Z.of_nat (length s) < m)%Z ->
         messageOf regexTest variable (Own (VString s))
         = Some (label variable ++ js " must be at least " ++ numberToString m
                 ++ js " characters"))
      /\ ((forall m, Validation.minLength c = Some m ->
                     (m <= Z.of_nat (length s))%Z) ->
          (forall pattern,
             Validation.pattern c = Some pattern ->
             pattern <> [] ->
             regexTest pattern s = Some false ->
             messageOf regexTest variable (Own (VString s))
             = Some (label variable ++ js " format is invalid"))
          /\ ((forall pattern,
                 Validation.pattern c = Some pattern ->
                 pattern <> [] ->
                 regexTest pattern s = Some true) ->
              messageOf regexTest variable (Own (VString s)) = None))).
Proof.
  intros Hc Hs. unfold messageOf, orElse. rewrite Hc.
  destruct s as [|ch s]; [congruence|]. cbn [isMissing].
  split; [intros m -> Hm; apply Z.ltb_lt in Hm; rewrite Hm; reflexivity|].
  intros Hmax.
  assert (Hnomax :
    match Validation.maxLength c with
    | Some m =>
        if (m <? Z.of_nat (length (ch :: s)))%Z
        then Some (label variable ++ js " must be at most "
                   ++ numberToString m ++ js " characters")
        else None
    | None => None
    end = None).
  { destruct (Validation.maxLength c) as [m|]; [|reflexivity].
    specialize (Hmax m eq_refl). apply Z.ltb_ge in Hmax. rewrite Hmax.
    reflexivity. }
  rewrite Hnomax.
  split; [intros m -> Hm; apply Z.ltb_lt in Hm; rewrite Hm; reflexivity|].
  intros Hmin.
  assert (Hnomin :
    match Validation.minLength c with
    | Some m =>
        if (Z.of_nat (length (ch :: s)) <? m)%Z
        then Some (label variable ++ js " must be at least "
                   ++ numberToString m ++ js " characters")
        else None
    | None => None
    end = None).
  { destruct (Validation.minLength c) as [m|]; [|reflexivity].
    specialize (Hmin m eq_refl). apply Z.ltb_ge in Hmin. rewrite Hmin.
    reflexivity. }
  rewrite Hnomin. split.
  - intros pattern -> Hp Hre. destruct pattern as [|p ps]; [congruence|].
    rewrite Hre. reflexivity.
  - intros Hre. destruct (Validation.pattern c) as [[|p ps]|];
      try reflexivity.
    rewrite (Hre (p :: ps) eq_refl) by discriminate. reflexivity.
Qed.

(** The checks of a number, the last one first. *)
Lemma messageOf_number variable c n :
  validation variable = Some c ->
  (forall m,
     Validation.max c = Some m ->
     (m < n)%Z ->
     messageOf regexTest variable (Own (VNumber n))
     = Some (label variable ++ js " must be at most " ++ numberToString m))
  /\ ((forall m, Validation.max c = Some m -> (n <= m)%Z) ->
      (forall m,
         Validation.min c = Some m ->
         (n < m)%Z ->
         messageOf regexTest variable (Own (VNumber n))
         = Some (label variable ++ js " must be at least "
                 ++ numberToString m))
      /\ ((forall m, Validation.min c = Some m -> (m <= n)%Z) ->
          messageOf regexTest variable (Own (VNumber n)) = None)).
Proof.
  intros Hc. unfold messageOf, orElse. rewrite Hc. cbn [isMissing].
  split; [intros m -> Hm; apply Z.ltb_lt in Hm; rewrite Hm; reflexivity|].
  intros Hmax.
  assert (Hnomax :
    match Validation.max c with
    | Some m =>
        if (m <? n)%Z
        then Some (label variable ++ js " must be at most "
                   ++ numberToString m)
        else None
    | None => None
    end = None).
  { destruct (Validation.max c) as [m|]; [|reflexivity].
    specialize (Hmax m eq_refl). apply Z.ltb_ge in Hmax. rewrite Hmax.
    reflexivity. }
  rewrite Hnomax.
  split; [intros m -> Hm; apply Z.ltb_lt in Hm; rewrite Hm; reflexivity|].
  intros Hmin. destruct (Validation.min c) as [m|]; [|reflexivity].
  specialize (Hmin m eq_refl). apply Z.ltb_ge in Hmin. rewrite Hmin.
  reflexivity.
Qed.

(** A boolean, and what an object inherits, pass every check. *)
Lemma messageOf_other variable v :
  (exists b, v = Own (VBool b)) \/ v = Inherited ->
  messageOf regexTest variable v = None.
Proof.
  intros [[b ->]| ->]; unfold messageOf; cbn [isMissing];
    destruct (validation variable); reflexivity.
Qed.

(** What [validateVariables] returns when no pattern throws. *)
Lemma validateVariables_returns variables values result :
  validateVariables regexTest variables values = Some result ->
  errors result = fold_left (recordError regexTest values) variables ∅
  /\ isValid result = bool_decide (size (errors result) = 0%nat).
Proof.
  unfold validateVariables. rewrite validateAll_recordError.
  destruct (existsb _ variables); [discriminate|].
  intros H. injection H as <-. split; reflexivity.
Qed.

Lemma validateVariables_throws variables values :
  validateVariables regexTest variables values = None
  <-> exists variable,
        variable ∈ variables
        /\ patternThrows regexTest variable
             (readProperty values (name variable)) = true.
Proof.
  unfold validateVariables. rewrite validateAll_recordError.
  destruct (existsb _ variables) eqn:Hex.
  - split; [intros _|reflexivity].
    apply existsb_exists in Hex as (variable & Hin & Hthrows).
    exists variable. split; [apply list_elem_of_In, Hin | exact Hthrows].
  - split; [discriminate|]. intros (variable & Hin & Hthrows).
    assert (H : existsb
                  (fun variable =>
                     patternThrows regexTest variable
                       (readProperty values (name variable)))
                  variables = true)
      by (apply existsb_exists; exists variable;
          split; [apply list_elem_of_In, Hin | exact Hthrows]).
    congruence.
Qed.
End ValidateFacts.

(** C7, amended.  [validateVariables] throws exactly when the pattern of a
    variable is no regex and the variable has a string that is not empty.
    When it returns, with the names of the variables distinct: a required
    variable whose value is undefined or empty gets the "is required" message
    whatever its constraints say; a variable that is not required and whose
    value is undefined or empty gets no error whatever its constraints say;
    a variable whose value is there and not empty never gets the "is
    required" message and gets no error when it has no constraints.  With
    constraints it gets the message of the last of its checks that fails: a
    string that of [maxLength] when it is longer, else that of [minLength]
    when it is shorter, else "format is invalid" when the pattern, one that
    is not empty, does not match, and else none; a number that of [max] when
    it is above, else that of [min] when it is below, and else none; a
    boolean, and what the object inherits, none.  No key but the name of a
    variable is written, a variable named [__proto__] never gets an error,
    and [isValid] says that the map of errors is empty.  The value of a
    variable is [values[name]], which for a name such as [constructor] is
    what the object inherits; the bounds written into the messages are safe
    integers. *)
Theorem validateVariables_rules regexTest variables values :
  NoDup (map name variables) ->
  Forall (fun variable => safeConstraints variable = true) variables ->
  (validateVariables regexTest variables values = None
   <-> exists variable c p ps ch s,
         variable ∈ variables
         /\ validation variable = Some c
         /\ Validation.pattern c = Some (p :: ps)
         /\ readProperty values (name variable) = Own (VString (ch :: s))
         /\ regexTest (p :: ps) (ch :: s) = None)
  /\ forall result,
       validateVariables regexTest variables values = Some result ->
       (forall variable,
          variable ∈ variables ->
          name variable <> js "__proto__" ->
          errors result !! name variable
          = messageOf regexTest variable (readProperty values (name variable))
          /\ (required variable = true ->
              readProperty values (name variable) = Undefined
              \/ readProperty values (name variable) = Own (VString []) ->
              errors result !! name variable
              = Some (label variable ++ js " is required"))
          /\ (required variable = false ->
              readProperty values (name variable) = Undefined
              \/ readProperty values (name variable) = Own (VString []) ->
              errors result !! name variable = None)
          /\ (readProperty values (name variable) <> Undefined ->
              readProperty values (name variable) <> Own (VString []) ->
              errors result !! name variable
              <> Some (label variable ++ js " is required"))
          /\ (readProperty values (name variable) <> Undefined ->
              readProperty values (name variable) <> Own (VString []) ->
              validation variable = None ->
              errors result !! name variable = None)
          /\ (forall c s,
                validation variable = Some c ->
                readProperty values (name variable) = Own (VString s) ->
                s <> [] ->
                (forall m,
                   Validation.maxLength c = Some m ->
                   (m < Z.of_nat (length s))%Z ->
                   errors result !! name variable
                   = Some (label variable ++ js " must be at most "
                           ++ numberToString m ++ js " characters"))
                /\ ((forall m, Validation.maxLength c = Some m ->
                               (Z.of_nat (length s) <= m)%Z) ->
                    (forall m,
                       Validation.minLength c = Some m ->
                       (Z.of_nat (length s) < m)%Z ->
                       errors result !! name variable
                       = Some (label variable ++ js " must be at least "
                               ++ numberToString m ++ js " characters"))
                    /\ ((forall m, Validation.minLength c = Some m ->
                                   (m <= Z.of_nat (length s))%Z) ->
                        (forall pattern,
                           Validation.pattern c = Some pattern ->
                           pattern <> [] ->
                           regexTest pattern s = Some false ->
                           errors result !! name variable
                           = Some (label variable ++ js " format is invalid"))
                        /\ ((forall pattern,
                               Validation.pattern c = Some pattern ->
                               pattern <> [] ->
                               regexTest pattern s = Some true) ->
                            errors result !! name variable = None))))
          /\ (forall c n,
                validation variable = Some c ->
                readProperty values (name variable) = Own (VNumber n) ->
                (forall m,
                   Validation.max c = Some m ->
                   (m < n)%Z ->
                   errors result !! name variable
                   = Some (label variable ++ js " must be at most "
                           ++ numberToString m))
                /\ ((forall m, Validation.max c = Some m -> (n <= m)%Z) ->
                    (forall m,
                       Validation.min c = Some m ->
                       (n < m)%Z ->
                       errors result !! name variable
                       = Some (label variable ++ js " must be at least "
                               ++ numberToString m))
                    /\ ((forall m, Validation.min c = Some m -> (m <= n)%Z) ->
                        errors result !! name variable = None)))
          /\ ((exists b, readProperty values (name variable) = Own (VBool b))
              \/ readProperty values (name variable) = Inherited ->
              errors result !! name variable = None))
       /\ errors result !! js "__proto__" = None
       /\ (forall k,
             is_Some (errors result !! k) -> k ∈ map name variables)
       /\ (isValid result = true <-> errors result = ∅).
Proof.
  intros Hnd _. split.
  - rewrite validateVariables_throws. split.
    + intros (variable & Hin & H).
      apply patternThrows_iff in H as (c & p & ps & ch & s & H).
      exists variable, c, p, ps, ch, s. tauto.
    + intros (variable & c & p & ps & ch & s & Hin & H).
      exists variable. split; [exact Hin|].
      apply patternThrows_iff. exists c, p, ps, ch, s. exact H.
  - intros result Hresult.
    apply validateVariables_returns in Hresult as [Herrors Hvalid].
    split; [|split; [|split]].
    + intros variable Hin Hproto.
      assert (Hown :
        errors result !! name variable
        = messageOf regexTest variable (readProperty values (name variable))).
      { rewrite Herrors.
        apply fold_recordError_own; [assumption..|apply lookup_empty]. }
      split; [exact Hown|].
      split; [|split; [|split; [|split; [|split; [|split]]]]].
      * intros Hr Hm. apply isMissing_conditions in Hm.
        rewrite Hown. apply messageOf_required; assumption.
      * intros Hr Hm. apply isMissing_conditions in Hm.
        rewrite Hown. apply messageOf_optional; assumption.
      * intros H1 H2. rewrite Hown. apply messageOf_present.
        apply isMissing_false. split; assumption.
      * intros H1 H2 Hv. rewrite Hown. apply messageOf_unconstrained;
          [apply isMissing_false; split; assumption | exact Hv].
      * intros c s Hc Hv Hs. rewrite Hown, Hv.
        exact (messageOf_string regexTest variable c s Hc Hs).
      * intros c n Hc Hv. rewrite Hown, Hv.
        exact (messageOf_number regexTest variable c n Hc).
      * intros Hv. rewrite Hown. apply messageOf_other. exact Hv.
    + rewrite Herrors, fold_recordError_proto. apply lookup_empty.
    + intros k Hk. rewrite Herrors in Hk.
      apply fold_recordError_keys in Hk as [Hk|Hk]; [|exact Hk].
      rewrite lookup_empty in Hk. destruct Hk as [? Hk]. discriminate.
    + rewrite Hvalid, bool_decide_eq_true. apply map_size_empty_iff.
Qed.

Lemma validateVariables_rules_witness :
  exists result,
    validateVariables (fun _ _ => Some false) [zipVariable; noteVariable]
      [(js "note", VString [])]
    = Some result
    /\ errors result !! js "zip" = Some (js "ZIP is required")
    /\ errors result !! js "note" = None.
Proof.
  assert (Hnd : NoDup (map name [zipVariable; noteVariable]))
    by (apply (bool_decide_unpack _); vm_compute; exact I).
  assert (Hsafe : Forall (fun variable => safeConstraints variable = true)
                    [zipVariable; noteVariable])
    by (repeat constructor).
  pose proof (validateVariables_rules (fun _ _ => Some false)
                [zipVariable; noteVariable] [(js "note", VString [])]
                Hnd Hsafe) as [_ Hrules].
  eexists. split; [reflexivity|].
  destruct (Hrules _ eq_refl) as [Hvariables _].
  split.
  - refine (proj1 (proj2 (Hvariables zipVariable _ _)) eq_refl _).
    + repeat constructor.
    + discriminate.
    + left. reflexivity.
  - refine (proj1 (proj2 (proj2 (Hvariables noteVariable _ _))) eq_refl _).
    + repeat constructor.
    + discriminate.
    + right. reflexivity.
Defined.

(** C7 as it was stated fails for a required variable that is present and
    not empty but breaks one of its constraints: it gets an error. *)
Lemma required_present_rejected :
  required zipVariable = true
  /\ readProperty [(js "zip", VString (js "123"))] (name zipVariable)
     = Own (VString (js "123"))
  /\ exists result,
       validateVariables (fun _ _ => Some true) [zipVariable]
         [(js "zip", VString (js "123"))]
       = Some result
       /\ errors result !! name zipVariable
          = Some (js "ZIP must be at least 5 characters")
       /\ errors result !! name zipVariable <> None
       /\ isValid result = false.
Proof.
  split; [reflexivity|]. split; [reflexivity|].
  eexists. split; [reflexivity|].
  repeat split; vm_compute; try reflexivity; discriminate.
Qed.

(** ** CRC-32 *)

Section Crc32Facts.
Local Open Scope Z_scope.

Lemma toUint32_range z : 0 <= toUint32 z < 2 ^ 32.
Proof. apply Z.mod_pos_bound. reflexivity. Qed.

Lemma toUint32_small z : 0 <= z < 2 ^ 32 -> toUint32 z = z.
Proof. apply Z.mod_small. Qed.

Lemma toUint32_bits z i :
  Z.testbit (toUint32 z) i = (i <? 32) && Z.testbit z i.
Proof. apply Z.testbit_mod_pow2. lia. Qed.

Lemma toUint32_toInt32 z : toUint32 (toInt32 z) = toUint32 z.
Proof.
  unfold toUint32, toInt32. rewrite Zminus_mod_idemp_l. f_equal. lia.
Qed.

Lemma toInt32_small z : 0 <= z < 2 ^ 31 -> toInt32 z = z.
Proof. intros H. unfold toInt32. rewrite Z.mod_small; lia. Qed.

Lemma toUint32_lxor a b :
  toUint32 (Z.lxor a b) = Z.lxor (toUint32 a) (toUint32 b).
Proof.
  apply Z.bits_inj'. intros i _.
  rewrite Z.lxor_spec, !toUint32_bits, Z.lxor_spec.
  destruct (i <? 32); reflexivity.
Qed.

Lemma toUint32_jsXor a b :
  toUint32 (jsXor a b) = Z.lxor (toUint32 a) (toUint32 b).
Proof.
  unfold jsXor. rewrite toUint32_toInt32, toUint32_lxor, !toUint32_toInt32.
  reflexivity.
Qed.

Lemma jsShiftRightUnsigned_8 a : jsShiftRightUnsigned a 8 = Z.shiftr (toUint32 a) 8.
Proof. reflexivity. Qed.

Lemma jsShiftRightUnsigned_0 a : jsShiftRightUnsigned a 0 = toUint32 a.
Proof. unfold jsShiftRightUnsigned. apply Z.shiftr_0_r. Qed.

Lemma land_255_range z : 0 <= Z.land z 255 < 256.
Proof.
  change 255 with (Z.ones 8). rewrite Z.land_ones by lia.
  apply Z.mod_pos_bound. reflexivity.
Qed.

Lemma jsAnd_255 a : jsAnd a 255 = Z.land (toUint32 a) 255.
Proof.
  unfold jsAnd. change (toInt32 255) with 255.
  rewrite toInt32_small by (pose proof (land_255_range (toInt32 a)); lia).
  apply Z.bits_inj'. intros i Hi.
  rewrite !Z.land_spec. change 255 with (Z.ones 8).
  rewrite Z.testbit_ones_nonneg by lia.
  destruct (Z.ltb_spec i 8) as [Hlt|Hge]; [|rewrite !andb_false_r; reflexivity].
  rewrite !andb_true_r.
  assert (H : Z.testbit (toUint32 (toInt32 a)) i = Z.testbit (toUint32 a) i)
    by (rewrite toUint32_toInt32; reflexivity).
  rewrite toUint32_bits in H.
  replace (i <? 32) with true in H by (symmetry; apply Z.ltb_lt; lia).
  exact H.
Qed.

(** One shift of the reference register is linear over [Z.lxor]. *)
Lemma crc32ReferenceBit_alt r :
  crc32ReferenceBit r = Z.lxor (Z.shiftr r 1) (polynomialIf (Z.testbit r 0)).
Proof.
  unfold crc32ReferenceBit, polynomialIf.
  destruct (Z.testbit r 0); [reflexivity | symmetry; apply Z.lxor_0_r].
Qed.

Lemma crc32ReferenceBit_lxor a b :
  crc32ReferenceBit (Z.lxor a b)
  = Z.lxor (crc32ReferenceBit a) (crc32ReferenceBit b).
Proof.
  rewrite !crc32ReferenceBit_alt, Z.shiftr_lxor, Z.lxor_spec.
  apply Z.bits_inj'. intros i _. rewrite !Z.lxor_spec.
  destruct (Z.testbit a 0), (Z.testbit b 0); simpl;
    rewrite ?Z.bits_0, ?xorb_false_r;
    destruct (Z.testbit (Z.shiftr a 1) i), (Z.testbit (Z.shiftr b 1) i),
      (Z.testbit 3988292384 i); reflexivity.
Qed.

Lemma iter_crc32ReferenceBit_lxor n a b :
  Nat.iter n crc32ReferenceBit (Z.lxor a b)
  = Z.lxor (Nat.iter n crc32ReferenceBit a) (Nat.iter n crc32ReferenceBit b).
Proof.
  induction n as [|n IH]; [reflexivity|].
  rewrite !Nat.iter_succ, IH. apply crc32ReferenceBit_lxor.
Qed.

(** A register whose low bits are clear is only shifted. *)
Lemma iter_crc32ReferenceBit_shiftl n y :
  Nat.iter n crc32ReferenceBit (Z.shiftl y (Z.of_nat n)) = y.
Proof.
  induction n as [|n IH]; [apply Z.shiftl_0_r|].
  rewrite Nat.iter_succ_r.
  replace (crc32ReferenceBit (Z.shiftl y (Z.of_nat (S n))))
    with (Z.shiftl y (Z.of_nat n)); [exact IH|].
  unfold crc32ReferenceBit.
  rewrite Z.shiftl_spec_low by lia.
  rewrite Z.shiftr_shiftl_l by lia. f_equal. lia.
Qed.

Lemma split_low_byte x :
  x = Z.lxor (Z.shiftl (Z.shiftr x 8) 8) (Z.land x 255).
Proof.
  apply Z.bits_inj'. intros i Hi.
  rewrite Z.lxor_spec, Z.land_spec. change 255 with (Z.ones 8).
  rewrite Z.testbit_ones_nonneg by lia.
  destruct (Z.ltb_spec i 8) as [Hlt|Hge].
  - rewrite Z.shiftl_spec_low by lia. rewrite andb_true_r. reflexivity.
  - rewrite Z.shiftl_spec by lia. rewrite Z.shiftr_spec by lia.
    rewrite andb_false_r, xorb_false_r. f_equal. lia.
Qed.

(** Eight shifts at once: the high part moves down, the low byte is looked
    up. *)
Lemma crc32Reference_byte_at_once x :
  Nat.iter 8 crc32ReferenceBit x
  = Z.lxor (Z.shiftr x 8) (Nat.iter 8 crc32ReferenceBit (Z.land x 255)).
Proof.
  rewrite (split_low_byte x) at 1.
  rewrite iter_crc32ReferenceBit_lxor.
  rewrite (iter_crc32ReferenceBit_shiftl 8). reflexivity.
Qed.

(** The table of the code holds, as signed numbers, the eight shifts of
    each byte. *)
Lemma getCrc32Table_entries :
  forallb (fun i =>
    toUint32 (nth i getCrc32Table 0) =? Nat.iter 8 crc32ReferenceBit (Z.of_nat i))
    (seq 0 256) = true.
Proof. vm_compute. reflexivity. Qed.

Lemma getCrc32Table_entry i :
  0 <= i < 256 ->
  toUint32 (nth (Z.to_nat i) getCrc32Table 0) = Nat.iter 8 crc32ReferenceBit i.
Proof.
  intros Hi. pose proof getCrc32Table_entries as H.
  rewrite forallb_forall in H. specialize (H (Z.to_nat i)).
  rewrite Z2Nat.id in H by lia. apply Z.eqb_eq, H, in_seq. lia.
Qed.

Lemma byteValue_range b : 0 <= byteValue b < 256.
Proof. unfold byteValue. pose proof (Byte.to_N_bounded b). lia. Qed.

Lemma shiftr_small_8 z : 0 <= z < 256 -> Z.shiftr z 8 = 0.
Proof. intros H. rewrite Z.shiftr_div_pow2 by lia. apply Z.div_small. exact H. Qed.

(** One turn of the loop of [crc32] is one byte of the reference. *)
Lemma crc32Step_reference crc b :
  toUint32 (crc32Step getCrc32Table crc b)
  = crc32ReferenceByte (toUint32 crc) b.
Proof.
  unfold crc32Step, crc32ReferenceByte.
  pose proof (byteValue_range b) as Hb.
  rewrite toUint32_jsXor, jsShiftRightUnsigned_8, jsAnd_255, toUint32_jsXor.
  rewrite (toUint32_small (byteValue b)) by lia.
  rewrite getCrc32Table_entry by apply land_255_range.
  rewrite (crc32Reference_byte_at_once (Z.lxor (toUint32 crc) (byteValue b))).
  rewrite Z.shiftr_lxor, (shiftr_small_8 (byteValue b)) by exact Hb.
  rewrite Z.lxor_0_r. f_equal. apply toUint32_small.
  pose proof (toUint32_range crc) as Hc. split; [apply Z.shiftr_nonneg; lia|].
  rewrite Z.shiftr_div_pow2 by lia.
  apply Z.le_lt_trans with (toUint32 crc); [|lia].
  apply Z.div_le_upper_bound; lia.
Qed.

Lemma crc32_loop_reference buffer :
  forall crc,
    toUint32 (fold_left (crc32Step getCrc32Table) buffer crc)
    = fold_left crc32ReferenceByte buffer (toUint32 crc).
Proof.
  induction buffer as [|b buffer IH]; intros crc; [reflexivity|].
  cbn [fold_left]. rewrite IH, crc32Step_reference. reflexivity.
Qed.

Lemma crc32_range buffer : 0 <= crc32 buffer < 2 ^ 32.
Proof.
  unfold crc32. cbv zeta. rewrite jsShiftRightUnsigned_0. apply toUint32_range.
Qed.

Lemma crc32_reference buffer : crc32 buffer = crc32Reference buffer.
Proof.
  unfold crc32, crc32Reference. cbv zeta.
  rewrite jsShiftRightUnsigned_0, toUint32_jsXor, crc32_loop_reference.
  reflexivity.
Qed.

(** C4: on every sequence of bytes [crc32] is the CRC-32 of the reference
    definition, an unsigned number of 32 bits; the two agree on the check
    text "123456789", whose CRC-32 is [0xCBF43926]. *)
Theorem crc32_is_reference buffer :
  crc32 buffer = crc32Reference buffer
  /\ 0 <= crc32 buffer < 2 ^ 32
  /\ crc32 (bytesOf "123456789") = 0xCBF43926.
Proof.
  assert (Heq : crc32 buffer = crc32Reference buffer).
  { unfold crc32, crc32Reference. cbv zeta.
    rewrite jsShiftRightUnsigned_0, toUint32_jsXor, crc32_loop_reference.
    reflexivity. }
  split; [exact Heq|]. split; [apply crc32_range | vm_compute; reflexivity].
Qed.
End Crc32Facts.

(** ** Buffers *)

Lemma byteValue_byteOfZ z : (0 <= z < 256)%Z -> byteValue (byteOfZ z) = z.
Proof.
  intros Hz. unfold byteValue, byteOfZ, byteOfN.
  destruct (Byte.of_N (Z.to_N z)) as [b|] eqn:Hb.
  - apply Byte.to_of_N in Hb. rewrite Hb. lia.
  - apply Byte.of_N_None_iff in Hb. lia.
Qed.

Lemma fitsUInt32_true v : (0 <= v <= 0xFFFFFFFF)%Z -> fitsUInt32 v = true.
Proof. intros H. unfold fitsUInt32. apply andb_true_iff. split; apply Z.leb_le; lia. Qed.

Lemma fitsUInt16_true v : (0 <= v <= 0xFFFF)%Z -> fitsUInt16 v = true.
Proof. intros H. unfold fitsUInt16. apply andb_true_iff. split; apply Z.leb_le; lia. Qed.

Lemma fitsUInt32_inv v : fitsUInt32 v = true -> (0 <= v <= 0xFFFFFFFF)%Z.
Proof. unfold fitsUInt32. intros H. apply andb_true_iff in H as [H1 H2]. lia. Qed.

Lemma fitsUInt16_inv v : fitsUInt16 v = true -> (0 <= v <= 0xFFFF)%Z.
Proof. unfold fitsUInt16. intros H. apply andb_true_iff in H as [H1 H2]. lia. Qed.

Lemma littleEndian32_value v b0 b1 b2 b3 rest :
  (0 <= v <= 0xFFFFFFFF)%Z ->
  littleEndian32 v ++ rest = b0 :: b1 :: b2 :: b3 :: rest ->
  (byteValue b0 + 256 * byteValue b1 + 65536 * byteValue b2
   + 16777216 * byteValue b3)%Z = v.
Proof.
  intros Hv Heq. injection Heq as <- <- <- <-.
  rewrite !byteValue_byteOfZ by (apply Z.mod_pos_bound; lia).
  Z.div_mod_to_equations. lia.
Qed.

Lemma littleEndian16_value v b0 b1 rest :
  (0 <= v <= 0xFFFF)%Z ->
  littleEndian16 v ++ rest = b0 :: b1 :: rest ->
  (byteValue b0 + 256 * byteValue b1)%Z = v.
Proof.
  intros Hv Heq. injection Heq as <- <-.
  rewrite !byteValue_byteOfZ by (apply Z.mod_pos_bound; lia).
  Z.div_mod_to_equations. lia.
Qed.

Lemma readUInt32LE_here v rest :
  (0 <= v <= 0xFFFFFFFF)%Z ->
  readUInt32LE (littleEndian32 v ++ rest) 0 = Some v.
Proof.
  intros Hv. unfold readUInt32LE. cbn [skipn littleEndian32 app].
  f_equal. apply (littleEndian32_value v _ _ _ _ rest Hv). reflexivity.
Qed.

Lemma readUInt16LE_here v rest :
  (0 <= v <= 0xFFFF)%Z ->
  readUInt16LE (littleEndian16 v ++ rest) 0 = Some v.
Proof.
  intros Hv. unfold readUInt16LE. cbn [skipn littleEndian16 app].
  f_equal. apply (littleEndian16_value v _ _ rest Hv). reflexivity.
Qed.

(** Reading behind a prefix. *)
Lemma readUInt32LE_app pre buf k :
  readUInt32LE (pre ++ buf) (length pre + k) = readUInt32LE buf k.
Proof. unfold readUInt32LE. rewrite drop_app_add. reflexivity. Qed.

Lemma readUInt16LE_app pre buf k :
  readUInt16LE (pre ++ buf) (length pre + k) = readUInt16LE buf k.
Proof. unfold readUInt16LE. rewrite drop_app_add. reflexivity. Qed.

Lemma subarray_app pre buf k size :
  subarray (pre ++ buf) (length pre + k) size = subarray buf k size.
Proof. unfold subarray. rewrite drop_app_add. reflexivity. Qed.

Lemma overwrite_app bs old post :
  length old = length bs -> overwrite bs (old ++ post) = bs ++ post.
Proof.
  revert old. induction bs as [|b bs IH]; intros [|o old] H; simpl in *;
    try discriminate; [reflexivity|].
  f_equal. apply IH. lia.
Qed.

Lemma overwrite_zeros bs k :
  overwrite bs (repeat x00 (length bs + k)) = bs ++ repeat x00 k.
Proof.
  rewrite repeat_app. apply overwrite_app. apply repeat_length.
Qed.

Lemma overwrite_all bs : overwrite bs (repeat x00 (length bs)) = bs.
Proof.
  rewrite <- (app_nil_r (repeat _ _)), overwrite_app by apply repeat_length.
  apply app_nil_r.
Qed.

Lemma blit_0 buf bs : blit buf 0 bs = overwrite bs buf.
Proof. destruct buf; reflexivity. Qed.

Lemma blit_app a b bs : blit (a ++ b) (length a) bs = a ++ overwrite bs b.
Proof. induction a as [|x a IH]; simpl; [destruct b; reflexivity|]. f_equal. exact IH. Qed.

Lemma crc32_fits buffer : fitsUInt32 (crc32 buffer) = true.
Proof.
  apply fitsUInt32_true.
  pose proof (crc32_range buffer). lia.
Qed.

(** ** The ZIP container *)

(** The writes of a header, evaluated on the zero bytes of [alloc]. *)
Ltac header_writes :=
  unfold writeUInt32LE, writeUInt16LE, copy;
  repeat first
    [ rewrite crc32_fits
    | match goal with
      | |- context [fitsUInt32 ?v] => rewrite (fitsUInt32_true v) by lia
      | |- context [fitsUInt16 ?v] => rewrite (fitsUInt16_true v) by lia
      end
    | progress cbn [mbind option_bind blit overwrite length Nat.leb Nat.add
                    andb littleEndian32 littleEndian16 app repeat alloc] ].

Lemma localHeaderOf_fits file :
  fitsUInt32 (Z.of_nat (length (bufferFromUtf8 (File.content file)))) = true ->
  fitsUInt16 (Z.of_nat (length (bufferFromUtf8 (File.name file)))) = true ->
  localHeaderOf file = Some (localRecord file).
Proof.
  intros Hc Hn. apply fitsUInt32_inv in Hc. apply fitsUInt16_inv in Hn.
  unfold localHeaderOf, localRecord.
  set (content := bufferFromUtf8 (File.content file)) in *.
  set (nameBuffer := bufferFromUtf8 (File.name file)) in *.
  cbv zeta. rewrite <- Nat.add_assoc.
  header_writes.
  rewrite blit_0, overwrite_zeros, blit_app, overwrite_all. reflexivity.
Qed.

Lemma localHeaderOf_spec file :
  localHeaderOf file
  = if fitsUInt32 (Z.of_nat (length (bufferFromUtf8 (File.content file))))
       && fitsUInt16 (Z.of_nat (length (bufferFromUtf8 (File.name file))))
    then Some (localRecord file) else None.
Proof.
  destruct (fitsUInt32 (Z.of_nat (length (bufferFromUtf8 (File.content file)))))
    eqn:Hc.
  - destruct (fitsUInt16 (Z.of_nat (length (bufferFromUtf8 (File.name file)))))
      eqn:Hn; cbn [andb].
    + apply localHeaderOf_fits; assumption.
    + unfold localHeaderOf. cbv zeta. apply fitsUInt32_inv in Hc as Hc'.
      header_writes. rewrite Hn. reflexivity.
  - unfold localHeaderOf. cbv zeta. header_writes. rewrite Hc. reflexivity.
Qed.

Lemma centralHeaderOf_spec file offset :
  centralHeaderOf file offset
  = if fileFits file offset then Some (centralRecord file offset) else None.
Proof.
  unfold fileFits, centralHeaderOf, centralRecord. cbv zeta.
  set (content := bufferFromUtf8 (File.content file)).
  set (nameBuffer := bufferFromUtf8 (File.name file)).
  destruct (fitsUInt32 (Z.of_nat (length content))) eqn:Hc;
    [apply fitsUInt32_inv in Hc as Hc'|header_writes; rewrite Hc; reflexivity].
  destruct (fitsUInt16 (Z.of_nat (length nameBuffer))) eqn:Hn;
    [apply fitsUInt16_inv in Hn as Hn'|header_writes; rewrite Hn; reflexivity].
  destruct (fitsUInt32 (Z.of_nat offset)) eqn:Ho;
    [apply fitsUInt32_inv in Ho as Ho'|header_writes; rewrite Ho; reflexivity].
  header_writes. rewrite blit_0, overwrite_all. reflexivity.
Qed.

Lemma endOfCentralDirOf_spec count centralDirSize centralDirOffset :
  endOfCentralDirOf count centralDirSize centralDirOffset
  = if fitsUInt16 (Z.of_nat count) && fitsUInt32 (Z.of_nat centralDirSize)
       && fitsUInt32 (Z.of_nat centralDirOffset)
    then Some (endRecord count centralDirSize centralDirOffset) else None.
Proof.
  unfold endOfCentralDirOf, endRecord. cbv zeta.
  destruct (fitsUInt16 (Z.of_nat count)) eqn:Hn;
    [apply fitsUInt16_inv in Hn as Hn'|header_writes; rewrite Hn; reflexivity].
  destruct (fitsUInt32 (Z.of_nat centralDirSize)) eqn:Hs;
    [apply fitsUInt32_inv in Hs as Hs'|header_writes; rewrite Hs; reflexivity].
  destruct (fitsUInt32 (Z.of_nat centralDirOffset)) eqn:Ho;
    [apply fitsUInt32_inv in Ho as Ho'|header_writes; rewrite Ho; reflexivity].
  header_writes. reflexivity.
Qed.

Lemma localRecord_length file : length (localRecord file) = localSize file.
Proof.
  unfold localRecord, localSize. cbv zeta.
  rewrite !length_app. cbn [length littleEndian32 littleEndian16]. lia.
Qed.

Lemma centralRecord_length file offset :
  length (centralRecord file offset) = centralSize file.
Proof.
  unfold centralRecord, centralSize. cbv zeta.
  rewrite !length_app. cbn [length littleEndian32 littleEndian16]. lia.
Qed.

Lemma totalSize_cons size file files :
  totalSize size (file :: files) = (size file + totalSize size files)%nat.
Proof. reflexivity. Qed.


Lemma zipFile_spec localHeaders centralHeaders offset file :
  zipFile (localHeaders, centralHeaders, offset) file
  = if fileFits file offset
    then Some (localHeaders ++ [localRecord file],
               centralHeaders ++ [centralRecord file offset],
               (offset + localSize file)%nat)
    else None.
Proof.
  unfold zipFile. rewrite localHeaderOf_spec, centralHeaderOf_spec.
  unfold fileFits.
  destruct (fitsUInt32 (Z.of_nat (length _))); [|reflexivity].
  destruct (fitsUInt16 _); [|reflexivity].
  destruct (fitsUInt32 _); [|reflexivity].
  cbn [andb mbind option_bind]. rewrite localRecord_length. reflexivity.
Qed.

Lemma zipFiles_spec files :
  forall localHeaders centralHeaders offset,
    zipFiles (localHeaders, centralHeaders, offset) files
    = if filesFit files offset
      then Some (localHeaders ++ map localRecord files,
                 centralHeaders ++ centralRecords files offset,
                 (offset + totalSize localSize files)%nat)
      else None.
Proof.
  induction files as [|file files IH]; intros localHeaders centralHeaders offset.
  - cbn. rewrite !app_nil_r, Nat.add_0_r. reflexivity.
  - cbn [zipFiles filesFit]. rewrite zipFile_spec.
    destruct (fileFits file offset); [|reflexivity].
    cbn [andb mbind option_bind]. rewrite IH.
    destruct (filesFit files _); [|reflexivity].
    cbn [map centralRecords]. rewrite totalSize_cons.
    rewrite <- !app_assoc, Nat.add_assoc. reflexivity.
Qed.

Lemma centralRecords_size files :
  forall offset sum,
    fold_left (fun sum h => (sum + length h)%nat) (centralRecords files offset) sum
    = (sum + totalSize centralSize files)%nat.
Proof.
  induction files as [|file files IH]; intros offset sum.
  - cbn. lia.
  - cbn [centralRecords fold_left]. rewrite IH, centralRecord_length.
    rewrite totalSize_cons. lia.
Qed.

(** The archive, record after record. *)
Lemma zipOf_spec files :
  zipOf files
  = if filesFit files 0
       && (fitsUInt16 (Z.of_nat (length files))
           && fitsUInt32 (Z.of_nat (totalSize centralSize files))
           && fitsUInt32 (Z.of_nat (totalSize localSize files)))
    then Some (concat (map localRecord files)
               ++ concat (centralRecords files 0)
               ++ endRecord (length files) (totalSize centralSize files)
                    (totalSize localSize files))
    else None.
Proof.
  unfold zipOf. rewrite zipFiles_spec.
  destruct (filesFit files 0); [|reflexivity].
  cbn [andb mbind option_bind app].
  rewrite centralRecords_size, endOfCentralDirOf_spec. cbn [Nat.add].
  destruct (_ && _ && _); [|reflexivity].
  cbn [mbind option_bind]. rewrite !concat_app. cbn [concat].
  rewrite app_nil_r. reflexivity.
Qed.

(** Reading the fields of a record back. *)
Ltac read_field :=
  unfold readUInt32LE, readUInt16LE;
  cbn [app skipn littleEndian32 littleEndian16];
  f_equal;
  rewrite !byteValue_byteOfZ by (apply Z.mod_pos_bound; lia);
  Z.div_mod_to_equations; lia.

Lemma localRecord_fields file rest :
  fitsUInt32 (Z.of_nat (length (bufferFromUtf8 (File.content file)))) = true ->
  fitsUInt16 (Z.of_nat (length (bufferFromUtf8 (File.name file)))) = true ->
  readUInt32LE (localRecord file ++ rest) 0 = Some 0x04034b50%Z
  /\ readUInt16LE (localRecord file ++ rest) 8 = Some 0%Z
  /\ readUInt32LE (localRecord file ++ rest) 14
     = Some (crc32 (bufferFromUtf8 (File.content file)))
  /\ readUInt32LE (localRecord file ++ rest) 18
     = Some (Z.of_nat (length (bufferFromUtf8 (File.content file))))
  /\ readUInt32LE (localRecord file ++ rest) 22
     = Some (Z.of_nat (length (bufferFromUtf8 (File.content file))))
  /\ readUInt16LE (localRecord file ++ rest) 26
     = Some (Z.of_nat (length (bufferFromUtf8 (File.name file))))
  /\ subarray (localRecord file ++ rest)
       (30 + length (bufferFromUtf8 (File.name file)))
       (length (bufferFromUtf8 (File.content file)))
     = bufferFromUtf8 (File.content file).
Proof.
  intros Hc Hn. apply fitsUInt32_inv in Hc. apply fitsUInt16_inv in Hn.
  pose proof (crc32_range (bufferFromUtf8 (File.content file))) as Hcrc.
  unfold localRecord. cbv zeta.
  set (content := bufferFromUtf8 (File.content file)) in *.
  set (nameBuffer := bufferFromUtf8 (File.name file)) in *.
  repeat split; try read_field.
  unfold subarray. cbn [app littleEndian32 littleEndian16 Nat.add skipn].
  rewrite <- app_assoc, drop_app_length, take_app_length. reflexivity.
Qed.

Lemma centralRecord_fields file offset rest :
  fileFits file offset = true ->
  readUInt32LE (centralRecord file offset ++ rest) 0 = Some 0x02014b50%Z
  /\ readUInt16LE (centralRecord file offset ++ rest) 10 = Some 0%Z
  /\ readUInt32LE (centralRecord file offset ++ rest) 16
     = Some (crc32 (bufferFromUtf8 (File.content file)))
  /\ readUInt32LE (centralRecord file offset ++ rest) 20
     = Some (Z.of_nat (length (bufferFromUtf8 (File.content file))))
  /\ readUInt32LE (centralRecord file offset ++ rest) 24
     = Some (Z.of_nat (length (bufferFromUtf8 (File.content file))))
  /\ readUInt16LE (centralRecord file offset ++ rest) 28
     = Some (Z.of_nat (length (bufferFromUtf8 (File.name file))))
  /\ readUInt32LE (centralRecord file offset ++ rest) 42
     = Some (Z.of_nat offset).
Proof.
  unfold fileFits. intros H.
  apply andb_true_iff in H as [H Ho]. apply andb_true_iff in H as [Hc Hn].
  apply fitsUInt32_inv in Hc. apply fitsUInt16_inv in Hn.
  apply fitsUInt32_inv in Ho.
  pose proof (crc32_range (bufferFromUtf8 (File.content file))) as Hcrc.
  unfold centralRecord. cbv zeta.
  set (content := bufferFromUtf8 (File.content file)) in *.
  set (nameBuffer := bufferFromUtf8 (File.name file)) in *.
  repeat split; read_field.
Qed.

Lemma endRecord_fields count centralDirSize centralDirOffset :
  fitsUInt16 (Z.of_nat count) = true ->
  fitsUInt32 (Z.of_nat centralDirSize) = true ->
  fitsUInt32 (Z.of_nat centralDirOffset) = true ->
  readUInt32LE (endRecord count centralDirSize centralDirOffset) 0
  = Some 0x06054b50%Z
  /\ readUInt16LE (endRecord count centralDirSize centralDirOffset) 8
     = Some (Z.of_nat count)
  /\ readUInt16LE (endRecord count centralDirSize centralDirOffset) 10
     = Some (Z.of_nat count)
  /\ readUInt32LE (endRecord count centralDirSize centralDirOffset) 12
     = Some (Z.of_nat centralDirSize)
  /\ readUInt32LE (endRecord count centralDirSize centralDirOffset) 16
     = Some (Z.of_nat centralDirOffset)
  /\ length (endRecord count centralDirSize centralDirOffset) = 22%nat.
Proof.
  intros Hn Hs Ho. apply fitsUInt16_inv in Hn. apply fitsUInt32_inv in Hs.
  apply fitsUInt32_inv in Ho. unfold endRecord.
  repeat split; try read_field.
Qed.

Lemma concat_localRecord_length files :
  length (concat (map localRecord files)) = totalSize localSize files.
Proof.
  induction files as [|file files IH]; [reflexivity|].
  cbn [map concat]. rewrite length_app, IH, localRecord_length. reflexivity.
Qed.

Lemma concat_centralRecords_length files :
  forall offset,
    length (concat (centralRecords files offset)) = totalSize centralSize files.
Proof.
  induction files as [|file files IH]; intros offset; [reflexivity|].
  cbn [centralRecords concat]. rewrite length_app, IH, centralRecord_length.
  reflexivity.
Qed.

Lemma centralRecords_app a b :
  forall offset,
    centralRecords (a ++ b) offset
    = centralRecords a offset
      ++ centralRecords b (offset + totalSize localSize a).
Proof.
  induction a as [|file a IH]; intros offset.
  - cbn. rewrite Nat.add_0_r. reflexivity.
  - cbn [app centralRecords]. rewrite IH, totalSize_cons, Nat.add_assoc.
    reflexivity.
Qed.

Lemma filesFit_app a b :
  forall offset,
    filesFit (a ++ b) offset
    = filesFit a offset && filesFit b (offset + totalSize localSize a).
Proof.
  induction a as [|file a IH]; intros offset.
  - cbn. rewrite Nat.add_0_r. reflexivity.
  - cbn [app filesFit]. rewrite IH, totalSize_cons, Nat.add_assoc, andb_assoc.
    reflexivity.
Qed.

(** The [i]th file of an archive: its local header, its content and its
    central directory header, at their offsets. *)
Lemma zip_file_records files i file :
  files !! i = Some file ->
  filesFit files 0 = true ->
  fileFits file (localOffset files i) = true
  /\ (exists rest,
        concat (map localRecord files)
        = concat (map localRecord (firstn i files)) ++ localRecord file ++ rest)
  /\ (exists rest,
        concat (centralRecords files 0)
        = concat (centralRecords (firstn i files) 0)
          ++ centralRecord file (localOffset files i) ++ rest).
Proof.
  intros Hi Hfit. unfold localOffset.
  rewrite <- (take_drop_middle files i file Hi) in Hfit.
  rewrite filesFit_app in Hfit. apply andb_true_iff in Hfit as [_ Hfit].
  cbn [filesFit Nat.add] in Hfit. apply andb_true_iff in Hfit as [Hfit _].
  split; [exact Hfit|]. split.
  - exists (concat (map localRecord (drop (S i) files))).
    rewrite <- (take_drop_middle files i file Hi) at 1.
    rewrite map_app, concat_app. reflexivity.
  - exists (concat (centralRecords (drop (S i) files)
              (totalSize localSize (firstn i files) + localSize file))).
    rewrite <- (take_drop_middle files i file Hi) at 1.
    rewrite centralRecords_app, concat_app. reflexivity.
Qed.

(** What can be read back from an archive of any list of files. *)
Lemma zipOf_roundtrip files zip :
  zipOf files = Some zip ->
  (forall i file,
     files !! i = Some file ->
     readUInt32LE zip (localOffset files i) = Some 0x04034b50%Z
     /\ readUInt16LE zip (localOffset files i + 8) = Some 0%Z
     /\ readUInt32LE zip (localOffset files i + 14)
        = Some (crc32 (bufferFromUtf8 (File.content file)))
     /\ readUInt32LE zip (localOffset files i + 18)
        = Some (Z.of_nat (length (bufferFromUtf8 (File.content file))))
     /\ readUInt32LE zip (localOffset files i + 22)
        = Some (Z.of_nat (length (bufferFromUtf8 (File.content file))))
     /\ subarray zip
          (localOffset files i + (30 + length (bufferFromUtf8 (File.name file))))
          (length (bufferFromUtf8 (File.content file)))
        = bufferFromUtf8 (File.content file)
     /\ readUInt32LE zip (totalSize localSize files + centralOffset files i)
        = Some 0x02014b50%Z
     /\ readUInt16LE zip (totalSize localSize files + centralOffset files i + 10)
        = Some 0%Z
     /\ readUInt32LE zip (totalSize localSize files + centralOffset files i + 16)
        = Some (crc32 (bufferFromUtf8 (File.content file)))
     /\ readUInt32LE zip (totalSize localSize files + centralOffset files i + 20)
        = Some (Z.of_nat (length (bufferFromUtf8 (File.content file))))
     /\ readUInt32LE zip (totalSize localSize files + centralOffset files i + 24)
        = Some (Z.of_nat (length (bufferFromUtf8 (File.content file))))
     /\ readUInt32LE zip (totalSize localSize files + centralOffset files i + 42)
        = Some (Z.of_nat (localOffset files i)))
  /\ readUInt32LE zip (totalSize localSize files + totalSize centralSize files)
     = Some 0x06054b50%Z
  /\ readUInt16LE zip (totalSize localSize files + totalSize centralSize files + 8)
     = Some (Z.of_nat (length files))
  /\ readUInt16LE zip (totalSize localSize files + totalSize centralSize files + 10)
     = Some (Z.of_nat (length files))
  /\ readUInt32LE zip (totalSize localSize files + totalSize centralSize files + 12)
     = Some (Z.of_nat (totalSize centralSize files))
  /\ readUInt32LE zip (totalSize localSize files + totalSize centralSize files + 16)
     = Some (Z.of_nat (totalSize localSize files))
  /\ length zip
     = (totalSize localSize files + totalSize centralSize files + 22)%nat.
Proof.
  rewrite zipOf_spec.
  destruct (filesFit files 0) eqn:Hfit; [|discriminate].
  destruct (fitsUInt16 (Z.of_nat (length files))) eqn:Hcount; [|discriminate].
  destruct (fitsUInt32 (Z.of_nat (totalSize centralSize files))) eqn:Hsize;
    [|discriminate].
  destruct (fitsUInt32 (Z.of_nat (totalSize localSize files))) eqn:Hoff;
    [|discriminate].
  cbn [andb]. intros Hzip. injection Hzip as <-.
  set (locals := concat (map localRecord files)).
  set (centrals := concat (centralRecords files 0)).
  set (eocd := endRecord _ _ _).
  assert (Hlocals : length locals = totalSize localSize files)
    by apply concat_localRecord_length.
  assert (Hcentrals : length centrals = totalSize centralSize files)
    by apply concat_centralRecords_length.
  split.
  - intros i file Hi.
    destruct (zip_file_records files i file Hi Hfit)
      as (Hfile & [lrest Hl] & [crest Hc]).
    pose proof Hfile as Hfile'. unfold fileFits in Hfile'.
    apply andb_true_iff in Hfile' as [Hfile' _].
    apply andb_true_iff in Hfile' as [Hfc Hfn].
    destruct (localRecord_fields file (lrest ++ centrals ++ eocd) Hfc Hfn)
      as (L0 & L8 & L14 & L18 & L22 & _ & Lc).
    destruct (centralRecord_fields file (localOffset files i) (crest ++ eocd) Hfile)
      as (C0 & C10 & C16 & C20 & C24 & _ & C42).
    assert (Hlo : localOffset files i
                  = length (concat (map localRecord (firstn i files))))
      by (symmetry; apply concat_localRecord_length).
    assert (Hco : centralOffset files i
                  = length (concat (centralRecords (firstn i files) 0)))
      by (symmetry; apply concat_centralRecords_length).
    assert (Hzl : locals ++ centrals ++ eocd
                  = concat (map localRecord (firstn i files))
                    ++ (localRecord file ++ lrest ++ centrals ++ eocd)).
    { unfold locals. rewrite Hl, <- !app_assoc. reflexivity. }
    assert (Hzc : locals ++ centrals ++ eocd
                  = locals ++ concat (centralRecords (firstn i files) 0)
                    ++ (centralRecord file (localOffset files i) ++ crest ++ eocd)).
    { unfold centrals. rewrite Hc, <- !app_assoc. reflexivity. }
    repeat split.
    + rewrite Hzl, Hlo, <- (Nat.add_0_r (length _)), readUInt32LE_app. exact L0.
    + rewrite Hzl, Hlo, readUInt16LE_app. exact L8.
    + rewrite Hzl, Hlo, readUInt32LE_app. exact L14.
    + rewrite Hzl, Hlo, readUInt32LE_app. exact L18.
    + rewrite Hzl, Hlo, readUInt32LE_app. exact L22.
    + rewrite Hzl, Hlo, subarray_app. exact Lc.
    + rewrite Hzc, <- Hlocals, Hco, <- (Nat.add_0_r (length (concat _))).
      rewrite readUInt32LE_app, readUInt32LE_app. exact C0.
    + rewrite Hzc, <- Hlocals, Hco, <- Nat.add_assoc.
      rewrite readUInt16LE_app, readUInt16LE_app. exact C10.
    + rewrite Hzc, <- Hlocals, Hco, <- Nat.add_assoc.
      rewrite readUInt32LE_app, readUInt32LE_app. exact C16.
    + rewrite Hzc, <- Hlocals, Hco, <- Nat.add_assoc.
      rewrite readUInt32LE_app, readUInt32LE_app. exact C20.
    + rewrite Hzc, <- Hlocals, Hco, <- Nat.add_assoc.
      rewrite readUInt32LE_app, readUInt32LE_app. exact C24.
    + rewrite Hzc, <- Hlocals, Hco, <- Nat.add_assoc.
      rewrite readUInt32LE_app, readUInt32LE_app. exact C42.
  - destruct (endRecord_fields (length files) (totalSize centralSize files)
                (totalSize localSize files) Hcount Hsize Hoff)
      as (E0 & E8 & E10 & E12 & E16 & Elen).
    fold eocd in E0, E8, E10, E12, E16, Elen.
    rewrite <- Hlocals, <- Hcentrals.
    rewrite <- (app_nil_r eocd) in E0, E8, E10, E12, E16.
    repeat split.
    + rewrite <- (Nat.add_0_r (length centrals)).
      rewrite readUInt32LE_app, readUInt32LE_app.
      rewrite <- (app_nil_r eocd). exact E0.
    + rewrite <- Nat.add_assoc, readUInt16LE_app, readUInt16LE_app.
      rewrite <- (app_nil_r eocd). exact E8.
    + rewrite <- Nat.add_assoc, readUInt16LE_app, readUInt16LE_app.
      rewrite <- (app_nil_r eocd). exact E10.
    + rewrite <- Nat.add_assoc, readUInt32LE_app, readUInt32LE_app.
      rewrite <- (app_nil_r eocd), Hcentrals. exact E12.
    + rewrite <- Nat.add_assoc, readUInt32LE_app, readUInt32LE_app.
      rewrite <- (app_nil_r eocd), Hlocals. exact E16.
    + rewrite !length_app, Elen. lia.
Qed.

(** An archive is returned when the sizes and offsets fit the 32 bits of
    their fields. *)
Lemma filesFit_small files :
  forall offset,
    Forall (fun file =>
      fitsUInt16 (Z.of_nat (length (bufferFromUtf8 (File.name file)))) = true)
      files ->
    (Z.of_nat (offset + totalSize localSize files) < 2 ^ 32)%Z ->
    filesFit files offset = true.
Proof.
  induction files as [|file files IH]; intros offset Hnames Hsize; [reflexivity|].
  apply Forall_cons in Hnames as [Hname Hnames].
  rewrite totalSize_cons in Hsize. cbn [filesFit].
  rewrite IH; [|exact Hnames|rewrite <- Nat.add_assoc; exact Hsize].
  unfold fileFits. rewrite Hname.
  unfold localSize in Hsize.
  rewrite !fitsUInt32_true by lia. reflexivity.
Qed.

Lemma docxFiles_names contentTypes rels documentRels documentContent :
  Forall (fun file =>
    fitsUInt16 (Z.of_nat (length (bufferFromUtf8 (File.name file)))) = true)
    (docxFiles contentTypes rels documentRels documentContent).
Proof. repeat constructor. Qed.

Lemma createMinimalDocxZip_returns contentTypes rels documentRels documentContent :
  (Z.of_nat
     (totalSize localSize
        (docxFiles contentTypes rels documentRels documentContent)
      + totalSize centralSize
          (docxFiles contentTypes rels documentRels documentContent))
   < 2 ^ 32)%Z ->
  exists zip,
    createMinimalDocxZip contentTypes rels documentRels documentContent
    = Some zip.
Proof.
  intros Hsize. unfold createMinimalDocxZip. rewrite zipOf_spec.
  rewrite filesFit_small; [|apply docxFiles_names|cbn [Nat.add]; lia].
  rewrite (fitsUInt16_true (Z.of_nat (length _))) by (cbn [docxFiles length]; lia).
  rewrite !fitsUInt32_true by lia.
  eexists. reflexivity.
Qed.

(** C3: in every archive that [createMinimalDocxZip] returns, for each of
    the four entries the local header, found at the sum of the sizes of the
    local headers and contents before it, carries the signature, the stored
    method, the CRC-32 of the content, which is the CRC-32 of the reference
    definition over the bytes stored, and twice its length, and is followed
    after the name by the content itself; the central directory header of the
    entry carries the same CRC-32 and lengths and the offset of that local
    header; and the end record, the last 22 bytes, counts 4 entries twice and
    gives the size of the central directory and the offset at which it
    starts. *)
Theorem createMinimalDocxZip_roundtrip
    contentTypes rels documentRels documentContent zip :
  createMinimalDocxZip contentTypes rels documentRels documentContent
  = Some zip ->
  (forall i file,
     docxFiles contentTypes rels documentRels documentContent !! i = Some file ->
     readUInt32LE zip
       (localOffset (docxFiles contentTypes rels documentRels documentContent) i)
     = Some 0x04034b50%Z
     /\ readUInt16LE zip
          (localOffset (docxFiles contentTypes rels documentRels documentContent) i
           + 8)
        = Some 0%Z
     /\ readUInt32LE zip
          (localOffset (docxFiles contentTypes rels documentRels documentContent) i
           + 14)
        = Some (crc32Reference (bufferFromUtf8 (File.content file)))
     /\ readUInt32LE zip
          (localOffset (docxFiles contentTypes rels documentRels documentContent) i
           + 18)
        = Some (Z.of_nat (length (bufferFromUtf8 (File.content file))))
     /\ readUInt32LE zip
          (localOffset (docxFiles contentTypes rels documentRels documentContent) i
           + 22)
        = Some (Z.of_nat (length (bufferFromUtf8 (File.content file))))
     /\ subarray zip
          (localOffset (docxFiles contentTypes rels documentRels documentContent) i
           + (30 + length (bufferFromUtf8 (File.name file))))
          (length (bufferFromUtf8 (File.content file)))
        = bufferFromUtf8 (File.content file)
     /\ readUInt32LE zip
          (totalSize localSize
             (docxFiles contentTypes rels documentRels documentContent)
           + centralOffset
               (docxFiles contentTypes rels documentRels documentContent) i)
        = Some 0x02014b50%Z
     /\ readUInt16LE zip
          (totalSize localSize
             (docxFiles contentTypes rels documentRels documentContent)
           + centralOffset
               (docxFiles contentTypes rels documentRels documentContent) i
           + 10)
        = Some 0%Z
     /\ readUInt32LE zip
          (totalSize localSize
             (docxFiles contentTypes rels documentRels documentContent)
           + centralOffset
               (docxFiles contentTypes rels documentRels documentContent) i
           + 16)
        = Some (crc32Reference (bufferFromUtf8 (File.content file)))
     /\ readUInt32LE zip
          (totalSize localSize
             (docxFiles contentTypes rels documentRels documentContent)
           + centralOffset
               (docxFiles contentTypes rels documentRels documentContent) i
           + 20)
        = Some (Z.of_nat (length (bufferFromUtf8 (File.content file))))
     /\ readUInt32LE zip
          (totalSize localSize
             (docxFiles contentTypes rels documentRels documentContent)
           + centralOffset
               (docxFiles contentTypes rels documentRels documentContent) i
           + 24)
        = Some (Z.of_nat (length (bufferFromUtf8 (File.content file))))
     /\ readUInt32LE zip
          (totalSize localSize
             (docxFiles contentTypes rels documentRels documentContent)
           + centralOffset
               (docxFiles contentTypes rels documentRels documentContent) i
           + 42)
        = Some (Z.of_nat
                  (localOffset
                     (docxFiles contentTypes rels documentRels documentContent)
                     i)))
  /\ readUInt32LE zip
       (totalSize localSize
          (docxFiles contentTypes rels documentRels documentContent)
        + totalSize centralSize
            (docxFiles contentTypes rels documentRels documentContent))
     = Some 0x06054b50%Z
  /\ readUInt16LE zip
       (totalSize localSize
          (docxFiles contentTypes rels documentRels documentContent)
        + totalSize centralSize
            (docxFiles contentTypes rels documentRels documentContent)
        + 8)
     = Some 4%Z
  /\ readUInt16LE zip
       (totalSize localSize
          (docxFiles contentTypes rels documentRels documentContent)
        + totalSize centralSize
            (docxFiles contentTypes rels documentRels documentContent)
        + 10)
     = Some 4%Z
  /\ readUInt32LE zip
       (totalSize localSize
          (docxFiles contentTypes rels documentRels documentContent)
        + totalSize centralSize
            (docxFiles contentTypes rels documentRels documentContent)
        + 12)
     = Some (Z.of_nat
               (totalSize centralSize
                  (docxFiles contentTypes rels documentRels documentContent)))
  /\ readUInt32LE zip
       (totalSize localSize
          (docxFiles contentTypes rels documentRels documentContent)
        + totalSize centralSize
            (docxFiles contentTypes rels documentRels documentContent)
        + 16)
     = Some (Z.of_nat
               (totalSize localSize
                  (docxFiles contentTypes rels documentRels documentContent)))
  /\ length zip
     = (totalSize localSize
          (docxFiles contentTypes rels documentRels documentContent)
        + totalSize centralSize
            (docxFiles contentTypes rels documentRels documentContent)
        + 22)%nat.
Proof.
  intros Hzip. destruct (zipOf_roundtrip _ _ Hzip) as [Hfiles Hend].
  split; [|exact Hend]. intros i file Hi.
  specialize (Hfiles i file Hi). rewrite !crc32_reference in Hfiles.
  exact Hfiles.
Qed.

Lemma createMinimalDocxZip_roundtrip_witness :
  exists zip,
    createMinimalDocxZip (js "<Types/>") (js "<Relationships/>") []
      [60; 119; 58; 116; 62; 0x2022; 60; 47; 119; 58; 116; 62]
    = Some zip
    /\ length zip = 514%nat
    /\ readUInt32LE zip 14
       = Some (crc32Reference (bufferFromUtf8 (js "<Types/>")))
    /\ readUInt32LE zip (233 + 16)
       = Some (crc32Reference (bufferFromUtf8 (js "<Types/>")))
    /\ readUInt32LE zip 233 = Some 0x02014b50%Z
    /\ readUInt32LE zip (233 + 196 + 42) = Some 172%Z
    /\ readUInt16LE zip (233 + 259 + 8) = Some 4%Z.
Proof.
  destruct (createMinimalDocxZip (js "<Types/>") (js "<Relationships/>") []
              [60; 119; 58; 116; 62; 0x2022; 60; 47; 119; 58; 116; 62])
    as [zip|] eqn:Hzip; [|vm_compute in Hzip; discriminate].
  exists zip. split; [reflexivity|].
  pose proof (createMinimalDocxZip_roundtrip _ _ _ _ zip Hzip) as [Hfiles Hend].
  destruct Hend as (_ & E8 & _ & _ & _ & Elen).
  destruct (Hfiles 0%nat _ eq_refl)
    as (_ & _ & L14 & _ & _ & _ & C0 & _ & C16 & _).
  destruct (Hfiles 3%nat _ eq_refl)
    as (_ & _ & _ & _ & _ & _ & _ & _ & _ & _ & _ & C42).
  split; [exact Elen|]. split; [exact L14|]. split; [exact C16|].
  split; [exact C0|]. split; [exact C42 | exact E8].
Defined.

(** ** The fallback PDF and DOCX *)

(** What holds of every text: the number of pages, the number of offsets,
    and the offsets as positions in the string. *)
Lemma linesPerPage_46 : linesPerPage = 46%nat.
Proof. reflexivity. Qed.

Lemma paginateFrom_length wrappedLines fuel :
  forall i,
    (length wrappedLines - i <= fuel)%nat ->
    length (paginateFrom fuel i wrappedLines)
    = ((length wrappedLines - i + 45) / 46)%nat.
Proof.
  induction fuel as [|fuel IH]; intros i Hfuel.
  - cbn [paginateFrom length]. replace (length wrappedLines - i)%nat with 0%nat by lia.
    reflexivity.
  - cbn [paginateFrom]. destruct (Nat.ltb_spec i (length wrappedLines)) as [Hlt|Hge].
    + cbn [length]. rewrite linesPerPage_46. rewrite IH by lia.
      zify; Z.div_mod_to_equations; lia.
    + replace (length wrappedLines - i)%nat with 0%nat by lia. reflexivity.
Qed.

(** With [n >= 1] lines there are [ceil (n / 46)] pages. *)
Lemma pagesOf_length wrappedLines :
  wrappedLines <> [] ->
  length (pagesOf wrappedLines) = ((length wrappedLines + 45) / 46)%nat
  /\ (length wrappedLines <= 46 * length (pagesOf wrappedLines))%nat
  /\ (46 * (length (pagesOf wrappedLines) - 1) < length wrappedLines)%nat.
Proof.
  intros Hne.
  assert (Hlen : (1 <= length wrappedLines)%nat)
    by (destruct wrappedLines; [congruence | simpl; lia]).
  pose proof (paginateFrom_length wrappedLines (length wrappedLines) 0
                ltac:(lia)) as Hp.
  rewrite Nat.sub_0_r in Hp. unfold pagesOf.
  destruct (paginateFrom (length wrappedLines) 0 wrappedLines) as [|page pages]
    eqn:Hpages.
  - cbn [length] in Hp. exfalso. zify; Z.div_mod_to_equations; lia.
  - rewrite Hp. zify; Z.div_mod_to_equations; lia.
Qed.

Lemma pagesOf_nonempty wrappedLines : pagesOf wrappedLines <> [].
Proof.
  unfold pagesOf. destruct (paginateFrom _ _ _); discriminate.
Qed.

Lemma objectsOf_length pages :
  length (objectsOf pages) = (3 + 2 * length pages)%nat.
Proof.
  unfold objectsOf. cbv zeta.
  rewrite !length_app, length_map, length_seq, length_imap. cbn [length]. lia.
Qed.

Lemma appendObjects_spec objects :
  forall pdf offsets,
    fold_left appendObject objects (pdf, offsets)
    = (fold_left (fun pdf obj => pdf ++ obj ++ [10]) objects pdf,
       offsets
       ++ map (fun k =>
                 length (fold_left (fun pdf obj => pdf ++ obj ++ [10])
                           (firstn k objects) pdf))
            (seq 0 (length objects))).
Proof.
  induction objects as [|obj objects IH]; intros pdf offsets.
  - cbn. rewrite app_nil_r. reflexivity.
  - cbn [fold_left appendObject length seq map]. rewrite IH.
    rewrite <- seq_shift, map_map, <- app_assoc. reflexivity.
Qed.

Lemma pdfOf_offsets objects :
  snd (pdfOf objects)
  = map (fun k =>
           length (fold_left (fun pdf obj => pdf ++ obj ++ [10])
                     (firstn k objects) (js "%PDF-1.4" ++ [10])))
      (seq 0 (length objects)).
Proof.
  unfold pdfOf. cbv zeta. rewrite appendObjects_spec. reflexivity.
Qed.

Lemma bufferFromUtf8_ascii s :
  isAscii s = true -> length (bufferFromUtf8 s) = length s.
Proof.
  induction s as [|c s IH]; [reflexivity|].
  cbn [isAscii forallb]. intros H. apply andb_true_iff in H as [Hc Hs].
  cbn [bufferFromUtf8]. rewrite Hc. cbn [length]. f_equal. exact (IH Hs).
Qed.

Lemma isAscii_app a b : isAscii (a ++ b) = isAscii a && isAscii b.
Proof. apply forallb_app. Qed.

Lemma appendObjects_ascii objects :
  forall pdf,
    isAscii pdf = true ->
    forallb isAscii objects = true ->
    isAscii (fold_left (fun pdf obj => pdf ++ obj ++ [10]) objects pdf) = true.
Proof.
  induction objects as [|obj objects IH]; intros pdf Hpdf Hobjs; [exact Hpdf|].
  cbn [forallb fold_left] in *. apply andb_true_iff in Hobjs as [Hobj Hobjs].
  apply IH; [|exact Hobjs]. rewrite !isAscii_app, Hpdf, Hobj. reflexivity.
Qed.

Lemma nth_map_seq {A} (F : nat -> A) n k d :
  (k < n)%nat -> nth k (map F (seq 0 n)) d = F k.
Proof.
  intros Hk.
  rewrite (nth_indep _ d (F 0%nat)) by (rewrite length_map, length_seq; exact Hk).
  rewrite (map_nth F), seq_nth by exact Hk. reflexivity.
Qed.

(** Every offset counts the characters of the string before the object;
    while these are ASCII, the object begins at that byte of the buffer. *)
Lemma pdfOf_offsets_ascii objects k :
  forallb isAscii objects = true ->
  (k < length objects)%nat ->
  nth k (snd (pdfOf objects)) 0%nat = objectStart objects k.
Proof.
  intros Hascii Hk. rewrite pdfOf_offsets, nth_map_seq by exact Hk.
  unfold objectStart. symmetry. apply bufferFromUtf8_ascii.
  apply appendObjects_ascii; [reflexivity|].
  rewrite <- (firstn_skipn k objects), forallb_app in Hascii.
  apply andb_true_iff in Hascii as [H _]. exact H.
Qed.

Lemma pdfOf_offsets_length objects :
  length (snd (pdfOf objects)) = length objects.
Proof. rewrite pdfOf_offsets, length_map, length_seq. reflexivity. Qed.

(** ** The fallback DOCX *)

Lemma split_nonempty sep s : split sep s <> [].
Proof.
  destruct s as [|c s]; [discriminate|]. cbn [split].
  destruct (c =? sep); [discriminate|]. destruct (split sep s); discriminate.
Qed.

Lemma paragraphOf_opens line :
  exists rest, paragraphOf line = js "<w:p>" ++ rest.
Proof.
  unfold paragraphOf, headingParagraph.
  destruct (trim line); [eexists; reflexivity|].
  destruct (headingMatch (js "# ") line); [eexists; reflexivity|].
  destruct (headingMatch (js "## ") line); [eexists; reflexivity|].
  destruct (headingMatch (js "### ") line); eexists; reflexivity.
Qed.

Lemma paragraphOf_blank line :
  trim line = [] -> paragraphOf line = js "<w:p><w:r><w:t></w:t></w:r></w:p>".
Proof. intros H. unfold paragraphOf. rewrite H. reflexivity. Qed.

Lemma documentXmlOf_paragraphs markdownContent :
  documentXmlOf markdownContent
  = concat (map paragraphOf (split 10 markdownContent)).
Proof.
  unfold documentXmlOf.
  assert (H : forall lines acc,
             fold_left (fun documentXml line => documentXml ++ paragraphOf line)
               lines acc
             = acc ++ concat (map paragraphOf lines)).
  { induction lines as [|line lines IH]; intros acc; cbn.
    - symmetry. apply app_nil_r.
    - rewrite IH, <- app_assoc. reflexivity. }
  apply (H _ []).
Qed.

(** Every text gives one paragraph at least: one for each of its lines,
    the blank ones too. *)
Lemma documentXmlOf_opens markdownContent :
  exists rest, documentXmlOf markdownContent = js "<w:p>" ++ rest.
Proof.
  rewrite documentXmlOf_paragraphs.
  destruct (split 10 markdownContent) as [|line lines] eqn:Hs.
  - exfalso. exact (split_nonempty _ _ Hs).
  - cbn [map concat]. destruct (paragraphOf_opens line) as [rest ->].
    exists (rest ++ concat (map paragraphOf lines)).
    rewrite <- app_assoc. reflexivity.
Qed.

(** ** The placeholder page is never written *)

Lemma trimStart_trimmedStart s : trimmedStart (trimStart s).
Proof.
  induction s as [|c s IH]; [left; reflexivity|].
  cbn [trimStart]. destruct (isSpace c) eqn:Hc; [exact IH|].
  right. exists c, s. split; [reflexivity | exact Hc].
Qed.

Lemma trimStart_last a c :
  isSpace c = false -> exists a', trimStart (a ++ [c]) = a' ++ [c].
Proof.
  intros Hc. induction a as [|d a IH]; cbn [app trimStart].
  - rewrite Hc. exists []. reflexivity.
  - destruct (isSpace d); [exact IH|]. exists (d :: a). reflexivity.
Qed.

Lemma trimEnd_trimmedStart s : trimmedStart s -> trimmedStart (trimEnd s).
Proof.
  intros [->|(c & t & -> & Hc)]; [left; reflexivity|].
  right. unfold trimEnd. change (rev (c :: t)) with (rev t ++ [c]).
  destruct (trimStart_last (rev t) c Hc) as [a' ->].
  rewrite rev_app_distr. exists c, (rev a'). split; [reflexivity | exact Hc].
Qed.

Lemma trim_trimmedStart s : trimmedStart (trim s).
Proof. apply trimEnd_trimmedStart, trimStart_trimmedStart. Qed.

Lemma trimStart_hasInk s : hasInk s = true -> hasInk (trimStart s) = true.
Proof.
  induction s as [|c s IH]; [discriminate|].
  cbn [trimStart hasInk existsb]. destruct (isSpace c) eqn:Hc.
  - cbn [negb orb]. exact IH.
  - intros _. cbn [hasInk existsb]. rewrite Hc. reflexivity.
Qed.

Lemma hasInk_rev s : hasInk (rev s) = hasInk s.
Proof.
  unfold hasInk. induction s as [|c s IH]; [reflexivity|].
  change (rev (c :: s)) with (rev s ++ [c]).
  rewrite existsb_app, IH. cbn [existsb]. rewrite orb_false_r. apply orb_comm.
Qed.

Lemma trim_hasInk s : hasInk s = true -> hasInk (trim s) = true.
Proof.
  intros H. unfold trim, trimEnd. rewrite hasInk_rev.
  apply trimStart_hasInk. rewrite hasInk_rev. apply trimStart_hasInk, H.
Qed.

Lemma hasInk_nonempty s : hasInk s = true -> s <> [].
Proof. intros H ->. discriminate. Qed.

Lemma split_head sep c t :
  (c =? sep) = false ->
  exists piece pieces, split sep (c :: t) = (c :: piece) :: pieces.
Proof.
  intros Hc. cbn [split]. rewrite Hc.
  destruct (split sep t) as [|piece pieces]; eexists _, _; reflexivity.
Qed.

Lemma wrapWord_invariant st word :
  wrapInvariant st -> wrapInvariant (wrapWord st word).
Proof.
  destruct st as [wrappedLines currentLine]. unfold wrapInvariant, wrapWord.
  cbn [fst snd]. intros [Hw|Hc].
  - left. destruct (_ <=? _)%nat; cbn [fst]; [exact Hw|].
    destruct currentLine; [exact Hw|]. destruct wrappedLines; discriminate.
  - destruct (_ <=? _)%nat; cbn [fst snd].
    + right. apply trim_hasInk. unfold hasInk in *.
      rewrite existsb_app, Hc. reflexivity.
    + left. destruct currentLine; [discriminate|].
      destruct wrappedLines; discriminate.
Qed.

Lemma fold_wrapWord_invariant words :
  forall st, wrapInvariant st -> wrapInvariant (fold_left wrapWord words st).
Proof.
  induction words as [|word words IH]; intros st Hst; [exact Hst|].
  cbn [fold_left]. apply IH, wrapWord_invariant, Hst.
Qed.

Lemma wrapWord_first word :
  hasInk word = true -> wrapInvariant (wrapWord ([], []) word).
Proof.
  intros Hw. unfold wrapInvariant, wrapWord.
  destruct (_ <=? _)%nat; cbn [fst snd]; right; [|exact Hw].
  apply trim_hasInk. unfold hasInk in *. cbn [app existsb].
  rewrite Hw. apply orb_true_r.
Qed.

Lemma wrapLine_extends wrappedLines line :
  exists more, wrapLine wrappedLines line = wrappedLines ++ more.
Proof.
  unfold wrapLine. destruct (_ <=? _)%nat; [eexists; reflexivity|].
  assert (H : forall words w cur,
             exists more, fst (fold_left wrapWord words (w, cur)) = w ++ more).
  { induction words as [|word words IH]; intros w cur.
    - exists []. symmetry. apply app_nil_r.
    - cbn [fold_left wrapWord]. destruct (_ <=? _)%nat; [apply IH|].
      destruct cur as [|c cur]; [apply IH|].
      destruct (IH (w ++ [c :: cur]) word) as [more ->].
      eexists. rewrite <- app_assoc. reflexivity. }
  destruct (H (split 32 line) wrappedLines []) as [more Hmore].
  destruct (fold_left wrapWord (split 32 line) (wrappedLines, []))
    as [w cur]. cbn [fst] in Hmore. subst w.
  destruct cur; [eexists; reflexivity|].
  eexists. rewrite <- app_assoc. reflexivity.
Qed.

Lemma fold_wrapLine_nonempty lines :
  forall wrappedLines,
    wrappedLines <> [] -> fold_left wrapLine lines wrappedLines <> [].
Proof.
  induction lines as [|line lines IH]; intros w Hw; [exact Hw|].
  cbn [fold_left]. apply IH.
  destruct (wrapLine_extends w line) as [more ->].
  destruct w; [congruence | discriminate].
Qed.

Lemma wrapLine_first c t :
  isSpace c = false -> wrapLine [] (c :: t) <> [].
Proof.
  intros Hc. unfold wrapLine. destruct (_ <=? _)%nat; [discriminate|].
  assert (H32 : (c =? 32) = false).
  { destruct (N.eqb_spec c 32) as [->|]; [discriminate | reflexivity]. }
  destruct (split_head 32 c t H32) as (piece & pieces & ->).
  cbn [fold_left].
  assert (Hinv : wrapInvariant
                   (fold_left wrapWord pieces (wrapWord ([], []) (c :: piece)))).
  { apply fold_wrapWord_invariant, wrapWord_first.
    cbn [hasInk existsb]. rewrite Hc. reflexivity. }
  destruct (fold_left wrapWord pieces _) as [w cur].
  unfold wrapInvariant in Hinv. cbn [fst snd] in Hinv.
  destruct Hinv as [Hw|Hcur].
  - destruct cur; [exact Hw|]. destruct w; discriminate.
  - destruct cur; [discriminate|]. destruct w; discriminate.
Qed.

Lemma wrappedLinesOf_nonempty plainText :
  trimmedStart plainText -> wrappedLinesOf plainText <> [].
Proof.
  unfold wrappedLinesOf. intros [->|(c & t & -> & Hc)].
  - discriminate.
  - assert (H10 : (c =? 10) = false).
    { destruct (N.eqb_spec c 10) as [->|]; [discriminate | reflexivity]. }
    destruct (split_head 10 c t H10) as (piece & pieces & ->).
    cbn [fold_left]. apply fold_wrapLine_nonempty, wrapLine_first, Hc.
Qed.

Lemma paginateFrom_nonempty wrappedLines :
  wrappedLines <> [] ->
  paginateFrom (length wrappedLines) 0 wrappedLines <> [].
Proof.
  destruct wrappedLines as [|line wrappedLines]; [congruence|].
  intros _. discriminate.
Qed.

(** The pages of every text are pages of its own lines. *)
Lemma pdfPages_own_lines markdownContent :
  pdfPages markdownContent
  = paginateFrom (length (wrappedLinesOf (plainTextOf markdownContent))) 0
      (wrappedLinesOf (plainTextOf markdownContent))
  /\ wrappedLinesOf (plainTextOf markdownContent) <> [].
Proof.
  assert (Hne : wrappedLinesOf (plainTextOf markdownContent) <> []).
  { apply wrappedLinesOf_nonempty. unfold plainTextOf. cbv zeta.
    apply trim_trimmedStart. }
  split; [|exact Hne]. unfold pdfPages, pagesOf.
  pose proof (paginateFrom_nonempty _ Hne) as Hp.
  destruct (paginateFrom _ _ _); [congruence | reflexivity].
Qed.

(** C2: for the 47 lines of [twoPages] there are two pages and seven
    offsets, one for each object, but the offset written for object 7, 1663,
    is two bytes short of the byte at which ["7 0 obj"] begins in the
    buffer returned, 1665: offsets are lengths of the string, and the bullet
    in the stream of the first page is one character and three bytes. *)
Theorem pdf_offsets_two_pages :
  length (wrappedLinesOf (plainTextOf twoPages)) = 47%nat
  /\ length (pdfPages twoPages) = 2%nat
  /\ length (objectsOf (pdfPages twoPages)) = 7%nat
  /\ pdfOffsets twoPages = [9; 58; 121; 193; 319; 445; 1663]%nat
  /\ map (objectStart (objectsOf (pdfPages twoPages))) (seq 0 7)
     = [9; 58; 121; 193; 319; 445; 1665]%nat
  /\ subarray (generateFallbackPdf twoPages) 1665 7 = bytesOf "7 0 obj"
  /\ subarray (generateFallbackPdf twoPages) 1663 7 <> bytesOf "7 0 obj"
  /\ subarray (generateFallbackPdf twoPages) 445 7 = bytesOf "6 0 obj".
Proof. repeat split; vm_compute; try reflexivity; discriminate. Qed.

(** C8: for the empty string, and for blanks and for line feeds only, there
    is one page, but the page holds one empty line and not the placeholder:
    [split] gives one line at least and every line that is not long is kept,
    so that for every text the pages are pages of its own lines and the
    placeholder page is never written.  The DOCX body has one paragraph for
    each line, an empty one for a line that is blank. *)
Theorem empty_content_export :
  pdfPages [] = [[[]]]
  /\ pdfPages (js "   ") = [[[]]]
  /\ pdfPages [10; 10] = [[[]]]
  /\ nth 4 (objectsOf (pdfPages [])) []
     = js "5 0 obj" ++ [10] ++ js "<< /Length 39 >>" ++ [10] ++ js "stream"
       ++ [10] ++ js "BT" ++ [10] ++ js "/F1 11 Tf" ++ [10]
       ++ js "1 0 0 1 72 720 Tm" ++ [10] ++ js "() Tj" ++ [10] ++ js "ET"
       ++ [10] ++ js "endstream" ++ [10] ++ js "endobj"
  /\ includes placeholderLine (fst (pdfOf (objectsOf (pdfPages [])))) = false
  /\ (forall markdownContent,
        pdfPages markdownContent
        = paginateFrom (length (wrappedLinesOf (plainTextOf markdownContent))) 0
            (wrappedLinesOf (plainTextOf markdownContent))
        /\ pdfPages markdownContent <> [])
  /\ documentXmlOf [] = js "<w:p><w:r><w:t></w:t></w:r></w:p>"
  /\ documentXmlOf [10]
     = js "<w:p><w:r><w:t></w:t></w:r></w:p><w:p><w:r><w:t></w:t></w:r></w:p>"
  /\ (forall markdownContent,
        documentXmlOf markdownContent
        = concat (map paragraphOf (split 10 markdownContent))
        /\ split 10 markdownContent <> []
        /\ exists rest, documentXmlOf markdownContent = js "<w:p>" ++ rest).
Proof.
  do 5 (split; [vm_compute; reflexivity|]).
  split; [intros m; split; [apply pdfPages_own_lines | apply pagesOf_nonempty]|].
  do 2 (split; [vm_compute; reflexivity|]).
  intros m. split; [apply documentXmlOf_paragraphs|].
  split; [apply split_nonempty | apply documentXmlOf_opens].
Qed.

(** ** Replacing a character *)

Lemma getSubstitution_noDollar matched before after r :
  noDollar r = true -> getSubstitution matched before after r = r.
Proof.
  unfold noDollar. induction r as [|c r IH]; [reflexivity|].
  cbn [forallb getSubstitution]. intros H. apply andb_true_iff in H as [Hc H].
  apply negb_true_iff in Hc. rewrite Hc, (IH H). reflexivity.
Qed.

(** A global replace of one character by a text rewrites the characters one
    by one. *)
Lemma replaceFrom_char c r s :
  noDollar r = true ->
  forall pre,
    replaceFrom (withString (literalRegex [c]) r) pre 0 s
    = flat_map (fun d => if d =? c then r else [d]) s.
Proof.
  intros Hr. induction s as [|d s IH]; intros pre; [reflexivity|].
  rewrite replaceFrom_cons. unfold withString at 1, literalRegex at 1.
  cbn [lit flat_map]. rewrite (N.eqb_sym c d).
  destruct (d =? c).
  - replace (length (d :: s) - length s)%nat with 1%nat by (simpl; lia).
    rewrite getSubstitution_noDollar by exact Hr. rewrite IH. reflexivity.
  - rewrite IH. reflexivity.
Qed.

Lemma replaceAll_char c r s :
  noDollar r = true ->
  replaceAll (withString (literalRegex [c]) r) s
  = flat_map (fun d => if d =? c then r else [d]) s.
Proof. intros Hr. apply replaceFrom_char. exact Hr. Qed.

Lemma flat_map_flat_map {A B C} (f : A -> list B) (g : B -> list C) l :
  flat_map g (flat_map f l) = flat_map (fun x => flat_map g (f x)) l.
Proof.
  induction l as [|x l IH]; [reflexivity|].
  cbn [flat_map]. rewrite flat_map_app, IH. reflexivity.
Qed.

Lemma escapeXml_chars text : escapeXml text = flat_map escapeXmlChar text.
Proof.
  unfold escapeXml. cbv zeta.
  change (js "&") with [38]. change (js "<") with [60].
  change (js ">") with [62]. change (js "'") with [39].
  rewrite !replaceAll_char by reflexivity.
  rewrite !flat_map_flat_map. apply flat_map_ext. intros c.
  unfold escapeXmlChar.
  destruct (N.eqb_spec c 38) as [->|H38]; [reflexivity|].
  destruct (N.eqb_spec c 60) as [->|H60]; [reflexivity|].
  destruct (N.eqb_spec c 62) as [->|H62]; [reflexivity|].
  destruct (N.eqb_spec c 34) as [->|H34]; [reflexivity|].
  destruct (N.eqb_spec c 39) as [->|H39]; [reflexivity|].
  cbn [flat_map app].
  repeat match goal with
         | |- context [?x =? ?y] =>
             destruct (N.eqb_spec x y); [congruence|]; cbn [flat_map app]
         end.
  reflexivity.
Qed.

Lemma escapePdf_chars line : escapePdf line = flat_map escapePdfChar line.
Proof.
  unfold escapePdf. cbv zeta.
  rewrite !replaceAll_char by reflexivity.
  rewrite !flat_map_flat_map. apply flat_map_ext. intros c.
  unfold escapePdfChar.
  destruct (N.eqb_spec c 92) as [->|H92]; [reflexivity|].
  destruct (N.eqb_spec c 40) as [->|H40]; [reflexivity|].
  destruct (N.eqb_spec c 41) as [->|H41]; [reflexivity|].
  cbn [flat_map app orb].
  repeat match goal with
         | |- context [?x =? ?y] =>
             destruct (N.eqb_spec x y); [congruence|]; cbn [flat_map app]
         end.
  reflexivity.
Qed.

Lemma escapeXmlChar_charData c rest :
  isCharData (escapeXmlChar c ++ rest) = isCharData rest.
Proof.
  unfold escapeXmlChar.
  destruct (N.eqb_spec c 38) as [->|H38]; [reflexivity|].
  destruct (N.eqb_spec c 60) as [->|H60]; [reflexivity|].
  destruct (N.eqb_spec c 62) as [->|H62]; [reflexivity|].
  destruct (N.eqb_spec c 34) as [->|H34]; [reflexivity|].
  destruct (N.eqb_spec c 39) as [->|H39]; [reflexivity|].
  cbn [app isCharData]. unfold isXmlSpecial.
  repeat match goal with
         | |- context [c =? ?y] => destruct (N.eqb_spec c y); [congruence|]
         end.
  reflexivity.
Qed.

Lemma escapeXmlChar_length c :
  (1 <= length (escapeXmlChar c) <= 6)%nat.
Proof.
  unfold escapeXmlChar.
  repeat match goal with
         | |- context [c =? ?y] => destruct (c =? y); [simpl; lia|]
         end.
  simpl. lia.
Qed.

Lemma escapeXml_length text :
  (length text <= length (escapeXml text) <= 6 * length text)%nat.
Proof.
  rewrite escapeXml_chars.
  induction text as [|c text IH]; [simpl; lia|].
  cbn [flat_map]. rewrite length_app.
  pose proof (escapeXmlChar_length c). simpl. lia.
Qed.

(** X1: [escapeXml] rewrites each ampersand, angle bracket and quote
    once, into its entity, and nothing else: the ampersands of the entities
    it writes are not escaped again.  What it returns is character data
    without markup, and is no shorter than the text and at most six times as
    long. *)
Theorem escapeXml_escapes text :
  escapeXml text = flat_map escapeXmlChar text
  /\ isCharData (escapeXml text) = true
  /\ (length text <= length (escapeXml text) <= 6 * length text)%nat.
Proof.
  split; [apply escapeXml_chars|]. split; [|apply escapeXml_length].
  rewrite escapeXml_chars.
  induction text as [|c text IH]; [reflexivity|].
  cbn [flat_map]. rewrite escapeXmlChar_charData. exact IH.
Qed.

Lemma escapeXmlChar_inj c1 c2 r1 r2 :
  escapeXmlChar c1 ++ r1 = escapeXmlChar c2 ++ r2 -> c1 = c2 /\ r1 = r2.
Proof.
  unfold escapeXmlChar.
  destruct (N.eqb_spec c1 38) as [->|A1];
  [|destruct (N.eqb_spec c1 60) as [->|A2];
    [|destruct (N.eqb_spec c1 62) as [->|A3];
      [|destruct (N.eqb_spec c1 34) as [->|A4];
        [|destruct (N.eqb_spec c1 39) as [->|A5]]]]];
  (destruct (N.eqb_spec c2 38) as [->|B1];
   [|destruct (N.eqb_spec c2 60) as [->|B2];
     [|destruct (N.eqb_spec c2 62) as [->|B3];
       [|destruct (N.eqb_spec c2 34) as [->|B4];
         [|destruct (N.eqb_spec c2 39) as [->|B5]]]]]);
  intros H; vm_compute in H;
  try discriminate H;
  try (injection H; intros; subst; split; congruence).
Qed.

(** X2: [escapeXml] loses nothing: two texts with the same escaped form
    are the same text. *)
Theorem escapeXml_injective text1 text2 :
  escapeXml text1 = escapeXml text2 -> text1 = text2.
Proof.
  rewrite !escapeXml_chars. revert text2.
  induction text1 as [|c1 t1 IH]; intros [|c2 t2] H.
  - reflexivity.
  - exfalso. cbn [flat_map] in H. pose proof (escapeXmlChar_length c2).
    apply (f_equal (@length N)) in H. rewrite length_app in H. simpl in H. lia.
  - exfalso. cbn [flat_map] in H. pose proof (escapeXmlChar_length c1).
    apply (f_equal (@length N)) in H. rewrite length_app in H. simpl in H. lia.
  - cbn [flat_map] in H. apply escapeXmlChar_inj in H as [-> H].
    f_equal. apply IH. exact H.
Qed.

Lemma escapeXml_injective_witness :
  escapeXml (js "a<b & 'c'") = escapeXml (js "a<b & 'c'")
  /\ js "a<b & 'c'" = js "a<b & 'c'".
Proof.
  split; [reflexivity|].
  apply (escapeXml_injective (js "a<b & 'c'") (js "a<b & 'c'")). reflexivity.
Defined.

Lemma escapePdfChar_literal c rest :
  isPdfLiteral (escapePdfChar c ++ rest) = isPdfLiteral rest.
Proof.
  unfold escapePdfChar, isPdfSpecial.
  destruct (N.eqb_spec c 92) as [->|H92]; [reflexivity|].
  destruct (N.eqb_spec c 40) as [->|H40]; [reflexivity|].
  destruct (N.eqb_spec c 41) as [->|H41]; [reflexivity|].
  cbn [orb app isPdfLiteral]. unfold isPdfSpecial.
  repeat match goal with
         | |- context [c =? ?y] => destruct (N.eqb_spec c y); [congruence|]
         end.
  reflexivity.
Qed.

Lemma escapePdfChar_length c :
  (1 <= length (escapePdfChar c) <= 2)%nat.
Proof. unfold escapePdfChar. destruct (_ || _); simpl; lia. Qed.

(** X3: the three replacements that escape a line of a content stream put
    one backslash before each backslash and each parenthesis of the line and
    change nothing else: the backslashes they add are not doubled again.  The
    result is the body of a literal string, and is at most twice as long as
    the line. *)
Theorem escapePdf_escapes line :
  escapePdf line = flat_map escapePdfChar line
  /\ isPdfLiteral (escapePdf line) = true
  /\ (length line <= length (escapePdf line) <= 2 * length line)%nat.
Proof.
  rewrite escapePdf_chars. split; [reflexivity|].
  induction line as [|c line [IH1 IH2]]; [simpl; repeat split; lia|].
  cbn [flat_map]. rewrite escapePdfChar_literal, length_app.
  pose proof (escapePdfChar_length c). split; [exact IH1 | simpl; lia].
Qed.

(** ** Pages and lines of the fallback PDF *)

Lemma paginateFrom_concat wrappedLines fuel :
  forall i,
    (length wrappedLines - i <= fuel)%nat ->
    concat (paginateFrom fuel i wrappedLines) = skipn i wrappedLines.
Proof.
  induction fuel as [|fuel IH]; intros i Hfuel.
  - cbn [paginateFrom concat]. symmetry. apply skipn_all2. lia.
  - cbn [paginateFrom]. destruct (Nat.ltb_spec i (length wrappedLines)) as [Hlt|Hge].
    + cbn [concat]. rewrite IH by (rewrite linesPerPage_46; lia).
      rewrite Nat.add_comm, <- skipn_skipn. apply firstn_skipn.
    + cbn [concat]. symmetry. apply skipn_all2. lia.
Qed.

Lemma paginateFrom_pages wrappedLines fuel :
  forall i,
    (length wrappedLines - i <= fuel)%nat ->
    paginateFrom fuel i wrappedLines
    = map (fun j => firstn 46 (skipn (i + 46 * j) wrappedLines))
        (seq 0 ((length wrappedLines - i + 45) / 46)).
Proof.
  induction fuel as [|fuel IH]; intros i Hfuel.
  - replace (length wrappedLines - i)%nat with 0%nat by lia. reflexivity.
  - cbn [paginateFrom]. destruct (Nat.ltb_spec i (length wrappedLines)) as [Hlt|Hge].
    + rewrite linesPerPage_46, IH by lia.
      replace ((length wrappedLines - i + 45) / 46)%nat
        with (S ((length wrappedLines - (i + 46) + 45) / 46))
        by (zify; Z.div_mod_to_equations; lia).
      cbn [seq map]. rewrite Nat.mul_0_r, Nat.add_0_r. f_equal.
      rewrite <- seq_shift, map_map. apply map_ext. intros j.
      do 2 f_equal. lia.
    + replace (length wrappedLines - i)%nat with 0%nat by lia. reflexivity.
Qed.

(** X4: the pages of the fallback PDF are the wrapped lines, 46 to a page
    and in their order: page [j] holds the lines from [46 * j] on, no line is
    lost or repeated, there are [ceil (n / 46)] pages for [n] lines, and every
    page has a line. *)
Theorem pdfPages_pagination markdownContent :
  let wrappedLines := wrappedLinesOf (plainTextOf markdownContent) in
  pdfPages markdownContent
  = map (fun j => firstn 46 (skipn (46 * j) wrappedLines))
      (seq 0 ((length wrappedLines + 45) / 46))
  /\ concat (pdfPages markdownContent) = wrappedLines
  /\ Forall (fun page => (1 <= length page <= 46)%nat) (pdfPages markdownContent).
Proof.
  cbv zeta. destruct (pdfPages_own_lines markdownContent) as [Hpages Hne].
  set (wrappedLines := wrappedLinesOf (plainTextOf markdownContent)) in *.
  assert (Hmap : pdfPages markdownContent
                 = map (fun j => firstn 46 (skipn (46 * j) wrappedLines))
                     (seq 0 ((length wrappedLines + 45) / 46))).
  { rewrite Hpages, paginateFrom_pages by lia. rewrite Nat.sub_0_r. reflexivity. }
  split; [exact Hmap|]. split.
  - rewrite Hpages, paginateFrom_concat by lia. reflexivity.
  - rewrite Hmap. apply List.Forall_forall. intros page Hin.
    apply in_map_iff in Hin as (j & <- & Hj). apply in_seq in Hj.
    rewrite length_firstn, length_skipn.
    zify; Z.div_mod_to_equations; lia.
Qed.

Lemma split_no_sep sep s :
  Forall (fun piece => existsb (N.eqb sep) piece = false) (split sep s).
Proof.
  induction s as [|c s IH]; [repeat constructor|].
  cbn [split]. destruct (N.eqb_spec c sep) as [->|Hc].
  - constructor; [reflexivity | exact IH].
  - destruct (split sep s) as [|piece pieces].
    + repeat constructor. cbn [existsb].
      destruct (N.eqb_spec sep c); [congruence | reflexivity].
    + inversion IH as [|? ? Hp Hps]; subst. constructor; [|exact Hps].
      cbn [existsb]. rewrite Hp.
      destruct (N.eqb_spec sep c); [congruence | reflexivity].
Qed.

Lemma wrapWord_fits st word :
  forallb fitsOrOneWord (fst st) = true ->
  fitsOrOneWord (snd st) = true ->
  existsb (N.eqb 32) word = false ->
  forallb fitsOrOneWord (fst (wrapWord st word)) = true
  /\ fitsOrOneWord (snd (wrapWord st word)) = true.
Proof.
  destruct st as [wrappedLines currentLine]. cbn [fst snd]. intros Hw Hc Hword.
  unfold wrapWord.
  destruct (Nat.leb_spec (length (trim (currentLine ++ [32] ++ word))) maxLineLength)
    as [Hle|Hgt]; cbn [fst snd].
  - split; [exact Hw|]. unfold fitsOrOneWord.
    apply Nat.leb_le in Hle. rewrite Hle. reflexivity.
  - split.
    + destruct currentLine; [exact Hw|].
      rewrite forallb_app, Hw. cbn [forallb]. rewrite Hc. reflexivity.
    + unfold fitsOrOneWord. rewrite Hword. apply orb_true_r.
Qed.

Lemma fold_wrapWord_fits words :
  forall st,
    forallb fitsOrOneWord (fst st) = true ->
    fitsOrOneWord (snd st) = true ->
    Forall (fun word => existsb (N.eqb 32) word = false) words ->
    forallb fitsOrOneWord (fst (fold_left wrapWord words st)) = true
    /\ fitsOrOneWord (snd (fold_left wrapWord words st)) = true.
Proof.
  induction words as [|word words IH]; intros st Hw Hc Hwords; [split; assumption|].
  inversion Hwords as [|? ? Hword Hrest]; subst. cbn [fold_left].
  destruct (wrapWord_fits st word Hw Hc Hword) as [Hw' Hc'].
  apply IH; assumption.
Qed.

Lemma wrapLine_fits wrappedLines line :
  forallb fitsOrOneWord wrappedLines = true ->
  forallb fitsOrOneWord (wrapLine wrappedLines line) = true.
Proof.
  intros Hw. unfold wrapLine.
  destruct (Nat.leb_spec (length line) maxLineLength) as [Hle|Hgt].
  - rewrite forallb_app, Hw. cbn [forallb]. unfold fitsOrOneWord.
    apply Nat.leb_le in Hle. rewrite Hle. reflexivity.
  - destruct (fold_wrapWord_fits (split 32 line) (wrappedLines, []) Hw eq_refl
                (split_no_sep 32 line)) as [Hw' Hc'].
    destruct (fold_left wrapWord (split 32 line) (wrappedLines, []))
      as [wrappedLines' currentLine]. cbn [fst snd] in *.
    destruct currentLine; [exact Hw'|].
    rewrite forallb_app, Hw'. cbn [forallb]. rewrite Hc'. reflexivity.
Qed.

Lemma fold_wrapLine_fits lines :
  forall wrappedLines,
    forallb fitsOrOneWord wrappedLines = true ->
    forallb fitsOrOneWord (fold_left wrapLine lines wrappedLines) = true.
Proof.
  induction lines as [|line lines IH]; intros wrappedLines Hw; [exact Hw|].
  cbn [fold_left]. apply IH, wrapLine_fits, Hw.
Qed.

Lemma fold_wrapLine_short lines :
  forall wrappedLines,
    forallb (fun line => (length line <=? maxLineLength)%nat) lines = true ->
    fold_left wrapLine lines wrappedLines = wrappedLines ++ lines.
Proof.
  induction lines as [|line lines IH]; intros wrappedLines H.
  - rewrite app_nil_r. reflexivity.
  - cbn [forallb fold_left] in *. apply andb_true_iff in H as [Hline H].
    rewrite IH by exact H. unfold wrapLine. rewrite Hline.
    rewrite <- app_assoc. reflexivity.
Qed.

(** X5: every line that the wrapping of the fallback PDF writes has at
    most 80 characters or holds no space; and when no line of the text has
    more than 80 characters, the lines are written as they are. *)
Theorem wrappedLinesOf_fits plainText :
  forallb fitsOrOneWord (wrappedLinesOf plainText) = true
  /\ (forallb (fun line => (length line <=? maxLineLength)%nat)
        (split 10 plainText) = true ->
      wrappedLinesOf plainText = split 10 plainText).
Proof.
  split.
  - apply fold_wrapLine_fits. reflexivity.
  - intros H. unfold wrappedLinesOf. rewrite fold_wrapLine_short by exact H.
    reflexivity.
Qed.

Lemma wrappedLinesOf_fits_witness :
  forallb (fun line => (length line <=? maxLineLength)%nat)
    (split 10 (js "LEASE" ++ [10] ++ js "of a flat")) = true
  /\ wrappedLinesOf (js "LEASE" ++ [10] ++ js "of a flat")
     = [js "LEASE"; js "of a flat"].
Proof.
  split; [reflexivity|].
  exact (proj2 (wrappedLinesOf_fits (js "LEASE" ++ [10] ++ js "of a flat"))
           eq_refl).
Defined.

(** ** The table of the fallback PDF, for a text of ASCII characters *)

Lemma isAscii_string_of_uint d : isAscii (js (NilEmpty.string_of_uint d)) = true.
Proof.
  unfold isAscii, js.
  induction d; [reflexivity| | | | | | | | | |];
    cbn [NilEmpty.string_of_uint list_ascii_of_string map forallb];
    rewrite IHd; reflexivity.
Qed.

Lemma isAscii_numberToString z : isAscii (numberToString z) = true.
Proof.
  unfold numberToString, NilZero.string_of_int, NilZero.string_of_uint.
  destruct (Z.to_int z) as [d|d].
  - destruct d; try reflexivity; apply isAscii_string_of_uint.
  - change (isAscii (45 :: js (match d with
                                  | Decimal.Nil => "0"%string
                                  | _ => NilEmpty.string_of_uint d
                                  end)) = true).
    cbn [isAscii forallb]. change (45 <? 128) with true. cbn [andb].
    destruct d; try reflexivity; apply isAscii_string_of_uint.
Qed.

Lemma isAscii_natToString n : isAscii (natToString n) = true.
Proof. apply isAscii_numberToString. Qed.

Lemma isAscii_forall s :
  isAscii s = true <-> (forall c, In c s -> (c <? 128) = true).
Proof. apply forallb_forall. Qed.

Lemma trimStart_In c s : In c (trimStart s) -> In c s.
Proof.
  induction s as [|d s IH]; [exact id|]. cbn [trimStart].
  destruct (isSpace d); [intros H; right; exact (IH H) | exact id].
Qed.

Lemma trim_In c s : In c (trim s) -> In c s.
Proof.
  unfold trim, trimEnd. intros H.
  apply in_rev, trimStart_In, in_rev, trimStart_In in H. exact H.
Qed.

Lemma isAscii_trim s : isAscii s = true -> isAscii (trim s) = true.
Proof.
  rewrite !isAscii_forall. intros H c Hc. apply H, trim_In, Hc.
Qed.

Lemma isAscii_split sep s :
  isAscii s = true -> forallb isAscii (split sep s) = true.
Proof.
  induction s as [|c s IH]; [reflexivity|].
  cbn [isAscii forallb]. intros H. apply andb_true_iff in H as [Hc Hs].
  specialize (IH Hs). cbn [split]. destruct (c =? sep).
  - cbn [forallb]. exact IH.
  - destruct (split sep s) as [|piece pieces].
    + cbn [forallb isAscii]. rewrite Hc. reflexivity.
    + cbn [forallb isAscii] in *. apply andb_true_iff in IH as [Hp Hps].
      fold (isAscii piece) in Hp. unfold isAscii in Hp. rewrite Hc, Hp, Hps. reflexivity.
Qed.

Lemma wrapWord_ascii st word :
  forallb isAscii (fst st) = true -> isAscii (snd st) = true ->
  isAscii word = true ->
  forallb isAscii (fst (wrapWord st word)) = true
  /\ isAscii (snd (wrapWord st word)) = true.
Proof.
  destruct st as [wrappedLines currentLine]. cbn [fst snd]. intros Hw Hc Hword.
  unfold wrapWord. destruct (_ <=? _)%nat; cbn [fst snd].
  - split; [exact Hw|]. apply isAscii_trim.
    rewrite !isAscii_app, Hc, Hword. reflexivity.
  - split; [|exact Hword]. destruct currentLine; [exact Hw|].
    rewrite forallb_app, Hw. cbn [forallb]. rewrite Hc. reflexivity.
Qed.

Lemma fold_wrapWord_ascii words :
  forall st,
    forallb isAscii (fst st) = true -> isAscii (snd st) = true ->
    forallb isAscii words = true ->
    forallb isAscii (fst (fold_left wrapWord words st)) = true
    /\ isAscii (snd (fold_left wrapWord words st)) = true.
Proof.
  induction words as [|word words IH]; intros st Hw Hc Hwords; [split; assumption|].
  cbn [forallb fold_left] in *. apply andb_true_iff in Hwords as [Hword Hwords].
  destruct (wrapWord_ascii st word Hw Hc Hword) as [Hw' Hc'].
  apply IH; assumption.
Qed.

Lemma wrapLine_ascii wrappedLines line :
  forallb isAscii wrappedLines = true -> isAscii line = true ->
  forallb isAscii (wrapLine wrappedLines line) = true.
Proof.
  intros Hw Hline. unfold wrapLine. destruct (_ <=? _)%nat.
  - rewrite forallb_app, Hw. cbn [forallb]. rewrite Hline. reflexivity.
  - destruct (fold_wrapWord_ascii (split 32 line) (wrappedLines, []) Hw eq_refl
                (isAscii_split 32 line Hline)) as [Hw' Hc'].
    destruct (fold_left wrapWord (split 32 line) (wrappedLines, []))
      as [wrappedLines' currentLine]. cbn [fst snd] in *.
    destruct currentLine; [exact Hw'|].
    rewrite forallb_app, Hw'. cbn [forallb]. rewrite Hc'. reflexivity.
Qed.

Lemma fold_wrapLine_ascii lines :
  forall wrappedLines,
    forallb isAscii wrappedLines = true -> forallb isAscii lines = true ->
    forallb isAscii (fold_left wrapLine lines wrappedLines) = true.
Proof.
  induction lines as [|line lines IH]; intros wrappedLines Hw Hlines; [exact Hw|].
  cbn [forallb fold_left] in *. apply andb_true_iff in Hlines as [Hline Hlines].
  apply IH; [apply wrapLine_ascii; assumption | exact Hlines].
Qed.

Lemma pdfPages_ascii markdownContent :
  isAscii (plainTextOf markdownContent) = true ->
  forallb (forallb isAscii) (pdfPages markdownContent) = true.
Proof.
  intros H.
  assert (Hlines : forallb isAscii (wrappedLinesOf (plainTextOf markdownContent)) = true).
  { apply fold_wrapLine_ascii; [reflexivity | apply isAscii_split, H]. }
  destruct (pdfPages_own_lines markdownContent) as [Hpages _].
  pose proof (paginateFrom_concat (wrappedLinesOf (plainTextOf markdownContent))
                (length (wrappedLinesOf (plainTextOf markdownContent))) 0
                ltac:(lia)) as Hconcat.
  rewrite <- Hpages, drop_0 in Hconcat.
  rewrite <- Hconcat in Hlines. clear -Hlines.
  induction (pdfPages markdownContent) as [|page pages IH]; [reflexivity|].
  cbn [concat forallb] in *. rewrite forallb_app in Hlines.
  apply andb_true_iff in Hlines as [-> Hlines]. exact (IH Hlines).
Qed.

Lemma isAscii_join sep pieces :
  isAscii sep = true -> forallb isAscii pieces = true ->
  isAscii (join sep pieces) = true.
Proof.
  intros Hsep. induction pieces as [|piece pieces IH]; [reflexivity|].
  cbn [forallb]. intros H. apply andb_true_iff in H as [Hp Hps].
  cbn [join]. destruct pieces as [|piece' pieces']; [exact Hp|].
  rewrite !isAscii_app, Hp, Hsep, (IH Hps). reflexivity.
Qed.

Lemma isAscii_escapePdf line :
  isAscii line = true -> isAscii (escapePdf line) = true.
Proof.
  rewrite escapePdf_chars. induction line as [|c line IH]; [reflexivity|].
  cbn [isAscii forallb flat_map]. intros H. apply andb_true_iff in H as [Hc H].
  rewrite isAscii_app, (IH H), andb_true_r. unfold escapePdfChar.
  destruct (_ || _); cbn [isAscii forallb]; rewrite Hc; reflexivity.
Qed.

Lemma isAscii_textLines pageLines :
  forall textContent yPos,
    isAscii textContent = true -> forallb isAscii pageLines = true ->
    isAscii (fst (fold_left textLine pageLines (textContent, yPos))) = true.
Proof.
  induction pageLines as [|line pageLines IH]; intros textContent yPos Ht Hl;
    [exact Ht|].
  cbn [forallb fold_left textLine] in *. apply andb_true_iff in Hl as [Hline Hl].
  apply IH; [|exact Hl]. unfold zToString.
  rewrite !isAscii_app, Ht, !isAscii_numberToString, (isAscii_escapePdf _ Hline).
  reflexivity.
Qed.

Lemma isAscii_contentObject objectCount pageLines :
  forallb isAscii pageLines = true ->
  isAscii (contentObject objectCount pageLines) = true.
Proof.
  intros H. unfold contentObject, textContentOf. cbv zeta.
  pose proof (isAscii_textLines pageLines
                (js "BT" ++ [10] ++ js "/F1 " ++ zToString fontSize ++ js " Tf" ++ [10])
                (pageHeight - margin)%Z eq_refl H) as Ht.
  destruct (fold_left textLine pageLines _) as [textContent yPos].
  cbn [fst] in Ht.
  rewrite !isAscii_app, !isAscii_natToString, Ht. reflexivity.
Qed.

Lemma forallb_imap {A B} (p : B -> bool) (f : nat -> A -> B) (q : A -> bool) l :
  (forall i x, q x = true -> p (f i x) = true) ->
  forallb q l = true -> forallb p (imap f l) = true.
Proof.
  revert f. induction l as [|x l IH]; intros f Hf Hl; [reflexivity|].
  cbn [forallb imap] in *. apply andb_true_iff in Hl as [Hx Hl].
  rewrite (Hf _ _ Hx). apply IH; [|exact Hl]. intros i y. apply Hf.
Qed.

Lemma isAscii_objectsOf pages :
  forallb (forallb isAscii) pages = true ->
  forallb isAscii (objectsOf pages) = true.
Proof.
  intros H. unfold objectsOf. cbv zeta. rewrite !forallb_app.
  apply andb_true_iff. split; [|apply andb_true_iff; split].
  - cbn [forallb]. unfold catalogObject, pagesObject, fontObject.
    rewrite !isAscii_app, !isAscii_natToString.
    rewrite isAscii_join; [reflexivity | reflexivity |].
    apply forallb_forall. intros ref Href. apply in_map_iff in Href as (i & <- & _).
    rewrite isAscii_app, isAscii_natToString. reflexivity.
  - apply forallb_forall. intros obj Hobj. apply in_map_iff in Hobj as (i & <- & _).
    unfold pageObject, zToString.
    rewrite !isAscii_app, !isAscii_natToString, !isAscii_numberToString.
    reflexivity.
  - apply (forallb_imap _ _ (forallb isAscii)); [|exact H].
    intros i pageLines. apply isAscii_contentObject.
Qed.

(** The text of the file: the header, the objects, each followed by a line
    feed, and the tail with its table. *)
Lemma fold_append_objects objects :
  forall pdf,
    fold_left (fun pdf obj => pdf ++ obj ++ [10]) objects pdf
    = pdf ++ concat (map (fun obj => obj ++ [10]) objects).
Proof.
  induction objects as [|obj objects IH]; intros pdf.
  - rewrite app_nil_r. reflexivity.
  - cbn [fold_left map concat]. rewrite IH, <- !app_assoc. reflexivity.
Qed.

Lemma fold_xrefEntry offsets :
  forall pdf,
    fold_left (fun pdf offset => pdf ++ xrefEntry offset) offsets pdf
    = pdf ++ concat (map xrefEntry offsets).
Proof.
  induction offsets as [|offset offsets IH]; intros pdf.
  - rewrite app_nil_r. reflexivity.
  - cbn [fold_left map concat]. rewrite IH, <- !app_assoc. reflexivity.
Qed.

Lemma pdfOf_text objects :
  fst (pdfOf objects)
  = (js "%PDF-1.4" ++ [10] ++ concat (map (fun obj => obj ++ [10]) objects))
    ++ pdfTail (length objects) (snd (pdfOf objects))
         (length (js "%PDF-1.4" ++ [10]
                  ++ concat (map (fun obj => obj ++ [10]) objects))).
Proof.
  rewrite pdfOf_offsets. unfold pdfOf. cbv zeta. rewrite appendObjects_spec.
  cbn [fst app]. rewrite fold_xrefEntry, fold_append_objects. unfold pdfTail.
  rewrite <- !app_assoc. reflexivity.
Qed.

Lemma bufferFromUtf8_app_ascii a b :
  isAscii a = true ->
  bufferFromUtf8 (a ++ b) = bufferFromUtf8 a ++ bufferFromUtf8 b.
Proof.
  induction a as [|c a IH]; [reflexivity|].
  cbn [isAscii forallb]. intros H. apply andb_true_iff in H as [Hc H].
  cbn [app bufferFromUtf8]. rewrite Hc, (IH H). reflexivity.
Qed.

(** The objects are numbered in their order, from 1 on. *)
Lemma objectsOf_numbered pages k obj :
  objectsOf pages !! k = Some obj ->
  exists rest, obj = natToString (S k) ++ js " 0 obj" ++ rest.
Proof.
  unfold objectsOf. cbv zeta. intros H.
  destruct k as [|[|[|k]]].
  - injection H as <-. eexists. unfold catalogObject. reflexivity.
  - injection H as <-. eexists. unfold pagesObject. reflexivity.
  - injection H as <-. eexists. unfold fontObject. reflexivity.
  - change (([catalogObject 1; pagesObject 2 pages; fontObject 3]
             ++ map (fun pageIndex =>
                       pageObject (3 + 1 + pageIndex)
                         (3 + length pages + 1 + pageIndex))
                  (seq 0 (length pages))
             ++ imap (fun pageIndex pageLines =>
                        contentObject (3 + length pages + 1 + pageIndex) pageLines)
                  pages) !! S (S (S k)))
      with ((map (fun pageIndex =>
                       pageObject (3 + 1 + pageIndex)
                         (3 + length pages + 1 + pageIndex))
                  (seq 0 (length pages))
             ++ imap (fun pageIndex pageLines =>
                        contentObject (3 + length pages + 1 + pageIndex) pageLines)
                  pages) !! k) in H.
    apply lookup_app_Some in H as [H|[Hlen H]].
    + apply (list_lookup_fmap_Some (fun pageIndex =>
                       pageObject (3 + 1 + pageIndex)
                         (3 + length pages + 1 + pageIndex))) in H as (i & -> & Hi).
      apply lookup_seq in Hi as [-> _]. eexists. unfold pageObject.
      replace (3 + 1 + (0 + k))%nat with (S (S (S (S k)))) by lia. reflexivity.
    + rewrite length_map, length_seq in Hlen, H.
      rewrite list_lookup_imap in H.
      destruct (pages !! (k - length pages)%nat) as [pageLines|]; [|discriminate].
      injection H as <-. eexists. unfold contentObject. cbv zeta.
      replace (S (S (S (length pages + 1 + (k - length pages)))))
        with (S (S (S (S k)))) by lia.
      reflexivity.
Qed.

(** X6: when the plain text of the document is ASCII, the table of the
    fallback PDF is right.  For every object, the offset written for it is the
    number of bytes before the object in the buffer returned, and the object
    opens with its number, which is its place in the table; and the number
    after [startxref] is the number of bytes before the [xref] keyword. *)
Theorem generateFallbackPdf_offsets_ascii markdownContent :
  isAscii (plainTextOf markdownContent) = true ->
  (forall k obj,
     objectsOf (pdfPages markdownContent) !! k = Some obj ->
     exists before after rest,
       generateFallbackPdf markdownContent
       = before ++ bufferFromUtf8 obj ++ after
       /\ pdfOffsets markdownContent !! k = Some (length before)
       /\ obj = natToString (S k) ++ js " 0 obj" ++ rest)
  /\ exists before,
       generateFallbackPdf markdownContent
       = before
         ++ bufferFromUtf8
              (pdfTail (length (objectsOf (pdfPages markdownContent)))
                 (pdfOffsets markdownContent) (length before)).
Proof.
  intros Hascii. unfold generateFallbackPdf, pdfOffsets.
  pose proof (isAscii_objectsOf _ (pdfPages_ascii _ Hascii)) as Hobjs.
  set (objects := objectsOf (pdfPages markdownContent)) in *.
  assert (Hbody : forall objs, forallb isAscii objs = true ->
            isAscii (js "%PDF-1.4" ++ [10]
                     ++ concat (map (fun obj => obj ++ [10]) objs)) = true).
  { intros objs Ho. rewrite app_assoc, <- fold_append_objects.
    apply appendObjects_ascii; [reflexivity | exact Ho]. }
  split.
  - intros k obj Hk.
    destruct (objectsOf_numbered _ _ _ Hk) as [rest Hrest].
    pose proof (take_drop_middle _ _ _ Hk) as Hsplit.
    assert (Hfirst : forallb isAscii (take k objects) = true).
    { rewrite <- Hsplit, forallb_app in Hobjs.
      apply andb_true_iff in Hobjs as [H _]. exact H. }
    assert (Hobj : isAscii obj = true).
    { rewrite <- Hsplit, forallb_app in Hobjs.
      apply andb_true_iff in Hobjs as [_ H]. cbn [forallb] in H.
      apply andb_true_iff in H as [H _]. exact H. }
    exists (bufferFromUtf8
              (js "%PDF-1.4" ++ [10]
               ++ concat (map (fun obj => obj ++ [10]) (take k objects)))).
    exists (bufferFromUtf8
              ([10] ++ concat (map (fun obj => obj ++ [10]) (drop (S k) objects))
               ++ pdfTail (length objects) (snd (pdfOf objects))
                    (length (js "%PDF-1.4" ++ [10]
                             ++ concat (map (fun obj => obj ++ [10]) objects))))).
    exists rest. split; [|split; [|exact Hrest]].
    + rewrite pdfOf_text. rewrite <- Hsplit at 1.
      rewrite map_app, concat_app. cbn [map concat].
      rewrite <- (bufferFromUtf8_app_ascii obj) by exact Hobj.
      rewrite <- bufferFromUtf8_app_ascii by (apply Hbody, Hfirst).
      f_equal. rewrite <- !app_assoc. reflexivity.
    + rewrite pdfOf_offsets.
      change (map ?f ?l) with (f <$> l) at 1.
      rewrite list_lookup_fmap.
      pose proof (lookup_lt_Some _ _ _ Hk) as Hlt.
      rewrite (proj2 (lookup_seq 0 (length objects) k k) (conj eq_refl Hlt)).
      cbn [fmap option_fmap option_map]. f_equal.
      rewrite bufferFromUtf8_ascii by (apply Hbody, Hfirst).
      rewrite fold_append_objects, <- app_assoc. reflexivity.
  - exists (bufferFromUtf8
              (js "%PDF-1.4" ++ [10]
               ++ concat (map (fun obj => obj ++ [10]) objects))).
    rewrite pdfOf_text.
    rewrite bufferFromUtf8_app_ascii by (apply Hbody, Hobjs).
    rewrite (bufferFromUtf8_ascii _ (Hbody _ Hobjs)). reflexivity.
Qed.

Lemma generateFallbackPdf_offsets_ascii_witness :
  isAscii (plainTextOf (js "Hello")) = true
  /\ exists before,
       generateFallbackPdf (js "Hello")
       = before
         ++ bufferFromUtf8
              (pdfTail (length (objectsOf (pdfPages (js "Hello"))))
                 (pdfOffsets (js "Hello")) (length before)).
Proof.
  split; [reflexivity|].
  exact (proj2 (generateFallbackPdf_offsets_ascii (js "Hello") eq_refl)).
Defined.

(** ** Paragraphs of the fallback DOCX *)

Lemma headingMatch_inv marks line cap :
  headingMatch marks line = Some cap ->
  line = marks ++ cap /\ cap <> [] /\ forallb dotChar cap = true.
Proof.
  unfold headingMatch. intros H.
  apply lit_inv in H as (s1 & -> & H).
  apply plus_inv in H as (cap' & s2 & -> & Hne & Hdot & H).
  destruct s2; [|discriminate]. injection H as <-.
  rewrite app_nil_r. repeat split; assumption.
Qed.

Lemma headingMatch_app marks text :
  text <> [] -> forallb dotChar text = true ->
  headingMatch marks (marks ++ text) = Some text.
Proof.
  intros Hne Hdot. unfold headingMatch. rewrite lit_app.
  rewrite <- (app_nil_r text) at 1. apply plus_app; auto.
Qed.

Lemma trim_nonempty c t : isSpace c = false -> trim (c :: t) <> [].
Proof.
  intros Hc. unfold trim, trimEnd. cbn [trimStart]. rewrite Hc.
  cbn [rev]. destruct (trimStart_last (rev t) c Hc) as [a' ->].
  rewrite rev_app_distr. discriminate.
Qed.

Lemma paragraphOf_ink c t :
  isSpace c = false ->
  paragraphOf (c :: t)
  = match headingMatch (js "# ") (c :: t) with
    | Some h1 => headingParagraph (js "Heading1") h1
    | None =>
        match headingMatch (js "## ") (c :: t) with
        | Some h2 => headingParagraph (js "Heading2") h2
        | None =>
            match headingMatch (js "### ") (c :: t) with
            | Some h3 => headingParagraph (js "Heading3") h3
            | None =>
                textParagraph
                  (if startsWith (js "- ") (c :: t)
                   then [bullet; 32] ++ skipn 2 (c :: t)
                   else c :: t)
            end
        end
    end.
Proof.
  intros Hc. unfold paragraphOf. pose proof (trim_nonempty c t Hc) as Hne.
  destruct (trim (c :: t)); [congruence | reflexivity].
Qed.

(** X7: the fallback DOCX knows three levels of headings.  One, two or
    three number signs, a space and a text that is not empty and holds no
    line terminator make a paragraph of the style Heading1, Heading2 or
    Heading3 with the escaped text; four number signs make an ordinary
    paragraph that keeps the signs. *)
Theorem paragraphOf_headings text :
  text <> [] ->
  forallb dotChar text = true ->
  paragraphOf (js "# " ++ text) = headingParagraph (js "Heading1") text
  /\ paragraphOf (js "## " ++ text) = headingParagraph (js "Heading2") text
  /\ paragraphOf (js "### " ++ text) = headingParagraph (js "Heading3") text
  /\ paragraphOf (js "#### " ++ text) = textParagraph (js "#### " ++ text).
Proof.
  intros Hne Hdot. repeat split.
  - change (js "# " ++ text) with (35 :: [32] ++ text).
    rewrite paragraphOf_ink by reflexivity.
    change (35 :: [32] ++ text) with (js "# " ++ text).
    rewrite headingMatch_app by assumption. reflexivity.
  - change (js "## " ++ text) with (35 :: [35; 32] ++ text).
    rewrite paragraphOf_ink by reflexivity.
    change (headingMatch (js "# ") (35 :: [35; 32] ++ text)) with (@None (list N)).
    change (35 :: [35; 32] ++ text) with (js "## " ++ text).
    rewrite headingMatch_app by assumption. reflexivity.
  - change (js "### " ++ text) with (35 :: [35; 35; 32] ++ text).
    rewrite paragraphOf_ink by reflexivity.
    change (headingMatch (js "# ") (35 :: [35; 35; 32] ++ text)) with (@None (list N)).
    change (headingMatch (js "## ") (35 :: [35; 35; 32] ++ text)) with (@None (list N)).
    change (35 :: [35; 35; 32] ++ text) with (js "### " ++ text).
    rewrite headingMatch_app by assumption. reflexivity.
  - change (js "#### " ++ text) with (35 :: [35; 35; 35; 32] ++ text).
    rewrite paragraphOf_ink by reflexivity. reflexivity.
Qed.

Lemma paragraphOf_headings_witness :
  js "Lease" <> [] /\ forallb dotChar (js "Lease") = true
  /\ paragraphOf (js "## Lease") = headingParagraph (js "Heading2") (js "Lease").
Proof.
  assert (Hne : js "Lease" <> []) by discriminate.
  split; [exact Hne|]. split; [reflexivity|].
  exact (proj1 (proj2 (paragraphOf_headings (js "Lease") Hne eq_refl))).
Defined.

(** X8: a line with a line terminator in it is never a heading.  The
    lines are the pieces between line feeds, so that of a text with the line
    ends CR LF every line but the last ends with a carriage return: its
    headings become ordinary paragraphs that keep their number signs. *)
Theorem paragraphOf_line_terminator c t :
  isSpace c = false ->
  existsb isLineTerminator (c :: t) = true ->
  paragraphOf (c :: t)
  = textParagraph
      (if startsWith (js "- ") (c :: t) then [bullet; 32] ++ skipn 2 (c :: t)
       else c :: t).
Proof.
  intros Hc Hterm. rewrite paragraphOf_ink by exact Hc.
  assert (Hno : forall marks,
            forallb dotChar marks = true -> headingMatch marks (c :: t) = None).
  { intros marks Hmarks.
    destruct (headingMatch marks (c :: t)) as [cap|] eqn:H; [|reflexivity].
    exfalso. apply headingMatch_inv in H as (Heq & _ & Hdot).
    rewrite Heq in Hterm. rewrite existsb_app in Hterm.
    assert (Hall : forall s, forallb dotChar s = true ->
                     existsb isLineTerminator s = false).
    { induction s as [|d s IH]; [reflexivity|]. cbn [forallb existsb].
      unfold dotChar at 1. intros Hs. apply andb_true_iff in Hs as [Hd Hs].
      apply negb_true_iff in Hd. rewrite Hd, (IH Hs). reflexivity. }
    rewrite (Hall _ Hmarks), (Hall _ Hdot) in Hterm. discriminate. }
  rewrite !Hno by reflexivity. reflexivity.
Qed.

Lemma paragraphOf_line_terminator_witness :
  isSpace 35 = false
  /\ existsb isLineTerminator (js "# Lease" ++ [13]) = true
  /\ paragraphOf (js "# Lease" ++ [13]) = textParagraph (js "# Lease" ++ [13]).
Proof.
  split; [reflexivity|]. split; [reflexivity|].
  exact (paragraphOf_line_terminator 35 (js " Lease" ++ [13]) eq_refl eq_refl).
Defined.

(** ** Names and sizes in the ZIP container *)






Lemma docxFiles_sizes contentTypes rels documentRels documentContent :
  totalSize localSize (docxFiles contentTypes rels documentRels documentContent)
  = (195 + (length (bufferFromUtf8 contentTypes) + length (bufferFromUtf8 rels)
            + length (bufferFromUtf8 documentRels)
            + length (bufferFromUtf8 documentContent)))%nat
  /\ totalSize centralSize
       (docxFiles contentTypes rels documentRels documentContent)
     = 259%nat.
Proof.
  unfold docxFiles, totalSize, localSize, centralSize.
  cbn [fold_right File.name File.content].
  change (length (bufferFromUtf8 (js "[Content_Types].xml"))) with 19%nat.
  change (length (bufferFromUtf8 (js "_rels/.rels"))) with 11%nat.
  change (length (bufferFromUtf8 (js "word/_rels/document.xml.rels"))) with 28%nat.
  change (length (bufferFromUtf8 (js "word/document.xml"))) with 17%nat.
  split; lia.
Qed.

(** X10: [createMinimalDocxZip] throws when the four local headers with
    their names and contents, 195 bytes and the bytes of the contents, have
    no offset of 32 bits after them, and only then; the archive it returns is
    476 bytes longer than the contents. *)
Theorem createMinimalDocxZip_range
    contentTypes rels documentRels documentContent :
  let bytes :=
    (length (bufferFromUtf8 contentTypes) + length (bufferFromUtf8 rels)
     + length (bufferFromUtf8 documentRels)
     + length (bufferFromUtf8 documentContent))%nat in
  (createMinimalDocxZip contentTypes rels documentRels documentContent = None
   <-> (2 ^ 32 <= Z.of_nat (195 + bytes))%Z)
  /\ (forall zip,
        createMinimalDocxZip contentTypes rels documentRels documentContent
        = Some zip ->
        length zip = (476 + bytes)%nat).
Proof.
  cbv zeta.
  destruct (docxFiles_sizes contentTypes rels documentRels documentContent)
    as [Hlocal Hcentral].
  split.
  - unfold createMinimalDocxZip. rewrite zipOf_spec, Hlocal, Hcentral.
    destruct (Z.le_gt_cases (2 ^ 32) (Z.of_nat (195 + (length (bufferFromUtf8 contentTypes) + length (bufferFromUtf8 rels) + length (bufferFromUtf8 documentRels) + length (bufferFromUtf8 documentContent)))))
      as [Hbig|Hsmall].
    + split; [intros _; exact Hbig|]. intros _.
      replace (fitsUInt32 (Z.of_nat (195 + _))) with false.
      * rewrite !andb_false_r. reflexivity.
      * symmetry. unfold fitsUInt32. apply andb_false_iff. right.
        apply Z.leb_gt. lia.
    + rewrite filesFit_small;
        [|apply docxFiles_names|rewrite Hlocal; cbn [Nat.add]; lia].
      rewrite (fitsUInt16_true (Z.of_nat (length _)))
        by (cbn [docxFiles length]; lia).
      rewrite !fitsUInt32_true by lia.
      cbn [andb]. split; [discriminate | lia].
  - intros zip Hzip.
    destruct (zipOf_roundtrip _ _ Hzip) as (_ & _ & _ & _ & _ & _ & Hlen).
    rewrite Hlen, Hlocal, Hcentral. lia.
Qed.

Lemma createMinimalDocxZip_range_witness :
  exists zip,
    createMinimalDocxZip (js "<Types/>") (js "<Relationships/>") []
      (js "<w:document/>")
    = Some zip
    /\ length zip = (476 + (8 + 16 + 0 + 13))%nat.
Proof.
  destruct (createMinimalDocxZip (js "<Types/>") (js "<Relationships/>") []
              (js "<w:document/>"))
    as [zip|] eqn:Hzip; [|vm_compute in Hzip; discriminate].
  exists zip. split; [reflexivity|].
  exact (proj2 (createMinimalDocxZip_range (js "<Types/>") (js "<Relationships/>")
                  [] (js "<w:document/>")) zip Hzip).
Defined.

(** ** The size of the fallback DOCX *)

Lemma utf8_length_le n :
  forall s, (length s <= n)%nat -> (length (bufferFromUtf8 s) <= 3 * length s)%nat.
Proof.
  induction n as [|n IH]; intros s Hn.
  - destruct s; [simpl; lia | simpl in Hn; lia].
  - destruct s as [|c s]; [simpl; lia|]. cbn [length] in Hn.
    assert (Hs : (length (bufferFromUtf8 s) <= 3 * length s)%nat)
      by (apply IH; lia).
    cbn [bufferFromUtf8]. destruct (c <? 128); [cbn [length]; lia|].
    destruct (c <? 2048); [cbn [length]; lia|].
    destruct (isHighSurrogate c).
    + destruct s as [|d s]; [cbn; lia|].
      destruct (isLowSurrogate d).
      * rewrite length_app. cbn [length] in *.
        assert (length (bufferFromUtf8 s) <= 3 * length s)%nat
          by (apply IH; lia).
        unfold utf8Four. cbn [length]. lia.
      * rewrite length_app. unfold utf8Three. cbn [length] in *. lia.
    + destruct (isLowSurrogate c); rewrite length_app; unfold utf8Three;
        cbn [length]; lia.
Qed.

Lemma bufferFromUtf8_length s :
  (length (bufferFromUtf8 s) <= 3 * length s)%nat.
Proof. apply (utf8_length_le (length s)). lia. Qed.

Ltac literal_lengths :=
  repeat match goal with
         | |- context [length (js ?s)] =>
             let n := eval vm_compute in (length (js s)) in
             replace (length (js s)) with n by (vm_compute; reflexivity)
         end.

Lemma paragraphOf_length line :
  (length (paragraphOf line) <= 76 + 6 * length line)%nat.
Proof.
  unfold paragraphOf.
  destruct (trim line); [vm_compute; lia|].
  assert (Hh : forall marks style cap,
            (length style = 8)%nat ->
            headingMatch marks line = Some cap ->
            (length (headingParagraph style cap) <= 76 + 6 * length line)%nat).
  { intros marks style cap Hstyle H. apply headingMatch_inv in H as (-> & _ & _).
    unfold headingParagraph. rewrite !length_app, Hstyle. literal_lengths.
    pose proof (escapeXml_length cap). cbn [length]. lia. }
  destruct (headingMatch (js "# ") line) eqn:H1; [exact (Hh _ (js "Heading1") _ eq_refl H1)|].
  destruct (headingMatch (js "## ") line) eqn:H2; [exact (Hh _ (js "Heading2") _ eq_refl H2)|].
  destruct (headingMatch (js "### ") line) eqn:H3; [exact (Hh _ (js "Heading3") _ eq_refl H3)|].
  rewrite !length_app. literal_lengths.
  pose proof (escapeXml_length
                (if startsWith (js "- ") line then [bullet; 32] ++ skipn 2 line
                 else line)) as He.
  assert (Ht : (length (if startsWith (js "- ") line
                        then [bullet; 32%N] ++ skipn 2 line else line)
                <= length line)%nat).
  { destruct (startsWith (js "- ") line) eqn:Hs; [|lia].
    apply startsWith_inv in Hs as [s' ->].
    rewrite !length_app, length_skipn, !length_app. literal_lengths.
    cbn [length]. lia. }
  lia.
Qed.

Lemma list_sum_cons a l : list_sum (a :: l) = (a + list_sum l)%nat.
Proof. reflexivity. Qed.

Lemma split_lengths sep s :
  list_sum (map (fun piece => S (length piece)) (split sep s)) = S (length s).
Proof.
  induction s as [|c s IH]; [reflexivity|].
  cbn [split]. destruct (c =? sep).
  - rewrite map_cons, list_sum_cons, IH. reflexivity.
  - destruct (split sep s) as [|piece pieces]; [discriminate IH|].
    rewrite map_cons, list_sum_cons in *. cbn [length]. lia.
Qed.

Lemma paragraphs_length lines :
  (length (concat (map paragraphOf lines))
   <= 76 * list_sum (map (fun piece => S (length piece)) lines))%nat.
Proof.
  induction lines as [|line lines IH]; [simpl; lia|].
  rewrite !map_cons, list_sum_cons. cbn [concat]. rewrite length_app.
  pose proof (paragraphOf_length line). lia.
Qed.

Lemma documentXmlOf_length markdownContent :
  (length (documentXmlOf markdownContent) <= 76 * S (length markdownContent))%nat.
Proof.
  rewrite documentXmlOf_paragraphs, <- (split_lengths 10).
  apply paragraphs_length.
Qed.

Lemma documentContentOf_length documentXml :
  length (documentContentOf documentXml) = (299 + length documentXml)%nat.
Proof.
  unfold documentContentOf. rewrite !length_app.
  repeat match goal with
         | |- context [length ?c] =>
             lazymatch c with
             | documentXml => fail
             | _ => let n := eval vm_compute in (length c) in
                    replace (length c) with n by (vm_compute; reflexivity)
             end
         end.
  lia.
Qed.

Lemma fixedParts_length :
  length (bufferFromUtf8 contentTypesXml) = 434%nat
  /\ length (bufferFromUtf8 relsXml) = 300%nat
  /\ length (bufferFromUtf8 documentRelsXml) = 157%nat.
Proof. repeat split; vm_compute; reflexivity. Qed.

Lemma documentOffset documentContent :
  (localOffset
     (docxFiles contentTypesXml relsXml documentRelsXml documentContent) 3
   + (30 + length (bufferFromUtf8 (js "word/document.xml"))))%nat
  = 1086%nat.
Proof. vm_compute. reflexivity. Qed.

Lemma document_part contentTypes rels documentRels documentContent zip :
  createMinimalDocxZip contentTypes rels documentRels documentContent
  = Some zip ->
  subarray zip
    (localOffset (docxFiles contentTypes rels documentRels documentContent) 3
     + (30 + length (bufferFromUtf8 (js "word/document.xml"))))
    (length (bufferFromUtf8 documentContent))
  = bufferFromUtf8 documentContent.
Proof.
  intros Hzip.
  destruct (zipOf_roundtrip _ _ Hzip) as [Hfiles _].
  destruct (Hfiles 3%nat _ eq_refl) as (_ & _ & _ & _ & _ & Hsub & _).
  exact Hsub.
Qed.

Lemma docx_size markdownContent :
  (Z.of_nat (length markdownContent) < 2 ^ 24)%Z ->
  (Z.of_nat
     (totalSize localSize
        (docxFiles contentTypesXml relsXml documentRelsXml
           (documentContentOf (documentXmlOf markdownContent)))
      + totalSize centralSize
          (docxFiles contentTypesXml relsXml documentRelsXml
             (documentContentOf (documentXmlOf markdownContent))))
   < 2 ^ 32)%Z.
Proof.
  intros Hlen.
  pose proof (bufferFromUtf8_length
                (documentContentOf (documentXmlOf markdownContent))) as Hb.
  rewrite documentContentOf_length in Hb.
  pose proof (documentXmlOf_length markdownContent) as Hx.
  destruct (docxFiles_sizes contentTypesXml relsXml documentRelsXml
              (documentContentOf (documentXmlOf markdownContent)))
    as [-> ->].
  destruct fixedParts_length as (-> & -> & ->). lia.
Qed.

(** X11: the fallback DOCX of a text of less than [2^22] characters is
    returned.  The strings that the function builds, the paragraphs and the
    document around them, stay below the greatest length of a string of the
    engine, [2^29 - 24] code units, so that no concatenation throws; no write
    of a header is out of range; and the archive holds the document part
    whole: the bytes of the document, as UTF-8, are stored from byte 1086 of
    the archive on. *)
Theorem generateFallbackDocx_returns markdownContent :
  (Z.of_nat (length markdownContent) < 2 ^ 22)%Z ->
  (Z.of_nat (length (documentXmlOf markdownContent)) < 2 ^ 29 - 24)%Z
  /\ (Z.of_nat (length (documentContentOf (documentXmlOf markdownContent)))
      < 2 ^ 29 - 24)%Z
  /\ exists zip,
       generateFallbackDocx markdownContent = Some zip
       /\ subarray zip 1086
            (length (bufferFromUtf8
                       (documentContentOf (documentXmlOf markdownContent))))
          = bufferFromUtf8 (documentContentOf (documentXmlOf markdownContent)).
Proof.
  intros Hlen.
  pose proof (documentXmlOf_length markdownContent) as Hxml.
  pose proof (documentContentOf_length (documentXmlOf markdownContent))
    as Hcontent.
  split; [lia|]. split; [lia|].
  assert (Hfields : (Z.of_nat (length markdownContent) < 2 ^ 24)%Z) by lia.
  unfold generateFallbackDocx.
  destruct (createMinimalDocxZip_returns _ _ _ _ (docx_size _ Hfields))
    as [zip Hzip].
  exists zip. split; [exact Hzip|].
  pose proof (document_part _ _ _ _ _ Hzip) as Hsub.
  rewrite documentOffset in Hsub. exact Hsub.
Qed.

Lemma generateFallbackDocx_returns_witness :
  exists zip,
    generateFallbackDocx (js "# Lease") = Some zip
    /\ subarray zip 1086
         (length (bufferFromUtf8
                    (documentContentOf (documentXmlOf (js "# Lease")))))
       = bufferFromUtf8 (documentContentOf (documentXmlOf (js "# Lease"))).
Proof.
  assert (H : (Z.of_nat (length (js "# Lease")) < 2 ^ 22)%Z)
    by (vm_compute; reflexivity).
  exact (proj2 (proj2 (generateFallbackDocx_returns (js "# Lease") H))).
Defined.

(** ** References to variables *)

Lemma withString_match re r pre matched rest :
  re (matched ++ rest) = Some rest ->
  withString re r pre (matched ++ rest)
  = Some (getSubstitution matched (rev pre) rest r, rest).
Proof.
  intros H. unfold withString. rewrite H. cbv zeta.
  rewrite length_app, Nat.add_sub, take_app_length. reflexivity.
Qed.

(** The one match of a regex in a text: what is before it and what is after
    it are copied. *)
Lemma replaceAll_one (re : jsstring -> option jsstring) r a matched b :
  matched <> [] ->
  (forall a1 c a2, a = a1 ++ c :: a2 -> re (c :: a2 ++ matched ++ b) = None) ->
  re (matched ++ b) = Some b ->
  nowhere re b ->
  replaceAll (withString re r) (a ++ matched ++ b)
  = a ++ getSubstitution matched a b r ++ b.
Proof.
  intros Hne Ha Hm Hb. unfold replaceAll.
  rewrite replaceFrom_prefix.
  - rewrite (replaceFrom_match _ _ matched b (getSubstitution matched a b r) Hne).
    + rewrite replaceFrom_no_match; [reflexivity|].
      intros pre x y Hxy. unfold withString. rewrite (Hb x y Hxy). reflexivity.
    + rewrite withString_match by exact Hm.
      rewrite app_nil_r, rev_involutive. reflexivity.
  - intros a1 c a2 Heq. unfold withString. rewrite (Ha a1 c a2 Heq). reflexivity.
Qed.

(** Texts without an opening [{{]. *)
Lemma plain_chars_app x y :
  forallb (fun c => negb (c =? 123)) x = true ->
  includes (js "{{") (x ++ y) = includes (js "{{") y.
Proof.
  change (js "{{") with [123; 123].
  induction x as [|c x IH]; [reflexivity|].
  cbn [forallb app]. intros H. apply andb_true_iff in H as [Hc H].
  cbn [includes startsWith]. rewrite (IH H).
  apply negb_true_iff in Hc. rewrite (N.eqb_sym 123 c), Hc. reflexivity.
Qed.

Lemma plain_app x y :
  includes (js "{{") x = false ->
  includes (js "{{") y = false ->
  match y with [] => true | c :: _ => negb (c =? 123) end = true ->
  includes (js "{{") (x ++ y) = false.
Proof.
  change (js "{{") with [123; 123]. intros Hx Hy Hhead.
  induction x as [|c x IH]; [exact Hy|].
  cbn [app includes] in *. apply orb_false_iff in Hx as [Hc Hx].
  rewrite (IH Hx), orb_false_r.
  cbn [startsWith] in *. destruct (123 =? c); [|reflexivity].
  cbn [andb] in *. destruct x as [|d x]; [|exact Hc].
  cbn [app]. destruct y as [|d y]; [reflexivity|].
  apply negb_true_iff in Hhead. rewrite (N.eqb_sym 123 d), Hhead. reflexivity.
Qed.

Lemma spaces_no_brace ws :
  forallb isSpace ws = true -> forallb (fun c => negb (c =? 123)) ws = true.
Proof.
  induction ws as [|c ws IH]; [reflexivity|]. cbn [forallb]. intros H.
  apply andb_true_iff in H as [Hc H]. rewrite (IH H), andb_true_r.
  apply negb_true_iff, N.eqb_neq. intros ->. discriminate.
Qed.

Lemma words_no_brace x :
  forallb isWord x = true -> forallb (fun c => negb (c =? 123)) x = true.
Proof.
  induction x as [|c x IH]; [reflexivity|]. cbn [forallb]. intros H.
  apply andb_true_iff in H as [Hc H]. rewrite (IH H), andb_true_r.
  apply negb_true_iff, N.eqb_neq. intros ->. discriminate.
Qed.

(** A run of characters of a class, read from a text in two ways, is the
    same run. *)
Lemma run_unique p x x' y y' :
  forallb p x = true -> forallb p x' = true ->
  endsRun p y = true -> endsRun p y' = true ->
  x ++ y = x' ++ y' -> x = x' /\ y = y'.
Proof.
  revert x'. induction x as [|c x IH]; intros [|c' x'] Hx Hx' Hy Hy' Heq;
    cbn [app forallb] in *.
  - split; [reflexivity | exact Heq].
  - subst y. cbn [endsRun] in Hy. apply andb_true_iff in Hx' as [Hc' _].
    rewrite Hc' in Hy. discriminate.
  - subst y'. cbn [endsRun] in Hy'. apply andb_true_iff in Hx as [Hc _].
    rewrite Hc in Hy'. discriminate.
  - injection Heq as -> Heq.
    apply andb_true_iff in Hx as [_ Hx]. apply andb_true_iff in Hx' as [_ Hx'].
    destruct (IH x' Hx Hx' Hy Hy' Heq) as [-> ->]. split; reflexivity.
Qed.

Lemma stripTags_no_token s : hasToken s = false -> stripTags s = s.
Proof.
  intros Hs. unfold stripTags.
  rewrite (replaceAll_no_token _ s);
    [|apply withString_token, (openTagRegex_token (js "#if"))|exact Hs].
  rewrite (replaceAll_no_token _ s);
    [|apply withString_token; intros t rest;
      apply (literalRegex_token (js "else}}")); reflexivity|exact Hs].
  rewrite (replaceAll_no_token _ s);
    [|apply withString_token; intros t rest;
      apply (literalRegex_token (js "/if}}")); reflexivity|exact Hs].
  rewrite (replaceAll_no_token _ s);
    [|apply withString_token, (openTagRegex_token (js "#unless"))|exact Hs].
  apply replaceAll_no_token; [|exact Hs].
  apply withString_token; intros t rest.
  apply (literalRegex_token (js "/unless}}")); reflexivity.
Qed.

Lemma cleanUp_stripTags s :
  cleanUp s = stripTags (replaceAll (withString unmatchedVarRegex (js "[___]")) s).
Proof. reflexivity. Qed.

Lemma unmatchedVarRegex_inv t rest :
  unmatchedVarRegex t = Some rest ->
  exists ws1 word ws2,
    t = js "{{" ++ ws1 ++ word ++ ws2 ++ js "}}" ++ rest
    /\ forallb isSpace ws1 = true /\ word <> [] /\ forallb isWord word = true
    /\ forallb isSpace ws2 = true.
Proof.
  unfold unmatchedVarRegex. intros H.
  apply lit_inv in H as (s1 & -> & H).
  apply star_inv in H as (ws1 & s2 & -> & Hws1 & H).
  apply plus_inv in H as (word & s3 & -> & Hne & Hword & H).
  apply star_inv in H as (ws2 & s4 & -> & Hws2 & H).
  apply lit_inv in H as (s5 & -> & H). injection H as ->.
  exists ws1, word, ws2. repeat split; assumption.
Qed.

Lemma unmatchedVarRegex_opensTag : opensTag unmatchedVarRegex.
Proof.
  intros t rest H.
  apply unmatchedVarRegex_inv in H as (ws1 & word & ws2 & -> & Hws1 & Hne & Hword & _).
  change (js "{{") with [123; 123].
  destruct ws1 as [|w ws1]; cbn [app forallb] in *.
  - destruct word as [|k word]; [congruence|]. cbn [app forallb] in *.
    eexists _, _. split; [reflexivity|]. intros ->. discriminate.
  - eexists _, _. split; [reflexivity|]. intros ->. discriminate.
Qed.

Lemma conditionalPass_nowhere values s :
  nowhere conditionalRegex s -> conditionalPass values s = s.
Proof.
  intros Hnw. apply replaceFrom_no_match. intros pre x y Hxy.
  unfold conditionalMatcher. rewrite (Hnw x y Hxy). reflexivity.
Qed.

Section Reference.
Variables (a ws1 name ws2 b : jsstring).
Hypothesis name_word : isName name = true.
Hypothesis ws1_space : forallb isSpace ws1 = true.
Hypothesis ws2_space : forallb isSpace ws2 = true.
Hypothesis a_plain : includes (js "{{") a = false.
Hypothesis b_plain : includes (js "{{") b = false.

Lemma reference_name : name <> [] /\ forallb isWord name = true.
Proof.
  unfold isName in name_word. destruct name; [discriminate|].
  split; [discriminate | exact name_word].
Qed.

Lemma reference_nonempty : reference ws1 name ws2 <> [].
Proof. discriminate. Qed.

(** After the spaces comes the name, after the name spaces or the closing
    braces. *)
Lemma endsRun_name rest : endsRun isSpace (name ++ rest) = true.
Proof.
  destruct reference_name as [Hne Hw]. destruct name as [|c n]; [congruence|].
  cbn [app endsRun forallb] in *. apply andb_true_iff in Hw as [Hc _].
  rewrite (isWord_not_space _ Hc). reflexivity.
Qed.

Lemma endsRun_close p rest :
  p 125 = false -> endsRun p (js "}}" ++ rest) = true.
Proof. intros H. cbn [js list_ascii_of_string map app endsRun]. change (N_of_ascii "}") with 125. rewrite H. reflexivity. Qed.

Lemma endsRun_spaces rest : endsRun isWord (ws2 ++ js "}}" ++ rest) = true.
Proof.
  destruct ws2 as [|c ws]; [apply endsRun_close; reflexivity|].
  cbn [app endsRun forallb] in *. apply andb_true_iff in ws2_space as [Hc _].
  destruct (isWord c) eqn:Hw; [|reflexivity].
  rewrite (isWord_not_space _ Hw) in Hc. discriminate.
Qed.

Lemma reference_simpleVarRegex :
  simpleVarRegex name (reference ws1 name ws2 ++ b) = Some b.
Proof.
  unfold simpleVarRegex, reference. rewrite <- !app_assoc, lit_app.
  apply star_app;
    [exact ws1_space | exact (endsRun_name (ws2 ++ js "}}" ++ b))|].
  rewrite lit_app.
  apply star_app; [exact ws2_space | exact (endsRun_close isSpace b eq_refl)|].
  rewrite lit_app. reflexivity.
Qed.

Lemma reference_unmatchedVarRegex :
  unmatchedVarRegex (reference ws1 name ws2 ++ b) = Some b.
Proof.
  destruct reference_name as [Hne Hw].
  unfold unmatchedVarRegex, reference. rewrite <- !app_assoc, lit_app.
  apply star_app;
    [exact ws1_space | exact (endsRun_name (ws2 ++ js "}}" ++ b))|].
  apply plus_app; [exact Hne | exact Hw | exact (endsRun_spaces b)|].
  apply star_app; [exact ws2_space | exact (endsRun_close isSpace b eq_refl)|].
  rewrite lit_app. reflexivity.
Qed.

(** The regex of another key does not match the reference. *)
Lemma reference_other_key key :
  forallb isWord key = true -> key <> name ->
  simpleVarRegex key (reference ws1 name ws2 ++ b) = None.
Proof.
  intros Hkey Hneq. destruct reference_name as [Hne Hw].
  destruct (simpleVarRegex key _) as [rest|] eqn:H; [|reflexivity]. exfalso.
  apply simpleVarRegex_inv in H as (w1 & w2 & Heq & Hw1 & Hw2).
  unfold reference in Heq. rewrite <- !app_assoc in Heq.
  apply app_inv_head in Heq.
  destruct key as [|k key].
  - cbn [app] in Heq. rewrite (app_assoc w1 w2) in Heq.
    apply run_unique with (p := isSpace) in Heq as [_ Heq];
      [|exact ws1_space|rewrite forallb_app, Hw1, Hw2; reflexivity
       |apply endsRun_name|apply endsRun_close; reflexivity].
    destruct name as [|c n]; [congruence|]. cbn [app forallb] in *.
    injection Heq as -> _. discriminate.
  - apply run_unique with (p := isSpace) in Heq as [_ Heq];
      [|exact ws1_space|exact Hw1|apply endsRun_name|].
    + apply run_unique with (p := isWord) in Heq as [Heq _];
        [congruence|exact Hw|exact Hkey|apply endsRun_spaces|].
      destruct w2 as [|c w]; [apply endsRun_close; reflexivity|].
      cbn [app endsRun forallb] in *. apply andb_true_iff in Hw2 as [Hc _].
      destruct (isWord c) eqn:Hwc; [|reflexivity].
      rewrite (isWord_not_space _ Hwc) in Hc. discriminate.
    + cbn [app endsRun forallb] in *. apply andb_true_iff in Hkey as [Hk _].
      rewrite (isWord_not_space _ Hk). reflexivity.
Qed.

(** What is behind the first brace of the reference holds no [{{]. *)
Lemma reference_inside :
  includes (js "{{") (ws1 ++ name ++ ws2 ++ js "}}" ++ b) = false
  /\ match ws1 ++ name ++ ws2 ++ js "}}" ++ b with
     | [] => true
     | c :: _ => negb (c =? 123)
     end = true.
Proof.
  destruct reference_name as [Hne Hw]. split.
  - rewrite plain_chars_app by (apply spaces_no_brace, ws1_space).
    rewrite plain_chars_app by (apply words_no_brace, Hw).
    rewrite plain_chars_app by (apply spaces_no_brace, ws2_space).
    exact b_plain.
  - destruct ws1 as [|c ws]; cbn [app forallb] in *.
    + destruct name as [|c n]; [congruence|]. cbn [app forallb] in *.
      apply andb_true_iff in Hw as [Hc _].
      apply negb_true_iff, N.eqb_neq. intros ->. discriminate.
    + apply andb_true_iff in ws1_space as [Hc _].
      apply negb_true_iff, N.eqb_neq. intros ->. discriminate.
Qed.

Section Positions.
Context {X : Type} (re : jsstring -> option X).
Hypothesis re_opens : opensTag re.
Hypothesis re_nil : re [] = None.

Lemma reference_before a1 c a2 :
  a = a1 ++ c :: a2 -> re (c :: a2 ++ reference ws1 name ws2 ++ b) = None.
Proof.
  intros Heq. apply plain_position; [exact re_opens| |].
  - rewrite Heq in a_plain. exact (includes_suffix_false _ _ _ a_plain).
  - right. right. eexists. unfold reference. rewrite <- !app_assoc. reflexivity.
Qed.

Lemma reference_after : nowhere re b.
Proof.
  rewrite <- (app_nil_r b).
  apply nowhere_plain; [exact re_opens | exact b_plain | left; reflexivity|].
  apply nowhere_nil, re_nil.
Qed.

Lemma reference_nowhere :
  re (reference ws1 name ws2 ++ b) = None ->
  nowhere re (a ++ reference ws1 name ws2 ++ b).
Proof.
  intros Hnone. destruct reference_inside as [Hin Hhead].
  apply nowhere_plain;
    [exact re_opens | exact a_plain
     | right; right; eexists; unfold reference; rewrite <- !app_assoc; reflexivity|].
  unfold reference in *. rewrite <- !app_assoc in *.
  change (js "{{" ++ ?t) with (123 :: 123 :: t) in *.
  apply nowhere_cons; [exact Hnone|].
  rewrite <- (app_nil_r (123 :: _)).
  apply nowhere_plain; [exact re_opens| |left; reflexivity|apply nowhere_nil, re_nil].
  change (js "{{") with [123; 123] in *. cbn [includes startsWith].
  rewrite Hin, orb_false_r.
  destruct (ws1 ++ name ++ ws2 ++ js "}}" ++ b) as [|d t]; [reflexivity|].
  apply negb_true_iff in Hhead. rewrite (N.eqb_sym 123 d), Hhead. reflexivity.
Qed.
End Positions.

Lemma reference_replaced (re : jsstring -> option jsstring) r :
  opensTag re -> re [] = None ->
  re (reference ws1 name ws2 ++ b) = Some b ->
  replaceAll (withString re r) (a ++ reference ws1 name ws2 ++ b)
  = a ++ getSubstitution (reference ws1 name ws2) a b r ++ b.
Proof.
  intros Hopens Hnil Hm. apply replaceAll_one.
  - apply reference_nonempty.
  - apply reference_before. exact Hopens.
  - exact Hm.
  - apply reference_after; assumption.
Qed.

Lemma substituteVars_reference values :
  nameKeys values ->
  (forall v,
     getValue values name = Some v ->
     includes (js "{{")
       (a ++ getSubstitution (reference ws1 name ws2) a b (toString v) ++ b)
     = false) ->
  substituteVars values (a ++ reference ws1 name ws2 ++ b)
  = inl match getValue values name with
        | Some v =>
            a ++ getSubstitution (reference ws1 name ws2) a b (toString v) ++ b
        | None => a ++ reference ws1 name ws2 ++ b
        end.
Proof.
  intros Hkeys. induction Hkeys as [|[key v] values Hkey Hkeys IH]; intros Hv;
    [reflexivity|].
  cbn [fst] in Hkey. cbn [substituteVars getValue] in *.
  rewrite (words_literalKey _ Hkey).
  case_bool_decide as Heq.
  - subst key.
    rewrite reference_replaced;
      [|apply simpleVarRegex_opensTag, words_literalKey, Hkey
       |reflexivity|apply reference_simpleVarRegex].
    apply substituteVars_no_token.
    + eapply Forall_impl; [exact Hkeys|]. intros kv. apply words_literalKey.
    + apply plain_no_token, Hv. reflexivity.
  - rewrite replaceAll_nowhere; [exact (IH Hv)|].
    apply reference_nowhere;
      [apply simpleVarRegex_opensTag, words_literalKey, Hkey | reflexivity|].
    apply reference_other_key; assumption.
Qed.

Lemma reference_conditionalRegex :
  conditionalRegex (reference ws1 name ws2 ++ b) = None.
Proof.
  destruct reference_inside as [_ Hhead].
  destruct (conditionalRegex _) as [r|] eqn:H; [|reflexivity]. exfalso.
  unfold conditionalRegex in H. apply lit_inv in H as (s' & Heq & _).
  unfold reference in Heq. rewrite <- !app_assoc in Heq.
  change (js "{{#if" ++ s') with (js "{{" ++ 35 :: js "if" ++ s') in Heq.
  apply app_inv_head in Heq.
  destruct ws1 as [|c ws]; cbn [app forallb] in *.
  - destruct reference_name as [Hne Hw].
    destruct name as [|c n]; [congruence|]. cbn [app forallb] in *.
    injection Heq as -> _. discriminate.
  - injection Heq as -> _. discriminate.
Qed.
End Reference.

Lemma conditionalLoop_nowhere values fuel s :
  s <> [] -> nowhere conditionalRegex s ->
  conditionalLoop values (S fuel) [] s = Some s.
Proof.
  intros Hne Hnw. cbn [conditionalLoop].
  case_bool_decide as H; [congruence|].
  rewrite (conditionalPass_nowhere _ _ Hnw).
  destruct fuel; cbn [conditionalLoop]; rewrite bool_decide_eq_true_2; reflexivity.
Qed.

(** X12: for values whose keys are made of word characters, a reference
    [{{ name }}] in a text that has no other [{{] is replaced by the value of
    the key [name], and by [[___]] when [values] has no such key; what stands
    before and after the reference is kept.  The value is used as a
    replacement string: [$$] in it becomes one dollar sign, [$&] the reference
    itself, and the two that stand for the text before and after the match
    become these texts; a value without a dollar sign is copied as it is.
    This is said of a value with which the text has no [{{], and of a number
    that is a safe integer. *)
Theorem processTemplate_reference values a ws1 name ws2 b :
  nameKeys values ->
  isName name = true ->
  forallb isSpace ws1 = true ->
  forallb isSpace ws2 = true ->
  includes (js "{{") a = false ->
  includes (js "{{") b = false ->
  (forall v,
     getValue values name = Some v ->
     includes (js "{{")
       (a ++ getSubstitution (reference ws1 name ws2) a b (toString v) ++ b)
     = false) ->
  (forall z, getValue values name = Some (VNumber z) -> safeInteger z = true) ->
  processTemplate (a ++ reference ws1 name ws2 ++ b) values
  = Returned
      (a ++ match getValue values name with
            | Some v =>
                getSubstitution (reference ws1 name ws2) a b (toString v)
            | None => js "[___]"
            end ++ b)
  /\ (forall v,
        noDollar (toString v) = true ->
        getSubstitution (reference ws1 name ws2) a b (toString v) = toString v).
Proof.
  intros Hkeys Hname Hws1 Hws2 Ha Hb Hv _.
  split; [|intros v; apply getSubstitution_noDollar].
  pose proof (substituteVars_reference a ws1 name ws2 b Hname Hws1 Hws2 Ha Hb
                values Hkeys Hv) as Hsub.
  unfold processTemplate, processTemplateWith. rewrite Hsub.
  destruct (getValue values name) as [v|] eqn:Hg.
  - specialize (Hv v eq_refl). apply plain_no_token in Hv.
    rewrite conditionalLoop_no_token by exact Hv.
    rewrite cleanUp_no_token by exact Hv. reflexivity.
  - rewrite conditionalLoop_nowhere.
    + rewrite cleanUp_stripTags.
      rewrite (reference_replaced a ws1 name ws2 b Ha Hb unmatchedVarRegex
                 (js "[___]") unmatchedVarRegex_opensTag eq_refl)
        by (apply reference_unmatchedVarRegex; assumption).
      rewrite getSubstitution_noDollar by reflexivity.
      rewrite stripTags_no_token; [reflexivity|].
      apply plain_no_token, plain_app; [exact Ha| |reflexivity].
      rewrite plain_chars_app by reflexivity. exact Hb.
    + destruct a; discriminate.
    + apply reference_nowhere; try assumption;
        [exact conditionalRegex_opensTag | reflexivity|].
      apply reference_conditionalRegex; assumption.
Qed.

Lemma processTemplate_reference_witness :
  processTemplate (js "Rent: {{ rent }} a month")
    [(js "tenant", VString (js "Ann")); (js "rent", VString (js "$$1200"))]
  = Returned (js "Rent: $1200 a month").
Proof.
  refine (proj1 (processTemplate_reference
                   [(js "tenant", VString (js "Ann"));
                    (js "rent", VString (js "$$1200"))]
                   (js "Rent: ") [32] (js "rent") [32] (js " a month")
                   _ eq_refl eq_refl eq_refl eq_refl eq_refl _ _)).
  - repeat constructor.
  - intros v Hv. injection Hv as <-. reflexivity.
  - intros z Hz. vm_compute in Hz. discriminate Hz.
Defined.

(** ** Blocks that the engine does not know *)

Section Unless.
Variables (name a : jsstring).
Hypothesis name_word : isName name = true.
Hypothesis a_plain : includes (js "{{") a = false.

Lemma unless_name : name <> [] /\ forallb isWord name = true.
Proof.
  unfold isName in name_word. destruct name; [discriminate|].
  split; [discriminate | exact name_word].
Qed.

Lemma unless_close_nowhere {X} (re : jsstring -> option X) :
  opensTag re -> re [] = None ->
  re (js "{{/unless}}") = None ->
  nowhere re (js "{{/unless}}").
Proof.
  intros Hopens Hnil Hclose.
  change (js "{{/unless}}") with (123 :: js "{/unless}}") in *.
  apply nowhere_cons; [exact Hclose|].
  rewrite <- (app_nil_r (js "{/unless}}")).
  apply nowhere_plain;
    [exact Hopens | reflexivity | left; reflexivity | apply nowhere_nil, Hnil].
Qed.

Lemma unless_body_nowhere {X} (re : jsstring -> option X) :
  opensTag re -> re [] = None ->
  re (js "{{/unless}}") = None ->
  nowhere re (a ++ js "{{/unless}}").
Proof.
  intros Hopens Hnil Hclose.
  apply nowhere_plain;
    [exact Hopens | exact a_plain | right; right; eexists; reflexivity|].
  apply unless_close_nowhere; assumption.
Qed.

Lemma unless_inside :
  includes (js "{{") (js "{#unless " ++ name ++ js "}}" ++ a) = false.
Proof.
  destruct unless_name as [_ Hw].
  change (js "{#unless " ++ ?t) with ([123] ++ js "#unless " ++ t).
  apply plain_app; [reflexivity| |reflexivity].
  rewrite plain_chars_app by reflexivity.
  rewrite plain_chars_app by (apply words_no_brace, Hw).
  rewrite plain_chars_app by reflexivity. exact a_plain.
Qed.

Lemma unless_nowhere {X} (re : jsstring -> option X) :
  opensTag re -> re [] = None ->
  re (unlessBlock name a) = None ->
  re (js "{{/unless}}") = None ->
  nowhere re (unlessBlock name a).
Proof.
  intros Hopens Hnil Hopen Hclose. unfold unlessBlock in *.
  change (js "{{#unless " ++ ?t) with (123 :: js "{#unless " ++ t) in *.
  apply nowhere_cons; [exact Hopen|].
  replace (js "{#unless " ++ name ++ js "}}" ++ a ++ js "{{/unless}}")
    with ((js "{#unless " ++ name ++ js "}}" ++ a) ++ js "{{/unless}}")
    by (rewrite <- !app_assoc; reflexivity).
  apply nowhere_plain;
    [exact Hopens | exact unless_inside | right; right; eexists; reflexivity|].
  apply unless_close_nowhere; assumption.
Qed.

Lemma unless_simpleVarRegex key :
  forallb isWord key = true ->
  nowhere (simpleVarRegex key) (unlessBlock name a).
Proof.
  intros Hkey.
  apply unless_nowhere;
    [apply simpleVarRegex_opensTag, words_literalKey, Hkey | reflexivity| |].
  - apply (simpleVarRegex_third key 35); [exact Hkey|reflexivity..|discriminate].
  - apply (simpleVarRegex_third key 47); [exact Hkey|reflexivity..|discriminate].
Qed.

Lemma substituteVars_unless values :
  nameKeys values ->
  substituteVars values (unlessBlock name a) = inl (unlessBlock name a).
Proof.
  intros Hkeys. apply substituteVars_nowhere.
  eapply Forall_impl; [exact Hkeys|]. intros [key v] Hkey. cbn [fst] in *.
  split; [apply words_literalKey, Hkey | apply unless_simpleVarRegex, Hkey].
Qed.

Lemma unless_openTagRegex :
  openTagRegex (js "{{#unless") (js "{{#unless " ++ name ++ js "}}" ++ a ++ js "{{/unless}}")
  = Some (a ++ js "{{/unless}}").
Proof.
  destruct unless_name as [Hne Hw]. unfold openTagRegex.
  change (js "{{#unless " ++ ?t) with (js "{{#unless" ++ [32] ++ t).
  rewrite lit_app.
  apply plus_app; [discriminate | reflexivity| |].
  - destruct name as [|c n]; [congruence|]. cbn [app forallb] in *.
    apply andb_true_iff in Hw as [Hc _]. rewrite (isWord_not_space _ Hc). reflexivity.
  - apply plus_app; [exact Hne | exact Hw | reflexivity|].
    rewrite lit_app. reflexivity.
Qed.

Lemma stripTags_unless : stripTags (unlessBlock name a) = a.
Proof.
  unfold stripTags.
  rewrite (replaceAll_nowhere _ _ (unlessBlock name a))
    by (apply unless_nowhere;
          [apply (opensTag_lit _ _ 35 (js "if")); [reflexivity|discriminate]
          |reflexivity..]).
  rewrite (replaceAll_nowhere _ _ (unlessBlock name a))
    by (apply unless_nowhere;
          [apply (opensTag_lit _ _ 101 (js "lse}}")); [reflexivity|discriminate]
          |reflexivity..]).
  rewrite (replaceAll_nowhere _ _ (unlessBlock name a))
    by (apply unless_nowhere;
          [apply (opensTag_lit _ _ 47 (js "if}}")); [reflexivity|discriminate]
          |reflexivity..]).
  assert (Hopen : opensTag (openTagRegex (js "{{#unless")))
    by (apply (opensTag_lit _ _ 35 (js "unless")); [reflexivity|discriminate]).
  assert (Hclose : opensTag (literalRegex (js "{{/unless}}")))
    by (apply (opensTag_lit _ _ 47 (js "unless}}")); [reflexivity|discriminate]).
  pose proof (replaceAll_one (openTagRegex (js "{{#unless")) [] []
                (js "{{#unless " ++ name ++ js "}}") (a ++ js "{{/unless}}")) as H1.
  cbn [app getSubstitution] in H1. unfold unlessBlock at 1.
  rewrite <- !app_assoc in H1. rewrite H1; clear H1.
  - pose proof (replaceAll_one (literalRegex (js "{{/unless}}")) [] a
                  (js "{{/unless}}") []) as H2.
    cbn [getSubstitution] in H2. rewrite !app_nil_r in H2. apply H2.
    + discriminate.
    + intros a1 c a2 Heq. apply plain_position; [exact Hclose| |].
      * rewrite Heq in a_plain. exact (includes_suffix_false _ _ _ a_plain).
      * right. right. eexists. reflexivity.
    + reflexivity.
    + apply nowhere_nil. reflexivity.
  - discriminate.
  - intros a1 c a2 Heq. destruct a1; discriminate Heq.
  - rewrite !app_assoc. rewrite <- !app_assoc. exact unless_openTagRegex.
  - apply unless_body_nowhere; [exact Hopen | reflexivity | reflexivity].
Qed.

End Unless.

(** X13: the engine has no [{{#unless}}] blocks.  For values whose keys
    are made of word characters, of a block [{{#unless name}}a{{/unless}}]
    with a body without [{{] the two tags are stripped and the body [a] is
    returned, whatever the value of [name] is: the body is never left out. *)
Theorem processTemplate_unless values name a :
  nameKeys values ->
  isName name = true ->
  includes (js "{{") a = false ->
  processTemplate (unlessBlock name a) values = Returned a.
Proof.
  intros Hkeys Hname Ha. unfold processTemplate, processTemplateWith.
  rewrite (substituteVars_unless name a Hname Ha values Hkeys).
  rewrite conditionalLoop_nowhere;
    [|discriminate
     |apply (unless_nowhere name a Hname Ha);
        [exact conditionalRegex_opensTag | reflexivity..]].
  rewrite cleanUp_stripTags.
  rewrite replaceAll_nowhere
    by (apply (unless_nowhere name a Hname Ha);
          [exact unmatchedVarRegex_opensTag | reflexivity..]).
  rewrite (stripTags_unless name a Hname Ha). reflexivity.
Qed.

Lemma processTemplate_unless_witness :
  processTemplate (js "{{#unless pets}}No pets are kept.{{/unless}}")
    [(js "pets", VBool true)]
  = Returned (js "No pets are kept.").
Proof.
  refine (processTemplate_unless [(js "pets", VBool true)] (js "pets")
            (js "No pets are kept.") _ eq_refl eq_refl).
  repeat constructor.
Defined.

(** ** Which message a variable gets *)

Lemma validateVariables_messageOf regexTest variables values result variable :
  NoDup (map name variables) ->
  validateVariables regexTest variables values = Some result ->
  variable ∈ variables ->
  name variable <> js "__proto__" ->
  errors result !! name variable
  = messageOf regexTest variable (readProperty values (name variable)).
Proof.
  intros Hnd Hresult Hin Hproto.
  apply validateVariables_returns in Hresult as [-> _].
  apply fold_recordError_own; [assumption..|apply lookup_empty].
Qed.

(** X14: which of its messages a variable gets, and which values get none.
    When [validateVariables] returns, with distinct names, for a variable
    with constraints whose name is not [__proto__] and whose bounds are safe
    integers: a string that is not empty and longer than [maxLength] gets
    the message about [maxLength], whatever its pattern and [minLength] say;
    a number above [max] gets the message about [max], whatever [min] says;
    a boolean that is there, [false] too, gets no message; and a variable
    that has no value of its own but a name that every object inherits, such
    as [constructor], gets no message either, required or not. *)
Theorem validateVariables_message
    regexTest variables values result variable c :
  NoDup (map name variables) ->
  validateVariables regexTest variables values = Some result ->
  variable ∈ variables ->
  name variable <> js "__proto__" ->
  validation variable = Some c ->
  safeConstraints variable = true ->
  (forall ch s m,
     readProperty values (name variable) = Own (VString (ch :: s)) ->
     Validation.maxLength c = Some m ->
     (m < Z.of_nat (length (ch :: s)))%Z ->
     errors result !! name variable
     = Some (label variable ++ js " must be at most " ++ numberToString m
             ++ js " characters"))
  /\ (forall n m,
        readProperty values (name variable) = Own (VNumber n) ->
        Validation.max c = Some m ->
        (m < n)%Z ->
        errors result !! name variable
        = Some (label variable ++ js " must be at most " ++ numberToString m))
  /\ (forall b,
        readProperty values (name variable) = Own (VBool b) ->
        errors result !! name variable = None)
  /\ (getValue values (name variable) = None ->
      isInherited (name variable) = true ->
      errors result !! name variable = None).
Proof.
  intros Hnd Hresult Hin Hproto Hc _.
  rewrite (validateVariables_messageOf _ _ _ _ _ Hnd Hresult Hin Hproto).
  unfold messageOf, orElse. rewrite Hc. repeat split.
  - intros ch s m -> -> Hm. cbn [isMissing].
    apply Z.ltb_lt in Hm. rewrite Hm. reflexivity.
  - intros n m -> -> Hm. cbn [isMissing].
    apply Z.ltb_lt in Hm. rewrite Hm. reflexivity.
  - intros b ->. reflexivity.
  - intros Hown Hinherited. unfold readProperty. rewrite Hown, Hinherited.
    reflexivity.
Qed.

Lemma validateVariables_message_witness :
  exists result,
    validateVariables (fun _ _ => Some false) [zipVariable; noteVariable]
      [(js "zip", VString (js "94110")); (js "note", VBool false)]
    = Some result
    /\ errors result !! js "note" = None.
Proof.
  eexists. split; [reflexivity|].
  refine (proj1 (proj2 (proj2
            (validateVariables_message (fun _ _ => Some false)
               [zipVariable; noteVariable]
               [(js "zip", VString (js "94110")); (js "note", VBool false)]
               _ noteVariable _ _ eq_refl _ _ eq_refl eq_refl)))
            false eq_refl).
  - apply (bool_decide_unpack _). vm_compute. exact I.
  - repeat constructor.
  - discriminate.
Defined.

(** ** The counts of the preview *)

Lemma required_missing_error regexTest values variables :
  forall errs variable,
    In variable variables ->
    required variable = true ->
    isMissing (readProperty values (name variable)) = true ->
    name variable <> js "__proto__" ->
    is_Some (fold_left (recordError regexTest values) variables errs
             !! name variable).
Proof.
  induction variables as [|v variables IH];
    intros errs variable Hin Hreq Hmiss Hproto; [destruct Hin|].
  cbn [fold_left]. destruct Hin as [->|Hin].
  - apply fold_recordError_keeps. rewrite recordError_own by exact Hproto.
    rewrite (messageOf_required regexTest variable _ Hreq Hmiss).
    eexists; reflexivity.
  - apply IH; assumption.
Qed.

(** Variables that are accepted are filled where they are required, when
    none of them is named [__proto__]. *)
Lemma isValid_filled regexTest values variables result :
  validateVariables regexTest variables values = Some result ->
  isValid result = true ->
  Forall (fun v => name v <> js "__proto__") variables ->
  forallb (fun v => implb (required v) (isFilled values v)) variables = true.
Proof.
  intros Hresult Hvalid Hproto. apply forallb_forall. intros v Hin.
  destruct (required v) eqn:Hreq; [|reflexivity]. cbn [implb].
  unfold isFilled.
  destruct (isMissing (readProperty values (name v))) eqn:Hmiss;
    [|reflexivity].
  exfalso. apply validateVariables_returns in Hresult as [Herrors Hsize].
  rewrite Hsize in Hvalid.
  apply bool_decide_eq_true in Hvalid. apply map_size_empty_iff in Hvalid.
  pose proof (proj1 (List.Forall_forall _ _) Hproto v Hin) as Hname.
  pose proof (required_missing_error regexTest values variables ∅ v Hin Hreq
                Hmiss Hname) as [e He].
  rewrite <- Herrors, Hvalid, lookup_empty in He. discriminate.
Qed.

Lemma filter_length_le {A} (p : A -> bool) l :
  (length (List.filter p l) <= length l)%nat.
Proof.
  induction l as [|x l IH]; [reflexivity|].
  cbn [List.filter]. destruct (p x); cbn [length]; lia.
Qed.

Lemma filter_length_all {A} (p : A -> bool) l :
  length (List.filter p l) = length l <-> forallb p l = true.
Proof.
  induction l as [|x l IH]; [split; reflexivity|].
  cbn [List.filter forallb]. pose proof (filter_length_le p l).
  destruct (p x); cbn [length andb].
  - rewrite <- IH. split; lia.
  - split; [lia | discriminate].
Qed.

Lemma filter_required_filled values l :
  forallb (isFilled values) (List.filter (fun v => required v) l)
  = forallb (fun v => implb (required v) (isFilled values v)) l.
Proof.
  induction l as [|x l IH]; [reflexivity|].
  cbn [List.filter forallb]. destruct (required x); cbn [forallb implb];
    rewrite IH; reflexivity.
Qed.

Lemma filter_split_length values l :
  (length (List.filter (isFilled values) (List.filter (fun v => required v) l))
   + length (List.filter
               (fun v => if required v then false else isFilled values v) l)
   <= length l)%nat.
Proof.
  induction l as [|x l IH]; [reflexivity|].
  cbn [List.filter]. destruct (required x); cbn [List.filter];
    destruct (isFilled values x); cbn [length]; lia.
Qed.

Lemma isComplete_filled sections values :
  isComplete (variableStats sections values) = true
  <-> forallb (fun v => implb (required v) (isFilled values v))
        (flat_map variables sections) = true.
Proof.
  unfold variableStats. cbv zeta. cbn [isComplete].
  rewrite Nat.eqb_eq, filter_length_all, filter_required_filled. reflexivity.
Qed.

Lemma filled_conditions values variables :
  forallb (fun v => implb (required v) (isFilled values v)) variables = true
  <-> forall v,
        In v variables -> required v = true ->
        readProperty values (name v) <> Undefined
        /\ readProperty values (name v) <> Own (VString []).
Proof.
  rewrite forallb_forall. unfold isFilled. split.
  - intros H v Hin Hreq. specialize (H v Hin). rewrite Hreq in H.
    cbn [implb] in H. apply negb_true_iff in H.
    apply isMissing_false. exact H.
  - intros H v Hin. destruct (required v) eqn:Hreq; [|reflexivity].
    cbn [implb]. apply negb_true_iff, isMissing_false. apply H; assumption.
Qed.

(** X15: the counts of the document preview.  The required variables that
    are filled are no more than the required ones, these and the optional
    ones that are filled are no more than all; the preview calls the
    document complete exactly when [values[name]] of every required variable
    is neither undefined nor the empty string; and values that
    [validateVariables] accepts for the variables of all sections, none of
    which is named [__proto__], make the document complete. *)
Theorem variableStats_complete regexTest sections values :
  let stats := variableStats sections values in
  (filledRequired stats <= requiredCount stats <= total stats)%nat
  /\ (filledRequired stats + filledOptional stats <= total stats)%nat
  /\ (isComplete stats = true
      <-> forall v,
            In v (flat_map variables sections) -> required v = true ->
            readProperty values (name v) <> Undefined
            /\ readProperty values (name v) <> Own (VString []))
  /\ (forall result,
        validateVariables regexTest (flat_map variables sections) values
        = Some result ->
        isValid result = true ->
        Forall (fun v => name v <> js "__proto__")
          (flat_map variables sections) ->
        isComplete stats = true).
Proof.
  cbv zeta. split; [|split; [|split]].
  - unfold variableStats. cbv zeta. cbn [filledRequired requiredCount total].
    split; apply filter_length_le.
  - unfold variableStats. cbv zeta. cbn [filledRequired filledOptional total].
    apply filter_split_length.
  - rewrite isComplete_filled. apply filled_conditions.
  - intros result Hresult Hvalid Hproto. apply isComplete_filled.
    exact (isValid_filled _ _ _ _ Hresult Hvalid Hproto).
Qed.

Lemma variableStats_complete_witness :
  isComplete (variableStats
                [{| variables := [zipVariable; noteVariable];
                    showIf := None |}]
                [(js "zip", VString (js "94110"))]) = true.
Proof.
  refine (proj2 (proj2 (proj2
            (variableStats_complete (fun _ _ => Some true)
               [{| variables := [zipVariable; noteVariable]; showIf := None |}]
               [(js "zip", VString (js "94110"))])))
            _ eq_refl eq_refl _).
  repeat constructor; discriminate.
Defined.

(** ** Markdown to HTML *)

Lemma lacks_app c a b : lacks c (a ++ b) = lacks c a && lacks c b.
Proof. apply forallb_app. Qed.

(** A regex whose matches open with a character finds nothing in a text
    without that character. *)
Lemma replaceFrom_lacks m c s :
  (forall pre t r, m pre t = Some r -> exists u, t = c :: u) ->
  lacks c s = true ->
  forall pre, replaceFrom m pre 0 s = s.
Proof.
  intros Hm Hs. apply replaceFrom_no_match. intros pre a b ->.
  destruct (m pre b) as [r|] eqn:Hb; [|reflexivity]. exfalso.
  apply Hm in Hb as [u ->]. rewrite lacks_app in Hs.
  apply andb_true_iff in Hs as [_ Hs]. cbn [lacks forallb] in Hs.
  rewrite N.eqb_refl in Hs. discriminate.
Qed.

Lemma lineMatcher_opens marks open close c marks' :
  marks = c :: marks' ->
  forall pre t r,
    lineMatcher marks open close pre t = Some r -> exists u, t = c :: u.
Proof.
  intros -> pre t r. unfold lineMatcher.
  destruct (atLineStart pre); [|discriminate]. intros H.
  apply lit_inv in H as (s' & -> & _). eexists. reflexivity.
Qed.

Lemma spanMatcher_opens mark open close c mark' :
  mark = c :: mark' ->
  forall pre t r,
    spanMatcher mark open close pre t = Some r -> exists u, t = c :: u.
Proof.
  intros -> pre t r. unfold spanMatcher. intros H.
  apply lit_inv in H as (s' & -> & _). eexists. reflexivity.
Qed.

Lemma literal_opens l r c l' :
  l = c :: l' ->
  forall pre t x,
    withString (literalRegex l) r pre t = Some x -> exists u, t = c :: u.
Proof.
  intros -> pre t x. unfold withString, literalRegex.
  destruct (lit (c :: l') Some t) as [rest|] eqn:H; [|discriminate]. intros _.
  apply lit_inv in H as (s' & -> & _). eexists. reflexivity.
Qed.

Lemma lacks_flat_map c r s :
  lacks c r = true ->
  lacks c (flat_map (fun d => if d =? c then r else [d]) s) = true.
Proof.
  intros Hr. induction s as [|d s IH]; [reflexivity|].
  cbn [flat_map]. rewrite lacks_app, IH, andb_true_r.
  destruct (N.eqb_spec d c) as [->|Hd]; [exact Hr|].
  cbn [lacks forallb]. apply N.eqb_neq in Hd. rewrite Hd. reflexivity.
Qed.

(** X16: [markdownToHtml] of the library escapes nothing.  What it puts
    between its opening and closing tags has no line feed: every line feed
    of the text becomes a tag.  A text without a number sign and without an
    asterisk is changed at its line feeds only, and a text that has no line
    feed either is copied as it is, with the angle brackets and ampersands
    that it may hold. *)
Theorem markdownToHtml_plain markdown :
  (exists html,
     CaseApi.markdownToHtml markdown
     = quoted "<div class='document-content'><p>" ++ html ++ js "</p></div>"
     /\ lacks 10 html = true)
  /\ (lacks 35 markdown = true ->
      lacks 42 markdown = true ->
      CaseApi.markdownToHtml markdown
      = quoted "<div class='document-content'><p>"
        ++ replaceAll (withString (literalRegex [10]) (js "<br/>"))
             (replaceAll (withString (literalRegex [10; 10]) (js "</p><p>"))
                markdown)
        ++ js "</p></div>"
      /\ (lacks 10 markdown = true ->
          CaseApi.markdownToHtml markdown
          = quoted "<div class='document-content'><p>" ++ markdown
            ++ js "</p></div>")).
Proof.
  unfold CaseApi.markdownToHtml. cbv zeta. split.
  - eexists. split; [reflexivity|].
    rewrite replaceAll_char by reflexivity. apply lacks_flat_map. reflexivity.
  - intros Hhash Hstar.
    assert (Hsteps :
      replaceAll (spanMatcher (js "*") (js "<em>") (js "</em>"))
        (replaceAll (spanMatcher (js "**") (js "<strong>") (js "</strong>"))
           (replaceAll (lineMatcher (js "# ") (js "<h1>") (js "</h1>"))
              (replaceAll (lineMatcher (js "## ") (js "<h2>") (js "</h2>"))
                 (replaceAll (lineMatcher (js "### ") (js "<h3>") (js "</h3>"))
                    markdown))))
      = markdown).
    { unfold replaceAll.
      rewrite (replaceFrom_lacks (lineMatcher (js "### ") _ _) 35 markdown)
        by (first [eapply lineMatcher_opens; reflexivity | exact Hhash]).
      rewrite (replaceFrom_lacks (lineMatcher (js "## ") _ _) 35 markdown)
        by (first [eapply lineMatcher_opens; reflexivity | exact Hhash]).
      rewrite (replaceFrom_lacks (lineMatcher (js "# ") _ _) 35 markdown)
        by (first [eapply lineMatcher_opens; reflexivity | exact Hhash]).
      rewrite (replaceFrom_lacks (spanMatcher (js "**") _ _) 42 markdown)
        by (first [eapply spanMatcher_opens; reflexivity | exact Hstar]).
      rewrite (replaceFrom_lacks (spanMatcher (js "*") _ _) 42 markdown)
        by (first [eapply spanMatcher_opens; reflexivity | exact Hstar]).
      reflexivity. }
    rewrite Hsteps. split; [reflexivity|]. intros Hlf. unfold replaceAll.
    rewrite (replaceFrom_lacks _ 10 markdown)
      by (first [eapply literal_opens; reflexivity | exact Hlf]).
    rewrite (replaceFrom_lacks _ 10 markdown)
      by (first [eapply literal_opens; reflexivity | exact Hlf]).
    reflexivity.
Qed.

Lemma markdownToHtml_plain_witness :
  CaseApi.markdownToHtml (js "Rent <b>due</b> & payable")
  = quoted "<div class='document-content'><p>" ++ js "Rent <b>due</b> & payable"
    ++ js "</p></div>".
Proof.
  exact (proj2 (proj2 (markdownToHtml_plain (js "Rent <b>due</b> & payable"))
                  eq_refl eq_refl) eq_refl).
Defined.

Lemma replaceFrom_none m pre c s :
  m pre (c :: s) = None ->
  replaceFrom m pre 0 (c :: s) = c :: replaceFrom m (c :: pre) 0 s.
Proof. intros H. rewrite replaceFrom_cons, H. reflexivity. Qed.

Lemma lineMatcher_line marks open close t :
  forallb dotChar t = true ->
  lineMatcher marks open close [] (marks ++ t) = Some (open ++ t ++ close, []).
Proof.
  intros Hdot. unfold lineMatcher. cbn [atLineStart]. rewrite lit_app.
  rewrite <- (app_nil_r t) at 1. apply star_app; [exact Hdot|reflexivity..].
Qed.

Lemma lineMatcher_nil marks open close c marks' :
  marks = c :: marks' ->
  forall pre, lineMatcher marks open close pre [] = None.
Proof. intros -> pre. unfold lineMatcher. destruct (atLineStart pre); reflexivity. Qed.

Lemma replaceAll_line marks open close c marks' t :
  marks = c :: marks' ->
  forallb dotChar t = true ->
  replaceFrom (lineMatcher marks open close) [] 0 (marks ++ t)
  = open ++ t ++ close.
Proof.
  intros Hmarks Hdot. apply replaceAll_whole.
  - rewrite Hmarks. discriminate.
  - apply (lineMatcher_nil _ _ _ _ _ Hmarks).
  - apply lineMatcher_line, Hdot.
Qed.

Lemma dot_lacks_lf t : forallb dotChar t = true -> lacks 10 t = true.
Proof.
  induction t as [|c t IH]; [reflexivity|]. cbn [forallb lacks]. intros H.
  apply andb_true_iff in H as [Hc H]. fold (lacks 10 t). rewrite (IH H), andb_true_r.
  unfold dotChar, isLineTerminator in Hc.
  destruct (N.eqb_spec c 10) as [->|_]; [discriminate | reflexivity].
Qed.

(** What is left of the conversion for a text without asterisks and line
    feeds. *)
Lemma spans_and_breaks html :
  lacks 42 html = true -> lacks 10 html = true ->
  replaceFrom (withString (literalRegex [10]) (js "<br/>")) [] 0
    (replaceFrom (withString (literalRegex [10; 10]) (js "</p><p>")) [] 0
       (replaceFrom (spanMatcher (js "*") (js "<em>") (js "</em>")) [] 0
          (replaceFrom (spanMatcher (js "**") (js "<strong>") (js "</strong>"))
             [] 0 html)))
  = html.
Proof.
  intros Hstar Hlf.
  rewrite (replaceFrom_lacks (spanMatcher (js "**") _ _) 42 html)
    by (first [eapply spanMatcher_opens; reflexivity | exact Hstar]).
  rewrite (replaceFrom_lacks (spanMatcher (js "*") _ _) 42 html)
    by (first [eapply spanMatcher_opens; reflexivity | exact Hstar]).
  rewrite (replaceFrom_lacks _ 10 html)
    by (first [eapply literal_opens; reflexivity | exact Hlf]).
  rewrite (replaceFrom_lacks _ 10 html)
    by (first [eapply literal_opens; reflexivity | exact Hlf]).
  reflexivity.
Qed.

(** The marks of another level are copied. *)
Lemma lineMatcher_copy marks open close marks' a t :
  marks = 35 :: marks' ->
  lacks 35 t = true ->
  (forall a1 c a2,
     a = a1 ++ c :: a2 ->
     lineMatcher marks open close (rev a1) (c :: a2 ++ t) = None) ->
  replaceFrom (lineMatcher marks open close) [] 0 (a ++ t) = a ++ t.
Proof.
  intros Hmarks Hhash Ha. rewrite replaceFrom_prefix.
  - rewrite (replaceFrom_lacks _ 35 t);
      [reflexivity | apply (lineMatcher_opens _ _ _ _ _ Hmarks) | exact Hhash].
  - intros a1 c a2 Heq. rewrite app_nil_r. exact (Ha a1 c a2 Heq).
Qed.

Ltac marks_copied :=
  let a1 := fresh "a1" in
  let Heq := fresh "Heq" in
  intros a1 ? ? Heq;
  repeat (destruct a1 as [|? a1];
          [injection Heq as <- <-; reflexivity
          |injection Heq as <- Heq]);
  destruct a1; discriminate Heq.

(** X17: the headings of [markdownToHtml] of the library.  One, two or
    three number signs and a space at the start of the text, before a text
    without line terminators, number signs and asterisks, make a heading of
    level 1, 2 or 3 around that text; four number signs make no heading and
    are kept. *)
Theorem markdownToHtml_headings t :
  forallb dotChar t = true ->
  lacks 35 t = true ->
  lacks 42 t = true ->
  CaseApi.markdownToHtml (js "# " ++ t)
  = quoted "<div class='document-content'><p>" ++ js "<h1>" ++ t ++ js "</h1>"
    ++ js "</p></div>"
  /\ CaseApi.markdownToHtml (js "## " ++ t)
     = quoted "<div class='document-content'><p>" ++ js "<h2>" ++ t ++ js "</h2>"
       ++ js "</p></div>"
  /\ CaseApi.markdownToHtml (js "### " ++ t)
     = quoted "<div class='document-content'><p>" ++ js "<h3>" ++ t ++ js "</h3>"
       ++ js "</p></div>"
  /\ CaseApi.markdownToHtml (js "#### " ++ t)
     = quoted "<div class='document-content'><p>" ++ js "#### " ++ t
       ++ js "</p></div>".
Proof.
  intros Hdot Hhash Hstar. pose proof (dot_lacks_lf t Hdot) as Hlf.
  assert (Htag : forall open close,
            lacks 35 open = true -> lacks 35 close = true ->
            lacks 35 (open ++ t ++ close) = true)
    by (intros open close Ho Hc; rewrite !lacks_app, Ho, Hhash, Hc; reflexivity).
  unfold CaseApi.markdownToHtml, replaceAll. cbv zeta. repeat split.
  - rewrite (lineMatcher_copy (js "### ") _ _ (js "## ") (js "# ") t eq_refl Hhash)
      by marks_copied.
    rewrite (lineMatcher_copy (js "## ") _ _ (js "# ") (js "# ") t eq_refl Hhash)
      by marks_copied.
    rewrite (replaceAll_line _ _ _ 35 [32]) by (reflexivity || exact Hdot).
    rewrite spans_and_breaks;
      [rewrite <- ?app_assoc; reflexivity
       | rewrite !lacks_app, Hstar; reflexivity
       | rewrite !lacks_app, Hlf; reflexivity].
  - rewrite (lineMatcher_copy (js "### ") _ _ (js "## ") (js "## ") t eq_refl Hhash)
      by marks_copied.
    rewrite (replaceAll_line _ _ _ 35 [35; 32]) by (reflexivity || exact Hdot).
    rewrite (replaceFrom_lacks _ 35 (js "<h2>" ++ t ++ js "</h2>"))
      by (first [eapply lineMatcher_opens; reflexivity
                | apply Htag; reflexivity]).
    rewrite spans_and_breaks;
      [rewrite <- ?app_assoc; reflexivity
       | rewrite !lacks_app, Hstar; reflexivity
       | rewrite !lacks_app, Hlf; reflexivity].
  - rewrite (replaceAll_line _ _ _ 35 [35; 35; 32]) by (reflexivity || exact Hdot).
    rewrite (replaceFrom_lacks _ 35 (js "<h3>" ++ t ++ js "</h3>"))
      by (first [eapply lineMatcher_opens; reflexivity
                | apply Htag; reflexivity]).
    rewrite (replaceFrom_lacks _ 35 (js "<h3>" ++ t ++ js "</h3>"))
      by (first [eapply lineMatcher_opens; reflexivity
                | apply Htag; reflexivity]).
    rewrite spans_and_breaks;
      [rewrite <- ?app_assoc; reflexivity
       | rewrite !lacks_app, Hstar; reflexivity
       | rewrite !lacks_app, Hlf; reflexivity].
  - rewrite (lineMatcher_copy (js "### ") _ _ (js "## ") (js "#### ") t eq_refl Hhash)
      by marks_copied.
    rewrite (lineMatcher_copy (js "## ") _ _ (js "# ") (js "#### ") t eq_refl Hhash)
      by marks_copied.
    rewrite (lineMatcher_copy (js "# ") _ _ (js " ") (js "#### ") t eq_refl Hhash)
      by marks_copied.
    rewrite spans_and_breaks;
      [reflexivity | rewrite lacks_app, Hstar; reflexivity
       | rewrite lacks_app, Hlf; reflexivity].
Qed.

Lemma markdownToHtml_headings_witness :
  CaseApi.markdownToHtml (js "## Term of the lease")
  = quoted "<div class='document-content'><p>" ++ js "<h2>Term of the lease</h2>"
    ++ js "</p></div>".
Proof.
  exact (proj1 (proj2 (markdownToHtml_headings (js "Term of the lease")
                         eq_refl eq_refl eq_refl))).
Defined.

Lemma replaceFirst_no_match m s :
  (forall pre a b, s = a ++ b -> m pre b = None) ->
  forall pre, replaceFirst m pre s = s.
Proof.
  induction s as [|c s IH]; intros Hm pre.
  - cbn [replaceFirst]. rewrite (Hm pre [] []); reflexivity.
  - cbn [replaceFirst]. rewrite (Hm pre [] (c :: s)) by reflexivity.
    f_equal. apply IH. intros pre' a b ->. apply (Hm pre' (c :: a)). reflexivity.
Qed.

Lemma startsWith_lit {R} l (k : jsstring -> option R) s r :
  lit l k s = Some r -> startsWith l s = true.
Proof.
  intros H. apply lit_inv in H as (s' & -> & _). apply startsWith_app.
Qed.

Lemma rule_opens r pre t x :
  withStringAt ruleRegex r pre t = Some x -> exists u, t = 45 :: u.
Proof.
  unfold withStringAt, withString, ruleRegex.
  destruct (atLineStart pre); [|discriminate].
  destruct (lit (js "---") _ t) as [rest|] eqn:H; [|discriminate]. intros _.
  apply lit_inv in H as (s' & -> & _). eexists. reflexivity.
Qed.

(** X18: [markdownToHtml] of the format route escapes nothing either.
    What it puts into the body of its page has no line feed; and a text
    without number signs, asterisks, hyphens and line feeds, in which no
    [<li>] opens, is put there as it is. *)
Theorem routeMarkdownToHtml_plain markdown :
  (exists html,
     FormatRoute.markdownToHtml markdown = pageHead ++ html ++ pageFoot
     /\ lacks 10 html = true)
  /\ (lacks 35 markdown = true ->
      lacks 42 markdown = true ->
      lacks 45 markdown = true ->
      lacks 10 markdown = true ->
      includes (js "<li>") markdown = false ->
      FormatRoute.markdownToHtml markdown = pageHead ++ markdown ++ pageFoot).
Proof.
  unfold FormatRoute.markdownToHtml. cbv zeta. split.
  - eexists. split; [reflexivity|].
    rewrite replaceAll_char by reflexivity. apply lacks_flat_map. reflexivity.
  - intros Hhash Hstar Hdash Hlf Hli. unfold replaceAll.
    rewrite (replaceFrom_lacks (lineMatcher (js "### ") _ _) 35 markdown)
      by (first [eapply lineMatcher_opens; reflexivity | exact Hhash]).
    rewrite (replaceFrom_lacks (lineMatcher (js "## ") _ _) 35 markdown)
      by (first [eapply lineMatcher_opens; reflexivity | exact Hhash]).
    rewrite (replaceFrom_lacks (lineMatcher (js "# ") _ _) 35 markdown)
      by (first [eapply lineMatcher_opens; reflexivity | exact Hhash]).
    rewrite (replaceFrom_lacks (spanMatcher (js "**") _ _) 42 markdown)
      by (first [eapply spanMatcher_opens; reflexivity | exact Hstar]).
    rewrite (replaceFrom_lacks (spanMatcher (js "*") _ _) 42 markdown)
      by (first [eapply spanMatcher_opens; reflexivity | exact Hstar]).
    rewrite (replaceFrom_lacks (lineMatcher (js "- ") _ _) 45 markdown)
      by (first [eapply lineMatcher_opens; reflexivity | exact Hdash]).
    rewrite (replaceFirst_no_match FormatRoute.listMatcher markdown).
    + rewrite (replaceFrom_lacks _ 45 markdown)
        by (first [exact (rule_opens _) | exact Hdash]).
      rewrite (replaceFrom_lacks _ 10 markdown)
        by (first [eapply literal_opens; reflexivity | exact Hlf]).
      rewrite (replaceFrom_lacks _ 10 markdown)
        by (first [eapply literal_opens; reflexivity | exact Hlf]).
      reflexivity.
    + intros pre a b ->. unfold FormatRoute.listMatcher.
      destruct (lit (js "<li>") _ b) as [r|] eqn:H; [|reflexivity]. exfalso.
      apply startsWith_lit in H.
      assert (Hb : includes (js "<li>") b = true)
        by (destruct b; cbn [includes]; rewrite H; reflexivity).
      rewrite (includes_app_r _ a _ Hb) in Hli. discriminate.
Qed.

Lemma routeMarkdownToHtml_plain_witness :
  FormatRoute.markdownToHtml (js "Rent <b>due</b> & payable")
  = pageHead ++ js "Rent <b>due</b> & payable" ++ pageFoot.
Proof.
  exact (proj2 (routeMarkdownToHtml_plain (js "Rent <b>due</b> & payable"))
           eq_refl eq_refl eq_refl eq_refl eq_refl).
Defined.

(** ** The limits of the demo *)

Lemma digits_of_uint d : forallb isDigit (js (NilEmpty.string_of_uint d)) = true.
Proof.
  unfold js.
  induction d; [reflexivity| | | | | | | | | |];
    cbn [NilEmpty.string_of_uint list_ascii_of_string map forallb];
    rewrite IHd; reflexivity.
Qed.

Lemma digitsPrefix_app digits rest :
  forallb isDigit digits = true ->
  endsRun isDigit rest = true ->
  digitsPrefix (digits ++ rest) = digits.
Proof.
  intros Hd Hrest. induction digits as [|c digits IH]; cbn [app digitsPrefix].
  - destruct rest as [|c rest]; [reflexivity|]. cbn [digitsPrefix endsRun] in *.
    apply negb_true_iff in Hrest. rewrite Hrest. reflexivity.
  - cbn [forallb] in Hd. apply andb_true_iff in Hd as [Hc Hd].
    rewrite Hc, (IH Hd). reflexivity.
Qed.

Lemma value_of_uint_acc d :
  forall p,
    fold_left (fun acc c => (10 * acc + Z.of_N (c - 48))%Z)
      (js (NilEmpty.string_of_uint d)) (Z.pos p)
    = Z.pos (Pos.of_uint_acc d p).
Proof.
  unfold js.
  induction d; intros p;
    cbn [NilEmpty.string_of_uint list_ascii_of_string map fold_left Pos.of_uint_acc];
    [reflexivity|..];
    rewrite <- IHd; f_equal;
    match goal with
    | |- context [Z.of_N ?n] =>
        let v := eval vm_compute in (Z.of_N n) in change (Z.of_N n) with v
    end; lia.
Qed.

Lemma value_of_uint d :
  digitsValue (js (NilEmpty.string_of_uint d)) = Z.of_N (Pos.of_uint d).
Proof.
  unfold digitsValue, js.
  induction d;
    cbn [NilEmpty.string_of_uint list_ascii_of_string map fold_left Pos.of_uint];
    [reflexivity|exact IHd|..];
    apply (value_of_uint_acc d).
Qed.

Lemma decimal_digits d :
  forallb isDigit (js (NilZero.string_of_uint d)) = true
  /\ js (NilZero.string_of_uint d) <> []
  /\ digitsValue (js (NilZero.string_of_uint d)) = Z.of_N (Pos.of_uint d).
Proof.
  destruct d; try (split; [reflexivity | split; [discriminate | reflexivity]]);
    (split; [apply digits_of_uint | split; [discriminate | apply value_of_uint]]).
Qed.

Lemma trimStart_spaces ws s :
  forallb isSpace ws = true -> endsRun isSpace s = true ->
  trimStart (ws ++ s) = s.
Proof.
  intros Hws Hs. induction ws as [|c ws IH]; cbn [app].
  - destruct s as [|c s]; [reflexivity|]. cbn [trimStart endsRun] in *.
    apply negb_true_iff in Hs. rewrite Hs. reflexivity.
  - cbn [forallb trimStart] in *. apply andb_true_iff in Hws as [Hc Hws].
    rewrite Hc. exact (IH Hws).
Qed.

Lemma isDigit_facts c :
  isDigit c = true -> isSpace c = false /\ (c =? 45) = false /\ (c =? 43) = false.
Proof.
  unfold isDigit, isSpace. intros H. apply andb_true_iff in H as [H1 H2].
  apply N.leb_le in H1, H2.
  repeat split;
    repeat rewrite ?orb_false_iff, ?andb_false_iff, ?N.eqb_neq, ?N.leb_gt; lia.
Qed.

Lemma parseInt10_digits ws digits rest :
  forallb isSpace ws = true ->
  digits <> [] -> forallb isDigit digits = true ->
  endsRun isDigit rest = true ->
  parseInt10 (ws ++ digits ++ rest) = Some (digitsValue digits)
  /\ parseInt10 (ws ++ 45 :: digits ++ rest) = Some (- digitsValue digits)%Z.
Proof.
  intros Hws Hne Hd Hrest.
  pose proof (digitsPrefix_app digits rest Hd Hrest) as Hprefix.
  destruct digits as [|c ds]; [congruence|].
  assert (Hc : isDigit c = true)
    by (cbn [forallb] in Hd; apply andb_true_iff in Hd as [Hc _]; exact Hc).
  destruct (isDigit_facts c Hc) as (Hsp & Hm & Hp).
  unfold parseInt10. split.
  - rewrite trimStart_spaces;
      [|exact Hws|cbn [app endsRun]; rewrite Hsp; reflexivity].
    cbn [app] in *. rewrite Hm, Hp, Hprefix. f_equal; lia.
  - rewrite trimStart_spaces; [|exact Hws|reflexivity].
    cbn [N.eqb Pos.eqb]. rewrite Hprefix. f_equal; lia.
Qed.

Lemma parseInt10_numberToString ws z rest :
  forallb isSpace ws = true ->
  endsRun isDigit rest = true ->
  parseInt10 (ws ++ numberToString z ++ rest) = Some z.
Proof.
  intros Hws Hrest. unfold numberToString, NilZero.string_of_int.
  destruct z as [|p|p]; cbn [Z.to_int].
  - apply (parseInt10_digits ws [48] rest Hws); [discriminate|reflexivity|exact Hrest].
  - destruct (decimal_digits (Pos.to_uint p)) as (Hd & Hne & Hval).
    rewrite (proj1 (parseInt10_digits ws _ rest Hws Hne Hd Hrest)), Hval.
    rewrite DecimalPos.Unsigned.of_to. reflexivity.
  - destruct (decimal_digits (Pos.to_uint p)) as (Hd & Hne & Hval).
    change (js (String "-" ?s)) with (45 :: js s).
    cbn [app].
    rewrite (proj2 (parseInt10_digits ws _ rest Hws Hne Hd Hrest)), Hval.
    rewrite DecimalPos.Unsigned.of_to. reflexivity.
Qed.

(** X19: [parseEnvInt] reads a decimal integer back.  When the variable
    holds the decimal text of an integer, after any white space and before
    anything that does not begin with a digit, the integer is returned and
    not the default: [0] and negative numbers too.  The integers are those
    that a JavaScript number holds exactly. *)
Theorem parseEnvInt_number (env : Env) key defaultValue ws z rest :
  forallb isSpace ws = true ->
  endsRun isDigit rest = true ->
  (Z.abs z < 2 ^ 53)%Z ->
  env !! key = Some (ws ++ numberToString z ++ rest) ->
  parseEnvInt env key defaultValue = z.
Proof.
  intros Hws Hrest _ Henv. unfold parseEnvInt. rewrite Henv.
  rewrite parseInt10_numberToString by assumption.
  destruct (ws ++ numberToString z ++ rest) eqn:Heq; [|reflexivity].
  exfalso. apply app_eq_nil in Heq as [_ Heq]. apply app_eq_nil in Heq as [Heq _].
  unfold numberToString, NilZero.string_of_int in Heq.
  destruct (Z.to_int z) as [d|d].
  - destruct (decimal_digits d) as (_ & Hne & _). congruence.
  - discriminate Heq.
Qed.

Lemma parseEnvInt_number_witness :
  parseEnvInt {[ js "DEMO_MAX_DOCUMENTS_PER_SESSION" := js " 0 documents" ]}
    (js "DEMO_MAX_DOCUMENTS_PER_SESSION") 5
  = 0%Z.
Proof.
  refine (parseEnvInt_number _ (js "DEMO_MAX_DOCUMENTS_PER_SESSION") 5%Z [32] 0%Z
            (js " documents") eq_refl eq_refl _ _).
  - reflexivity.
  - apply lookup_singleton_eq.
Defined.

(** X20: [parseEnvInt] returns the default when the variable is not set,
    when it is empty, and when no number begins after its leading white
    space: at a character that is neither a digit nor a sign, at a sign that
    no digit follows, or at the end.  With no variable set the limits are 24
    hours and 5 documents. *)
Theorem parseEnvInt_default (env : Env) key defaultValue :
  (env !! key = None -> parseEnvInt env key defaultValue = defaultValue)
  /\ (forall ws,
        forallb isSpace ws = true ->
        env !! key = Some ws ->
        parseEnvInt env key defaultValue = defaultValue)
  /\ (forall ws c rest,
        forallb isSpace ws = true ->
        isSpace c = false -> isDigit c = false ->
        c <> 45 /\ c <> 43 \/ endsRun isDigit rest = true ->
        env !! key = Some (ws ++ c :: rest) ->
        parseEnvInt env key defaultValue = defaultValue)
  /\ DEMO_LIMITS ∅ = {| sessionHours := 24; maxDocumentsPerSession := 5 |}.
Proof.
  unfold parseEnvInt. repeat split.
  - intros ->. reflexivity.
  - intros ws Hws ->.
    assert (Hnan : parseInt10 ws = None)
      by (unfold parseInt10;
          rewrite <- (app_nil_r ws), trimStart_spaces by (exact Hws || reflexivity);
          reflexivity).
    rewrite Hnan. destruct ws; reflexivity.
  - intros ws c rest Hws Hsp Hdig Hsign ->. unfold parseInt10.
    rewrite trimStart_spaces;
      [|exact Hws|cbn [endsRun]; rewrite Hsp; reflexivity].
    assert (Hnone : forall s, endsRun isDigit s = true -> digitsPrefix s = [])
      by (intros [|d s] Hs; [reflexivity|]; cbn [endsRun digitsPrefix] in *;
          apply negb_true_iff in Hs; rewrite Hs; reflexivity).
    destruct (N.eqb_spec c 45) as [->|H45].
    + destruct Hsign as [[H _]|Hrest]; [congruence|].
      rewrite (Hnone _ Hrest). destruct (ws ++ 45 :: rest); reflexivity.
    + destruct (N.eqb_spec c 43) as [->|H43].
      * destruct Hsign as [[_ H]|Hrest]; [congruence|].
        rewrite (Hnone _ Hrest). destruct (ws ++ 43 :: rest); reflexivity.
      * cbn [digitsPrefix]. rewrite Hdig. destruct (ws ++ c :: rest); reflexivity.
Qed.

Lemma parseEnvInt_default_witness :
  parseEnvInt {[ js "DEMO_SESSION_HOURS" := js "-hours" ]}
    (js "DEMO_SESSION_HOURS") 24
  = 24%Z.
Proof.
  refine (proj1 (proj2 (proj2
            (parseEnvInt_default {[ js "DEMO_SESSION_HOURS" := js "-hours" ]}
               (js "DEMO_SESSION_HOURS") 24%Z)))
            [] 45 (js "hours") eq_refl eq_refl eq_refl _ _).
  - right. reflexivity.
  - apply lookup_singleton_eq.
Defined.

(** ** The preview *)

Lemma lacks_app_inv c a b :
  lacks c (a ++ b) = true -> lacks c a = true /\ lacks c b = true.
Proof. rewrite lacks_app. apply andb_true_iff. Qed.

Lemma markdownToHtml_copy markdown :
  lacks 35 markdown = true ->
  lacks 42 markdown = true ->
  lacks 10 markdown = true ->
  CaseApi.markdownToHtml markdown
  = quoted "<div class='document-content'><p>" ++ markdown ++ js "</p></div>".
Proof.
  intros Hhash Hstar Hlf. unfold CaseApi.markdownToHtml, replaceAll. cbv zeta.
  rewrite (replaceFrom_lacks (lineMatcher (js "### ") _ _) 35 markdown)
    by (first [eapply lineMatcher_opens; reflexivity | exact Hhash]).
  rewrite (replaceFrom_lacks (lineMatcher (js "## ") _ _) 35 markdown)
    by (first [eapply lineMatcher_opens; reflexivity | exact Hhash]).
  rewrite (replaceFrom_lacks (lineMatcher (js "# ") _ _) 35 markdown)
    by (first [eapply lineMatcher_opens; reflexivity | exact Hhash]).
  rewrite (replaceFrom_lacks (spanMatcher (js "**") _ _) 42 markdown)
    by (first [eapply spanMatcher_opens; reflexivity | exact Hstar]).
  rewrite (replaceFrom_lacks (spanMatcher (js "*") _ _) 42 markdown)
    by (first [eapply spanMatcher_opens; reflexivity | exact Hstar]).
  rewrite (replaceFrom_lacks _ 10 markdown)
    by (first [eapply literal_opens; reflexivity | exact Hlf]).
  rewrite (replaceFrom_lacks _ 10 markdown)
    by (first [eapply literal_opens; reflexivity | exact Hlf]).
  reflexivity.
Qed.

(** X21: the value of a variable reaches the HTML of the preview as it is.
    For values whose keys are made of word characters, where a template holds
    one reference, to a key that has a value, and the text with the value in
    its place has no number sign, asterisk, line feed or [{{], and the value
    no dollar sign, the HTML is that text between the tags of the wrapper:
    neither the engine nor the conversion escapes the angle brackets, quotes
    and ampersands of a value.  A value that is a number is a safe
    integer. *)
Theorem htmlContent_value_verbatim values a ws1 name ws2 b v :
  nameKeys values ->
  isName name = true ->
  forallb isSpace ws1 = true ->
  forallb isSpace ws2 = true ->
  getValue values name = Some v ->
  (forall z, v = VNumber z -> safeInteger z = true) ->
  noDollar (toString v) = true ->
  includes (js "{{") (a ++ toString v ++ b) = false ->
  lacks 35 (a ++ toString v ++ b) = true ->
  lacks 42 (a ++ toString v ++ b) = true ->
  lacks 10 (a ++ toString v ++ b) = true ->
  htmlContent (a ++ reference ws1 name ws2 ++ b) values
  = Returned
      (quoted "<div class='document-content'><p>" ++ a ++ toString v ++ b
       ++ js "</p></div>").
Proof.
  intros Hkeys Hname Hws1 Hws2 Hv _ Hdollar Hplain Hhash Hstar Hlf.
  pose proof (includes_prefix_false _ _ _ Hplain) as Ha.
  pose proof (includes_suffix_false _ _ _
                (includes_suffix_false _ _ _ Hplain)) as Hb.
  assert (Hsubst : forall w,
            getValue values name = Some w ->
            includes (js "{{")
              (a ++ getSubstitution (reference ws1 name ws2) a b (toString w)
               ++ b) = false).
  { intros w Hw. rewrite Hv in Hw. injection Hw as <-.
    rewrite getSubstitution_noDollar by exact Hdollar. exact Hplain. }
  pose proof (substituteVars_reference a ws1 name ws2 b Hname Hws1 Hws2 Ha Hb
                values Hkeys Hsubst) as Hsub.
  rewrite Hv, getSubstitution_noDollar in Hsub by exact Hdollar.
  unfold htmlContent, processTemplate, processTemplateWith. rewrite Hsub.
  apply plain_no_token in Hplain.
  rewrite conditionalLoop_no_token by exact Hplain.
  rewrite cleanUp_no_token by exact Hplain.
  rewrite markdownToHtml_copy by assumption.
  rewrite <- !app_assoc. reflexivity.
Qed.

Lemma htmlContent_value_verbatim_witness :
  htmlContent (js "Tenant: {{tenant}}")
    [(js "tenant", VString (js "<img src=x onerror=alert(1)>"))]
  = Returned
      (quoted "<div class='document-content'><p>"
       ++ js "Tenant: <img src=x onerror=alert(1)>" ++ js "</p></div>").
Proof.
  refine (htmlContent_value_verbatim
            [(js "tenant", VString (js "<img src=x onerror=alert(1)>"))]
            (js "Tenant: ") [] (js "tenant") [] []
            (VString (js "<img src=x onerror=alert(1)>"))
            _ eq_refl eq_refl eq_refl eq_refl _ eq_refl eq_refl eq_refl
            eq_refl eq_refl).
  - repeat constructor.
  - discriminate.
Defined.

(** ** The format route *)

Lemma isOutputFormat_inv format :
  FormatApi.isOutputFormat format = true ->
  format = js "pdf" \/ format = js "docx" \/ format = js "html".
Proof.
  unfold FormatApi.isOutputFormat. cbn [existsb].
  rewrite !orb_true_iff, !bool_decide_eq_true.
  intros [H|[H|[H|H]]]; [left|right; left|right; right|discriminate H];
    symmetry; exact H.
Qed.

Lemma generateFallbackDocx_some markdownContent :
  (Z.of_nat (length markdownContent) < 2 ^ 22)%Z ->
  exists zip, generateFallbackDocx markdownContent = Some zip.
Proof.
  intros Hlen.
  assert (Hfields : (Z.of_nat (length markdownContent) < 2 ^ 24)%Z) by lia.
  unfold generateFallbackDocx.
  exact (createMinimalDocxZip_returns _ _ _ _ (docx_size _ Hfields)).
Qed.

Lemma thrown_or_returned {A} (result : option A) :
  (exists a, result = Some a) \/ result = None.
Proof. destruct result as [a|]; [left; exists a|right]; reflexivity. Qed.

(** The tests of the format, once the format is known. *)
Ltac format_tests :=
  repeat match goal with
         | |- context [bool_decide (?a = ?b)] =>
             let v := eval vm_compute in (bool_decide (a = b)) in
             progress change (bool_decide (a = b)) with v
         end;
  cbv beta iota.

Lemma fromApi_answer env fetch request format response :
  FormatApi.fromApi env fetch request format = Some response ->
  (exists html,
     response = FormatApi.htmlResponse html
     /\ format <> js "pdf" /\ format <> js "docx")
  \/ (exists data,
        response
        = FormatApi.fileResponse
            (if bool_decide (format = js "pdf") then FormatApi.pdfType
             else FormatApi.docxType) format data
        /\ (format = js "pdf" \/ format = js "docx")).
Proof.
  unfold FormatApi.fromApi.
  destruct (env !! js "CASE_API_KEY") as [[|c key]|]; try discriminate.
  destruct (fetch _ _ _) as [api|]; [|discriminate].
  destruct (FormatApi.ok api); [|discriminate].
  destruct (bool_decide (format = js "pdf")) eqn:Hpdf;
    destruct (bool_decide (format = js "docx")) eqn:Hdocx; cbn [orb];
    try (destruct (FormatApi.blob api) as [data|]; [|discriminate];
         intros H; injection H as <-; right; exists data;
         split; [reflexivity|]);
    try (apply bool_decide_eq_true in Hpdf; left; exact Hpdf);
    try (apply bool_decide_eq_true in Hdocx; right; exact Hdocx).
  destruct (FormatApi.text api) as [html|]; [|discriminate].
  intros H; injection H as <-. left. exists html.
  apply bool_decide_eq_false in Hpdf, Hdocx. auto.
Qed.

Lemma fallback_answer content format :
  FormatApi.isOutputFormat format = true ->
  FormatApi.fallback content format
  = (if bool_decide (format = js "html")
     then FormatApi.htmlResponse (FormatRoute.markdownToHtml content)
     else if bool_decide (format = js "pdf")
     then FormatApi.fileResponse FormatApi.pdfType (js "pdf")
            (generateFallbackPdf content)
     else from_option (FormatApi.fileResponse FormatApi.docxType (js "docx"))
            (FormatApi.jsonResponse None 500) (generateFallbackDocx content)).
Proof.
  intros Hformat. unfold FormatApi.fallback.
  destruct (isOutputFormat_inv _ Hformat) as [-> | [-> | ->]]; format_tests;
    reflexivity.
Qed.

(** What a response is, once it is built. *)
Ltac answer :=
  cbn [FormatApi.status FormatApi.body FormatApi.headers
       FormatApi.jsonResponse FormatApi.htmlResponse FormatApi.fileResponse].

Lemma member_null key body :
  FormatApi.member key body = None <-> body = FormatApi.JNull.
Proof.
  split; [|intros ->; reflexivity].
  destruct body; try discriminate. reflexivity.
Qed.

(** The fallback answers 200, but for a DOCX that cannot be written. *)
Lemma fallback_status content format :
  FormatApi.isOutputFormat format = true ->
  (FormatApi.status (FormatApi.fallback content format) = 200%nat
   /\ forall error,
        FormatApi.body (FormatApi.fallback content format)
        <> FormatApi.JsonError error)
  \/ (format = js "docx" /\ generateFallbackDocx content = None
      /\ FormatApi.fallback content format = FormatApi.jsonResponse None 500).
Proof.
  intros Hout. rewrite (fallback_answer _ _ Hout).
  destruct (isOutputFormat_inv _ Hout) as [-> | [-> | ->]]; format_tests.
  - left. split; [reflexivity | intros error; answer; discriminate].
  - destruct (thrown_or_returned (generateFallbackDocx content))
      as [[zip Hzip]|Hzip]; rewrite Hzip; cbn [from_option].
    + left. split; [reflexivity | intros error; answer; discriminate].
    + right. auto.
  - left. split; [reflexivity | intros error; answer; discriminate].
Qed.

Lemma fromApi_status env fetch request format response :
  FormatApi.fromApi env fetch request format = Some response ->
  FormatApi.status response = 200%nat
  /\ forall error, FormatApi.body response <> FormatApi.JsonError error.
Proof.
  intros Hapi.
  destruct (fromApi_answer _ _ _ _ _ Hapi) as [(html & -> & _)|(data & -> & _)];
    (split; [reflexivity | intros error; answer; discriminate]).
Qed.

(** The ways through the handler, one for each of its answers. *)
Lemma POST_ways env fetch request :
  ((request = None \/ request = Some FormatApi.JNull)
   /\ FormatApi.POST env fetch request = FormatApi.jsonResponse None 500)
  \/ exists body content format,
       request = Some body
       /\ FormatApi.member (js "content") body = Some content
       /\ FormatApi.member (js "format") body = Some format
       /\ ((FormatApi.truthy content = false
            /\ FormatApi.POST env fetch request
               = FormatApi.jsonResponse (Some (js "Content is required")) 400)
           \/ (FormatApi.truthy content = true
               /\ (forall f,
                     format = Some (FormatApi.JString f) ->
                     FormatApi.isOutputFormat f = false)
               /\ FormatApi.POST env fetch request
                  = FormatApi.jsonResponse
                      (Some (js "Valid format (pdf, docx, html) is required"))
                      400)
           \/ (FormatApi.truthy content = true
               /\ exists f,
                    format = Some (FormatApi.JString f)
                    /\ FormatApi.isOutputFormat f = true
                    /\ ((exists response,
                           FormatApi.fromApi env fetch body f = Some response
                           /\ FormatApi.POST env fetch request = response)
                        \/ (FormatApi.fromApi env fetch body f = None
                            /\ (forall s,
                                  content <> Some (FormatApi.JString s))
                            /\ FormatApi.POST env fetch request
                               = FormatApi.jsonResponse None 500)
                        \/ (FormatApi.fromApi env fetch body f = None
                            /\ exists s,
                                 content = Some (FormatApi.JString s)
                                 /\ s <> []
                                 /\ FormatApi.POST env fetch request
                                    = FormatApi.fallback s f)))).
Proof.
  unfold FormatApi.POST. destruct request as [body|]; [|left; auto].
  destruct (FormatApi.member (js "content") body) as [content|] eqn:Hcontent.
  2:{ apply member_null in Hcontent as ->. left. auto. }
  destruct (FormatApi.member (js "format") body) as [format|] eqn:Hformat.
  2:{ apply member_null in Hformat as ->. discriminate Hcontent. }
  right. exists body, content, format.
  split; [reflexivity|]. split; [exact Hcontent|]. split; [exact Hformat|].
  destruct (FormatApi.truthy content) eqn:Htruthy; cbn [negb];
    [right | left; auto].
  assert (Hno : forall response : FormatApi.Response,
            (forall f, format = Some (FormatApi.JString f) ->
                       FormatApi.isOutputFormat f = false) ->
            response
            = FormatApi.jsonResponse
                (Some (js "Valid format (pdf, docx, html) is required")) 400 ->
            (true = true
             /\ (forall f, format = Some (FormatApi.JString f) ->
                           FormatApi.isOutputFormat f = false)
             /\ response
                = FormatApi.jsonResponse
                    (Some (js "Valid format (pdf, docx, html) is required"))
                    400)) by auto.
  destruct format as [[| | |f| |]|];
    try (left; apply Hno; [intros f Hf; discriminate Hf | reflexivity]).
  destruct (FormatApi.isOutputFormat f) eqn:Hout.
  2:{ left. apply Hno; [|reflexivity]. intros f' Hf. injection Hf as <-.
      exact Hout. }
  clear Hno. right. split; [reflexivity|]. exists f.
  split; [reflexivity|]. split; [exact Hout|].
  destruct (FormatApi.fromApi env fetch body f) as [response|] eqn:Hapi.
  { left. exists response. auto. }
  right.
  destruct content as [[| | |s| |]|];
    try (left; split; [reflexivity|]; split; [|reflexivity];
         intros s Hs; discriminate Hs).
  right. split; [reflexivity|]. exists s. split; [reflexivity|].
  split; [|reflexivity]. intros ->. discriminate Htruthy.
Qed.

(** X22: what the format route rejects, for every body that is a JSON value
    with integer numbers, and for a body that cannot be read.  The status of
    the answer is 200, 400 or 500, and the answer [Unsupported format] is
    never given.  The status is 400 exactly when the body is read and is not
    [null], and its content is falsy (absent, [null], [false], 0 or the
    empty string) or its format is not one of the strings pdf, docx and
    html.  A body that cannot be read and the body [null] are answered 500
    with the message of the error; so is a content that is truthy and is no
    string, with one of the three formats, when the API gives no answer.
    The status is 500 only in these cases and for a content of [2^22]
    characters or more, when the API gives no answer. *)
Theorem POST_rejects env fetch request :
  let response := FormatApi.POST env fetch request in
  (FormatApi.status response = 200%nat \/ FormatApi.status response = 400%nat
   \/ FormatApi.status response = 500%nat)
  /\ FormatApi.body response
     <> FormatApi.JsonError (Some (js "Unsupported format"))
  /\ (FormatApi.status response = 400%nat
      <-> exists body content format,
            request = Some body
            /\ FormatApi.member (js "content") body = Some content
            /\ FormatApi.member (js "format") body = Some format
            /\ (FormatApi.truthy content = false
                \/ forall f,
                     format = Some (FormatApi.JString f) ->
                     FormatApi.isOutputFormat f = false))
  /\ (request = None \/ request = Some FormatApi.JNull ->
      response = FormatApi.jsonResponse None 500)
  /\ (forall body content f,
        request = Some body ->
        FormatApi.member (js "content") body = Some content ->
        FormatApi.truthy content = true ->
        (forall s, content <> Some (FormatApi.JString s)) ->
        FormatApi.member (js "format") body
        = Some (Some (FormatApi.JString f)) ->
        FormatApi.isOutputFormat f = true ->
        FormatApi.fromApi env fetch body f = None ->
        response = FormatApi.jsonResponse None 500)
  /\ (FormatApi.status response = 500%nat ->
      request = None
      \/ request = Some FormatApi.JNull
      \/ exists body content f,
           request = Some body
           /\ FormatApi.member (js "content") body = Some content
           /\ FormatApi.truthy content = true
           /\ FormatApi.member (js "format") body
              = Some (Some (FormatApi.JString f))
           /\ FormatApi.isOutputFormat f = true
           /\ FormatApi.fromApi env fetch body f = None
           /\ ((forall s, content <> Some (FormatApi.JString s))
               \/ exists s,
                    content = Some (FormatApi.JString s)
                    /\ (2 ^ 22 <= Z.of_nat (length s))%Z)).
Proof.
  cbv zeta.
  destruct (POST_ways env fetch request)
    as [[Hrequest ->]
       |(body & content & format & -> & Hcontent & Hformat
         & [[Htruthy ->]
           |[(Htruthy & Hno & ->)
            |(Htruthy & f & -> & Hout
              & [(response & Hapi & ->)
                |[(Hapi & Htext & ->)
                 |(Hapi & s & -> & Hne & ->)]])]])].
  - (* unread, or null *)
    split; [auto|]. split; [discriminate|].
    split; [split; [discriminate|]|].
    { intros (body & content & format & -> & Hcontent & _).
      destruct Hrequest as [H|H]; [discriminate H|].
      injection H as ->. discriminate Hcontent. }
    split; [reflexivity|]. split; [reflexivity|].
    intros _. destruct Hrequest; auto.
  - (* no content *)
    split; [auto|]. split; [discriminate|].
    split; [split; [intros _; exists body, content, format; auto
                   | reflexivity]|].
    split; [intros [H|H]; [discriminate H|]|].
    { injection H as ->. discriminate Hcontent. }
    split; [|discriminate].
    intros body' content' f Hb Hc Ht. injection Hb as <-.
    rewrite Hcontent in Hc. injection Hc as <-. congruence.
  - (* no format *)
    split; [auto|]. split; [discriminate|].
    split; [split; [intros _; exists body, content, format; auto
                   | reflexivity]|].
    split; [intros [H|H]; [discriminate H|]|].
    { injection H as ->. discriminate Hcontent. }
    split; [|discriminate].
    intros body' content' f Hb _ _ _ Hf Hout. injection Hb as <-.
    rewrite Hformat in Hf. injection Hf as ->.
    rewrite (Hno f eq_refl) in Hout. discriminate Hout.
  - (* the answer of the API *)
    destruct (fromApi_status _ _ _ _ _ Hapi) as [Hstatus Hbody].
    rewrite Hstatus. split; [auto|]. split; [apply Hbody|].
    split; [split; [discriminate|]|].
    { intros (body' & content' & format' & Hb & Hc & Hf & H).
      injection Hb as <-. rewrite Hcontent in Hc. injection Hc as <-.
      rewrite Hformat in Hf. injection Hf as <-.
      destruct H as [H|H]; [congruence|].
      rewrite (H f eq_refl) in Hout. discriminate Hout. }
    split; [intros [H|H]; [discriminate H|]|].
    { injection H as ->. discriminate Hcontent. }
    split; [|discriminate].
    intros body' content' f' Hb _ _ _ Hf _ Hapi'. injection Hb as <-.
    rewrite Hformat in Hf. injection Hf as <-. congruence.
  - (* a content that is no string *)
    split; [auto|]. split; [discriminate|].
    split; [split; [discriminate|]|].
    { intros (body' & content' & format' & Hb & Hc & Hf & H).
      injection Hb as <-. rewrite Hcontent in Hc. injection Hc as <-.
      rewrite Hformat in Hf. injection Hf as <-.
      destruct H as [H|H]; [congruence|].
      rewrite (H f eq_refl) in Hout. discriminate Hout. }
    split; [reflexivity|]. split; [reflexivity|].
    intros _. right. right. exists body, content, f. auto 10.
  - (* the fallback *)
    assert (H400 : ~ exists body' content' format',
                       Some body = Some body'
                       /\ FormatApi.member (js "content") body' = Some content'
                       /\ FormatApi.member (js "format") body' = Some format'
                       /\ (FormatApi.truthy content' = false
                           \/ forall f,
                                format' = Some (FormatApi.JString f) ->
                                FormatApi.isOutputFormat f = false)).
    { intros (body' & content' & format' & Hb & Hc & Hf & H).
      injection Hb as <-. rewrite Hcontent in Hc. injection Hc as <-.
      rewrite Hformat in Hf. injection Hf as <-.
      destruct H as [H|H]; [congruence|].
      rewrite (H f eq_refl) in Hout. discriminate Hout. }
    assert (Hread : Some body = None \/ Some body = Some FormatApi.JNull ->
                    False).
    { intros [H|H]; [discriminate H|]. injection H as ->.
      discriminate Hcontent. }
    assert (Hstring : forall body' content',
              Some body = Some body' ->
              FormatApi.member (js "content") body' = Some content' ->
              FormatApi.truthy content' = true ->
              (forall s', content' <> Some (FormatApi.JString s')) ->
              False).
    { intros body' content' Hb Hc _ Hs. injection Hb as <-.
      rewrite Hcontent in Hc. injection Hc as <-. exact (Hs s eq_refl). }
    destruct (fallback_status s f Hout)
      as [[Hstatus Hbody]|(-> & Hzip & ->)].
    + rewrite Hstatus. split; [auto|]. split; [apply Hbody|].
      split; [split; [discriminate | intros H; destruct (H400 H)]|].
      split; [intros H; destruct (Hread H)|].
      split; [|discriminate].
      intros body' content' f' Hb Hc Ht Hs.
      destruct (Hstring body' content' Hb Hc Ht Hs).
    + split; [auto|]. split; [discriminate|].
      split; [split; [discriminate | intros H; destruct (H400 H)]|].
      split; [reflexivity|]. split; [reflexivity|].
      intros _. right. right. exists body, (Some (FormatApi.JString s)),
                                (js "docx").
      do 6 (split; [assumption || reflexivity|]).
      right. exists s. split; [reflexivity|].
      destruct (Z_lt_le_dec (Z.of_nat (length s)) (2 ^ 22)) as [Hlt|Hle];
        [|exact Hle].
      destruct (generateFallbackDocx_some _ Hlt) as [zip Hsome].
      rewrite Hsome in Hzip. discriminate Hzip.
Qed.

(** X23: what the format route answers.  A body whose content is a string
    that is not empty, of less than [2^22] characters, and whose format is
    one of the strings pdf, docx and html is answered with status 200 and
    with the content type of its format, whatever the API does; the two
    binary formats are attachments named [document.pdf] and
    [document.docx].  Without an API key the body is the fallback: the page
    of [markdownToHtml], the bytes of [generateFallbackPdf], or those of
    [generateFallbackDocx], which does not throw. *)
Theorem POST_answers env fetch request content format :
  FormatApi.member (js "content") request
  = Some (Some (FormatApi.JString content)) ->
  content <> [] ->
  FormatApi.member (js "format") request
  = Some (Some (FormatApi.JString format)) ->
  FormatApi.isOutputFormat format = true ->
  (Z.of_nat (length content) < 2 ^ 22)%Z ->
  let response := FormatApi.POST env fetch (Some request) in
  FormatApi.status response = 200%nat
  /\ (format = js "html" ->
      FormatApi.headers response = [(js "Content-Type", js "text/html")])
  /\ (format = js "pdf" ->
      FormatApi.headers response
      = [(js "Content-Type", js "application/pdf");
         (js "Content-Disposition",
          quoted "attachment; filename='document.pdf'")])
  /\ (format = js "docx" ->
      FormatApi.headers response
      = [(js "Content-Type",
          js "application/vnd.openxmlformats-officedocument.wordprocessingml.document");
         (js "Content-Disposition",
          quoted "attachment; filename='document.docx'")])
  /\ (env !! js "CASE_API_KEY" = None ->
      (format = js "html" ->
       FormatApi.body response
       = FormatApi.Html (FormatRoute.markdownToHtml content))
      /\ (format = js "pdf" ->
          FormatApi.body response
          = FormatApi.Binary (generateFallbackPdf content))
      /\ (format = js "docx" ->
          exists zip,
            generateFallbackDocx content = Some zip
            /\ FormatApi.body response = FormatApi.Binary zip)).
Proof.
  intros Hcontent Hne Hformat Hout Hlen. cbv zeta.
  destruct (generateFallbackDocx_some _ Hlen) as [zip Hzip].
  unfold FormatApi.POST. rewrite Hcontent, Hformat, Hout.
  replace (negb (FormatApi.truthy (Some (FormatApi.JString content))))
    with false by (destruct content; [congruence | reflexivity]).
  cbv beta iota.
  assert (Hdiff : js "html" <> js "pdf" /\ js "html" <> js "docx"
                  /\ js "pdf" <> js "docx")
    by (repeat split; intros H; vm_compute in H; discriminate H).
  destruct Hdiff as (Hhp & Hhd & Hpd).
  destruct (FormatApi.fromApi env fetch request format) as [response|] eqn:Hapi.
  - assert (Hkey : env !! js "CASE_API_KEY" <> None).
    { unfold FormatApi.fromApi in Hapi. intros H. rewrite H in Hapi.
      discriminate Hapi. }
    destruct (fromApi_answer _ _ _ _ _ Hapi)
      as [(html & -> & Hpdf & Hdocx)|(data & -> & Hfile)].
    + answer. split; [reflexivity|]. split; [reflexivity|].
      split; [congruence|]. split; [congruence|]. congruence.
    + destruct Hfile as [-> | ->]; format_tests; answer;
        (split; [reflexivity|]); (split; [congruence|]);
        (split; [first [reflexivity | congruence]|]);
        (split; [first [reflexivity | congruence]|]); congruence.
  - rewrite (fallback_answer _ _ Hout), Hzip. cbn [from_option].
    destruct (isOutputFormat_inv _ Hout) as [-> | [-> | ->]]; format_tests;
      answer;
      (split; [reflexivity|]);
      (split; [first [reflexivity | congruence]|]);
      (split; [first [reflexivity | congruence]|]);
      (split; [first [reflexivity | congruence]|]);
      intros _; (split; [first [reflexivity | congruence]|]);
      (split; [first [reflexivity | congruence]|]);
      try congruence.
    intros _. exists zip. split; reflexivity.
Qed.

Lemma POST_answers_witness :
  FormatApi.status
    (FormatApi.POST ∅ (fun _ _ _ => None)
       (Some (FormatApi.JObject
                [(js "content", FormatApi.JString (js "# Lease"));
                 (js "format", FormatApi.JString (js "docx"))])))
  = 200%nat.
Proof.
  refine (proj1 (POST_answers ∅ (fun _ _ _ => None)
                   (FormatApi.JObject
                      [(js "content", FormatApi.JString (js "# Lease"));
                       (js "format", FormatApi.JString (js "docx"))])
                   (js "# Lease") (js "docx") eq_refl _ eq_refl eq_refl _)).
  - discriminate.
  - reflexivity.
Defined.

(** ** The form wizard *)

Section WizardFacts.
Variable regexTest : jsstring -> jsstring -> option bool.
Variable values : Values.

(** Variables that are accepted among others are accepted alone. *)
Lemma validateVariables_part before variables after result :
  validateVariables regexTest (before ++ variables ++ after) values
  = Some result ->
  isValid result = true ->
  exists part,
    validateVariables regexTest variables values = Some part
    /\ isValid part = true.
Proof.
  intros Hresult Hvalid.
  destruct (validateVariables regexTest variables values) as [part|] eqn:Hpart.
  - exists part. split; [reflexivity|].
    apply validateVariables_returns in Hresult as [Herrors Hsize].
    apply validateVariables_returns in Hpart as [Hpart Hpartsize].
    rewrite Hsize in Hvalid. rewrite Hpartsize.
    apply bool_decide_eq_true in Hvalid. apply map_size_empty_iff in Hvalid.
    apply bool_decide_eq_true, map_size_empty_iff, map_empty. intros k.
    destruct (errors part !! k) as [e|] eqn:He; [|reflexivity].
    exfalso.
    assert (Hk : is_Some (errors result !! k)).
    { rewrite Herrors, !fold_left_app. apply fold_recordError_keeps.
      apply (fold_recordError_more regexTest values variables ∅).
      - intros j [x Hx]. rewrite lookup_empty in Hx. discriminate Hx.
      - rewrite <- Hpart, He. eexists; reflexivity. }
    rewrite Hvalid, lookup_empty in Hk. destruct Hk as [x Hx].
    discriminate Hx.
  - exfalso. apply validateVariables_throws in Hpart
      as (variable & Hin & Hthrows).
    assert (Hnone : validateVariables regexTest (before ++ variables ++ after)
                      values = None).
    { apply validateVariables_throws. exists variable.
      split; [|exact Hthrows]. set_solver. }
    rewrite Hnone in Hresult. discriminate Hresult.
Qed.

End WizardFacts.

Lemma flat_map_lookup {A B} (f : A -> list B) l i x :
  l !! i = Some x ->
  exists before after, flat_map f l = before ++ f x ++ after.
Proof.
  intros Hi. rewrite <- (take_drop_middle l i x Hi).
  exists (flat_map f (take i l)), (flat_map f (drop (S i) l)).
  rewrite flat_map_app. reflexivity.
Qed.

Lemma onComplete_iff regexTest sections currentSectionIndex values completed :
  In (FormWizard.OnComplete completed)
    (FormWizard.handleNext regexTest sections currentSectionIndex values)
  <-> completed = values
      /\ S currentSectionIndex
         = length (FormWizard.visibleSections sections values)
      /\ exists result,
           validateVariables regexTest
             (FormWizard.allVisibleVariables sections values) values
           = Some result
           /\ isValid result = true.
Proof.
  unfold FormWizard.handleNext, FormWizard.validateCurrentSection,
    FormWizard.isLastSection.
  destruct (FormWizard.visibleSections sections values !! currentSectionIndex)
    as [currentSection|] eqn:Hcurrent.
  - destruct (flat_map_lookup variables _ _ _ Hcurrent)
      as (before & after & Hall).
    fold (FormWizard.allVisibleVariables sections values) in Hall.
    assert (Hpart : forall result,
              validateVariables regexTest
                (FormWizard.allVisibleVariables sections values) values
              = Some result ->
              isValid result = true ->
              exists part,
                validateVariables regexTest (variables currentSection) values
                = Some part
                /\ isValid part = true).
    { intros result Hresult Hvalid. rewrite Hall in Hresult.
      exact (validateVariables_part _ _ _ _ _ _ Hresult Hvalid). }
    destruct (validateVariables regexTest (variables currentSection) values)
      as [part|] eqn:Hsection.
    + destruct (isValid part) eqn:Hvalidpart.
      * destruct (Z.eqb_spec (Z.of_nat currentSectionIndex)
                    (Z.of_nat
                       (length (FormWizard.visibleSections sections values))
                     - 1)) as [Hlast|Hlast].
        -- destruct (validateVariables regexTest
                       (FormWizard.allVisibleVariables sections values)
                       values) as [result|] eqn:Hresult.
           ++ destruct (isValid result) eqn:Hvalid.
              ** cbn [app In]. split.
                 --- intros [H|[H|[]]]; [discriminate H|]. injection H as <-.
                     split; [reflexivity|]. split; [lia|].
                     exists result. auto.
                 --- intros (-> & _ & _). right. left. reflexivity.
              ** cbn [app In]. split.
                 --- intros [H|[H|[]]]; discriminate H.
                 --- intros (_ & _ & result' & H & Hvalid').
                     injection H as <-. congruence.
           ++ cbn [app In]. split.
              ** intros [H|[H|[]]]; discriminate H.
              ** intros (_ & _ & result' & H & _). discriminate H.
        -- cbn [app In]. split.
           ++ intros [H|[H|[]]]; discriminate H.
           ++ intros (_ & H & _). lia.
      * cbn [In]. split.
        -- intros [H|[]]. discriminate H.
        -- intros (_ & _ & result & Hresult & Hvalid).
           destruct (Hpart result Hresult Hvalid) as (part' & H & Hvalid').
           injection H as <-. congruence.
    + cbn [In]. split.
      * intros [H|[]]. discriminate H.
      * intros (_ & _ & result & Hresult & Hvalid).
        destruct (Hpart result Hresult Hvalid) as (part' & H & _).
        discriminate H.
  - apply lookup_ge_None in Hcurrent.
    destruct (Z.eqb_spec (Z.of_nat currentSectionIndex)
                (Z.of_nat (length (FormWizard.visibleSections sections values))
                 - 1)) as [Hlast|Hlast]; [lia|].
    cbn [app In]. split.
    + intros [H|[]]. discriminate H.
    + intros (_ & H & _). lia.
Qed.

(** X24: when the form wizard hands over the values.  [handleNext] calls
    [onComplete], with the values of the form, exactly when the current
    section is the last one that is shown and [validateVariables] returns
    and accepts the variables of all sections that are shown.  For every
    required variable of these sections that is not named [__proto__],
    [values[name]] is then neither undefined nor the empty string: it is a
    value of the form or, for a name that a plain object inherits, what it
    inherits.  The sections that are not shown are not checked.  When the
    index points behind the sections shown, for one when none is shown, it
    only moves on: no error is set and the form is not completed. *)
Theorem handleNext_completes regexTest sections currentSectionIndex values :
  (forall completed,
     In (FormWizard.OnComplete completed)
       (FormWizard.handleNext regexTest sections currentSectionIndex values)
     <-> completed = values
         /\ S currentSectionIndex
            = length (FormWizard.visibleSections sections values)
         /\ exists result,
              validateVariables regexTest
                (FormWizard.allVisibleVariables sections values) values
              = Some result
              /\ isValid result = true)
  /\ (In (FormWizard.OnComplete values)
        (FormWizard.handleNext regexTest sections currentSectionIndex values) ->
      forall variable,
        In variable (FormWizard.allVisibleVariables sections values) ->
        required variable = true ->
        name variable <> js "__proto__" ->
        readProperty values (name variable) <> Undefined
        /\ readProperty values (name variable) <> Own (VString []))
  /\ (FormWizard.visibleSections sections values !! currentSectionIndex = None ->
      FormWizard.handleNext regexTest sections currentSectionIndex values
      = [FormWizard.NextSection]).
Proof.
  split; [intros completed; apply onComplete_iff|]. split.
  - intros H variable Hin Hreq Hname.
    apply onComplete_iff in H as (_ & _ & result & Hresult & Hvalid).
    apply isMissing_false.
    destruct (isMissing (readProperty values (name variable))) eqn:Hmiss;
      [|reflexivity].
    exfalso. apply validateVariables_returns in Hresult as [Herrors Hsize].
    rewrite Hsize in Hvalid.
    apply bool_decide_eq_true in Hvalid. apply map_size_empty_iff in Hvalid.
    pose proof (required_missing_error regexTest values _ ∅ variable Hin Hreq
                  Hmiss Hname) as [e He].
    rewrite <- Herrors, Hvalid, lookup_empty in He. discriminate He.
  - intros Hcurrent.
    unfold FormWizard.handleNext, FormWizard.validateCurrentSection,
      FormWizard.isLastSection.
    rewrite Hcurrent. apply lookup_ge_None in Hcurrent.
    destruct (Z.eqb_spec (Z.of_nat currentSectionIndex)
                (Z.of_nat (length (FormWizard.visibleSections sections values))
                 - 1)) as [Hlast|Hlast]; [lia|reflexivity].
Qed.

(** X25: the wizard and the preview agree when every section is shown.
    Values that [handleNext] hands over for a template all of whose sections
    are shown, and none of whose variables is named [__proto__], make a
    document that the preview calls complete.  (A required variable of a
    section that is not shown is counted by the preview and not checked by
    the wizard; an error for the name [__proto__] is never recorded.) *)
Theorem handleNext_preview_complete
    regexTest sections currentSectionIndex values :
  FormWizard.visibleSections sections values = sections ->
  Forall (fun v => name v <> js "__proto__") (flat_map variables sections) ->
  In (FormWizard.OnComplete values)
    (FormWizard.handleNext regexTest sections currentSectionIndex values) ->
  isComplete (variableStats sections values) = true.
Proof.
  intros Hshown Hproto H.
  apply onComplete_iff in H as (_ & _ & result & Hresult & Hvalid).
  unfold FormWizard.allVisibleVariables in Hresult.
  rewrite Hshown in Hresult. apply isComplete_filled.
  exact (isValid_filled _ _ _ _ Hresult Hvalid Hproto).
Qed.

Lemma handleNext_preview_complete_witness :
  isComplete
    (variableStats
       [{| variables := [noteVariable]; showIf := None |};
        {| variables := [zipVariable];
           showIf := Some (js "hasZip", VBool true) |}]
       [(js "hasZip", VBool true); (js "zip", VString (js "94110"))])
  = true.
Proof.
  refine (handleNext_preview_complete (fun _ _ => Some true)
            [{| variables := [noteVariable]; showIf := None |};
             {| variables := [zipVariable];
                showIf := Some (js "hasZip", VBool true) |}]
            1 [(js "hasZip", VBool true); (js "zip", VString (js "94110"))]
            eq_refl _ _).
  - repeat constructor; discriminate.
  - vm_compute. right. left. reflexivity.
Defined.
